(** * A shallow embedding of the mini e-commerce backend

    The development follows the three Mongoose schemas (user, product,
    order) and the route handlers of the router that [index.js] mounts under
    [/api/products]: signup, login, the admin routes, the cart, the orders
    and the reviews.

    Conventions of the embedding.
    - A collection is a finite map from [_id] to document.  An [ObjectId] is a
      12-byte value, modelled as a natural number; a string that is not an
      ObjectId never reaches a handler body (the driver's cast rejects it).
    - A JavaScript [Number] is an IEEE 754 double.  The embedding holds the
      rational that a finite double denotes, and [*], [+] and [/] on Numbers
      round the exact result to the nearest double, ties to even
      ([binary64]).  NaN, the infinities and the sign of zero have no
      counterpart: a result beyond the largest finite double (about
      1.8e308) and a division by zero are outside the model.
    - The stock of a product is moved by [$inc], which the database
      evaluates; the embedding keeps that sum exact, which is what the
      database computes on the whole numbers that the API documents for
      stock and quantity.
    - A field of a request body is an [option]: [None] is JavaScript's
      [undefined].  Documents and bodies hold values of their schema type.
    - [findByIdAndUpdate] drops the keys of the update whose value is
      [undefined] (Mongoose 6 and later) and runs no validator; [save] runs
      the validators of the schema on the whole document, also on a
      document that was loaded from the store.
    - A handler maps the store to a response and a new store.  A handler that
      returns early keeps every write it performed before returning.
    - Requests are served one at a time; the one statement on two
      requests that interleave at their [await]s says so. *)

From Stdlib Require Import QArith Qround Qabs Qpower Lqa ZArith String.
From stdpp Require Import base option list gmap strings numbers fin_maps sorting.

Abbreviation ObjectId := N.
Abbreviation Date := Z.
Abbreviation Number := Q.

(** ** Schemas *)

Module User.
Record CartItem := {
  productId : ObjectId;
  quantity : Number;
  addedAt : Date
}.

Record t := {
  name : string;
  email : string;
  password : string;
  role : string;
  phone : string;
  address : string;
  cart : list CartItem;
  createdAt : Date;
  updatedAt : Date
}.

Definition with_cart (c : list CartItem) (u : t) : t :=
  {| name := name u; email := email u; password := password u;
     role := role u; phone := phone u; address := address u;
     cart := c; createdAt := createdAt u; updatedAt := updatedAt u |}.
End User.

Module Product.
Record Review := {
  userId : ObjectId;
  userName : string;
  rating : Number;
  comment : option string;
  reviewCreatedAt : Date
}.

Record t := {
  name : string;
  price : Number;
  description : option string;
  category : option string;
  stock : Number;
  assignedAdmin : option ObjectId;
  reviews : list Review;
  averageRating : Number;
  totalReviews : nat;
  createdAt : Date;
  updatedAt : Date
}.

Definition with_stock (s : Number) (p : t) : t :=
  {| name := name p; price := price p; description := description p;
     category := category p; stock := s; assignedAdmin := assignedAdmin p;
     reviews := reviews p; averageRating := averageRating p;
     totalReviews := totalReviews p; createdAt := createdAt p;
     updatedAt := updatedAt p |}.

Definition with_assignedAdmin (a : option ObjectId) (p : t) : t :=
  {| name := name p; price := price p; description := description p;
     category := category p; stock := stock p; assignedAdmin := a;
     reviews := reviews p; averageRating := averageRating p;
     totalReviews := totalReviews p; createdAt := createdAt p;
     updatedAt := updatedAt p |}.

Definition with_reviews (r : list Review) (p : t) : t :=
  {| name := name p; price := price p; description := description p;
     category := category p; stock := stock p;
     assignedAdmin := assignedAdmin p;
     reviews := r; averageRating := averageRating p;
     totalReviews := totalReviews p; createdAt := createdAt p;
     updatedAt := updatedAt p |}.

Definition with_rating (avg : Number) (n : nat) (p : t) : t :=
  {| name := name p; price := price p; description := description p;
     category := category p; stock := stock p;
     assignedAdmin := assignedAdmin p;
     reviews := reviews p; averageRating := avg;
     totalReviews := n; createdAt := createdAt p;
     updatedAt := updatedAt p |}.
End Product.

Module Order.
Record Item := {
  productId : ObjectId;
  productName : string;
  quantity : Number;
  price : Number;
  subtotal : Number
}.

Record Tracking := {
  status : string;
  location : string;
  estimatedDelivery : option Date;
  trackingUpdatedAt : Date
}.

Record t := {
  userId : ObjectId;
  items : list Item;
  totalAmount : Number;
  deliveryAddress : string;
  paymentMethod : string;
  paymentStatus : string;
  orderStatus : string;
  deliveryTracking : Tracking;
  createdAt : Date;
  updatedAt : Date
}.

Definition paymentMethod_enum : list string :=
  ["credit_card"; "debit_card"; "upi"; "net_banking"; "wallet"].
Definition paymentStatus_enum : list string :=
  ["pending"; "completed"; "failed"].
Definition orderStatus_enum : list string :=
  ["pending"; "confirmed"; "processing"; "shipped"; "delivered"; "cancelled"].
Definition trackingStatus_enum : list string :=
  ["not_shipped"; "in_transit"; "out_for_delivery"; "delivered"].
End Order.

(** ** The store: the three collections *)

Record Store := {
  users : gmap N User.t;
  products : gmap N Product.t;
  orders : gmap N Order.t
}.

Definition with_users (us : gmap N User.t) (st : Store) : Store :=
  {| users := us; products := products st; orders := orders st |}.
Definition with_products (ps : gmap N Product.t) (st : Store) : Store :=
  {| users := users st; products := ps; orders := orders st |}.
Definition with_orders (os : gmap N Order.t) (st : Store) : Store :=
  {| users := users st; products := products st; orders := os |}.

Definition empty_store : Store :=
  {| users := ∅; products := ∅; orders := ∅ |}.

(** ** JavaScript values *)

(** [!s] on a string field: [undefined] and the empty string are falsy. *)
Definition truthy_string (s : option string) : option string :=
  match s with
  | Some v => if decide (v = "") then None else Some v
  | None => None
  end.

(** [!n] on a number field: [undefined] and [0] are falsy. *)
Definition truthy_number (n : option Number) : option Number :=
  match n with
  | Some v => if Qeq_bool v 0 then None else Some v
  | None => None
  end.

(** [a || b] on two optional ids. *)
Definition or_else {A} (a b : option A) : option A :=
  match a with Some _ => a | None => b end.

Definition Qlt_bool (a b : Number) : bool := negb (Qle_bool b a).

(** An optional key of an update document: the key is dropped when the
    value is [undefined], so the stored value stays. *)
Definition set_if_defined {A} (new : option A) (old : A) : A :=
  match new with Some v => v | None => old end.

Definition set_opt_if_defined {A} (new : option A) (old : option A) : option A :=
  match new with Some v => Some v | None => old end.

(** The integer nearest to [t], the even one on a tie. *)
Definition round_half_even (t : Q) : Z :=
  let f := Qfloor t in
  match (t - inject_Z f ?= 1 # 2)%Q with
  | Lt => f
  | Gt => (f + 1)%Z
  | Eq => if Z.even f then f else (f + 1)%Z
  end.

(** The binary logarithm of a positive rational, rounded down. *)
Definition ilog2 (x : Q) : Z :=
  let k := (Z.log2 (Qnum x) - Z.log2 (Zpos (Qden x)))%Z in
  if Qle_bool (2 ^ k) x then k else (k - 1)%Z.

(** The exponent of the last place of the double nearest to a positive
    [x]: 53 significant bits, and no exponent below that of the subnormal
    doubles. *)
Definition binary64_exponent (x : Q) : Z := Z.max (ilog2 x - 52) (-1074).

Definition binary64_pos (x : Q) : Q :=
  let e := binary64_exponent x in
  (inject_Z (round_half_even (x / 2 ^ e)) * 2 ^ e)%Q.

(** The double nearest to [x], the one with an even significand on a tie,
    written as a fraction in lowest terms. *)
Definition binary64 (x : Q) : Number :=
  Qred match (x ?= 0)%Q with
       | Eq => 0
       | Gt => binary64_pos x
       | Lt => - binary64_pos (- x)
       end.

(** Half the distance between 1 and the next double: the largest relative
    error of a rounding above the subnormal range. *)
Definition unit_roundoff : Q := 1 # 9007199254740992.

(** [a * b], [a + b] and [a / b] on two Numbers. *)
Definition js_mul (a b : Number) : Number := binary64 (a * b).
Definition js_add (a b : Number) : Number := binary64 (a + b).
Definition js_div (a b : Number) : Number := binary64 (a / b).

(** [Number.prototype.toFixed(2)] on the double [x]: the integer [n] for
    which [n / 100] is closest to the magnitude of [x], the larger one on a
    tie, with the sign of [x]; the result is that count of hundredths. *)
Definition toFixed2 (x : Number) : Z :=
  if Qlt_bool x 0 then (- Qfloor ((- x) * 100 + (1 # 2)))%Z
  else Qfloor (x * 100 + (1 # 2)).

(** [parseFloat] of a string printed by [toFixed(2)]: the double nearest to
    that many hundredths. *)
Definition parseFloat2 (n : Z) : Number := binary64 (n # 100).

(** The 24 hexadecimal digits of an ObjectId, as string interpolation
    prints it. *)
Definition hex_digit (d : N) : Ascii.ascii :=
  Ascii.ascii_of_N (if (d <? 10)%N then 48 + d else 87 + d).

Fixpoint hex_digits (k : nat) (n : N) (acc : string) : string :=
  match k with
  | O => acc
  | S k' => hex_digits k' (n / 16)%N (String (hex_digit (n mod 16)%N) acc)
  end.

Definition ObjectId_toString (i : N) : string := hex_digits 24 i "".

(** ** Driver operations on one collection *)

Definition findById {A} (m : gmap N A) (i : N) : option A := m !! i.

(** [findByIdAndUpdate(id, update, { new: true })]: the collection after
    the update and the updated document, [null] when no document has the id. *)
Definition findByIdAndUpdate {A} (m : gmap N A) (i : N) (f : A → A)
  : gmap N A * option A :=
  (alter f i m, f <$> m !! i).

Definition findByIdAndDelete {A} (m : gmap N A) (i : N)
  : gmap N A * option A :=
  (delete i m, m !! i).

(** [save] of a new document under an id the collection does not use yet. *)
Definition new_id {A} (m : gmap N A) : N := fresh (dom m).

Definition insert_new {A} (m : gmap N A) (d : A) : gmap N A :=
  <[new_id m := d]> m.

(** ** Responses *)

(** A cart line joined with the display fields of its product
    ([populate("cart.productId", "name price category stock")]); the join is
    [null] for a line whose product is gone. *)
Record CartProduct := {
  cp_name : string;
  cp_price : Number;
  cp_category : option string;
  cp_stock : Number
}.

Record PopulatedUser := {
  pu_id : ObjectId;
  pu_user : User.t;
  pu_cart : list (option (ObjectId * CartProduct))
}.

Inductive Payload :=
| NoPayload
| SignupPayload (id : ObjectId) (name email role : string)
| LoginPayload (token role : string)
| ProductPayload (id : ObjectId) (p : Product.t)
| ReviewedProductPayload (id : ObjectId) (p : Product.t)
    (reviewers : list (option (string * string)))
| UserPayload (u : option PopulatedUser)
| ProfilePayload (id : ObjectId) (u : User.t)
| TrackedOrderPayload (id : ObjectId) (o : Order.t)
| PlacedOrderPayload (id : ObjectId) (o : Order.t)
    (buyer : option (string * string))
| DeletedOrderPayload (id : ObjectId) (o : Order.t).

Record Response := {
  status : nat;
  message : string;
  payload : Payload
}.

Definition reply (code : nat) (msg : string) : Response :=
  {| status := code; message := msg; payload := NoPayload |}.

Definition reply_with (code : nat) (msg : string) (p : Payload) : Response :=
  {| status := code; message := msg; payload := p |}.

(** The error classes of the specification, read off a response: the
    handlers distinguish the 400 responses by their message only. *)
Inductive ErrorClass :=
| ValidationError | ConflictError | AuthError
| ForbiddenError | NotFoundError | InternalError.

(** ** Request identity and the two gates *)

Record Identity := {
  id : ObjectId;
  role : string
}.

(** Modelled from the spec: the Auth Gate, [middleware/authMiddleware.js],
    which is not among the sources.  It verifies the bearer token and
    populates the request identity, or rejects the request without calling
    the route.  The verified token is the [option Identity] of the request:
    [None] stands for a missing, invalid or expired token. *)
Definition auth (user : option Identity)
    (next : Identity → Store → Response * Store) (st : Store)
  : Response * Store :=
  match user with
  | Some u => next u st
  | None => (reply 401 "AuthError", st)
  end.

(** Modelled from the spec: the Admin Gate, [middleware/adminMiddleware.js],
    which is not among the sources.  Composed after the Auth Gate, it
    rejects an identity whose role is not [admin]. *)
Definition admin (u : Identity)
    (next : Identity → Store → Response * Store) (st : Store)
  : Response * Store :=
  if decide (role u = "admin") then next u st
  else (reply 403 "ForbiddenError", st).

(** ** Account routes *)

Module SignupBody.
Record t := {
  name : option string;
  email : option string;
  password : option string;
  phone : option string;
  role : option string
}.
End SignupBody.

(** The login reads both fields without a presence check; the body holds
    two strings. *)
Module LoginBody.
Record t := {
  email : string;
  password : string
}.
End LoginBody.

Module ProfileBody.
Record t := {
  name : option string;
  email : option string;
  phone : option string;
  address : option string
}.
End ProfileBody.

(** [User.findOne({ email })]. *)
Definition findOne_email (us : gmap N User.t) (e : string)
  : option (N * User.t) :=
  head (filter (λ iu, User.email iu.2 = e) (map_to_list us)).

Section Credentials.
(** The credential service: [bcrypt.hash], [bcrypt.compare], [jwt.sign]. *)
Variable bcrypt_hash : string → string.
Variable bcrypt_compare : string → string → bool.
Variable jwt_sign : ObjectId → string → string.

(** [router.post("/signup")] *)
Definition signup (now : Date) (b : SignupBody.t) (st : Store)
  : Response * Store :=
  match truthy_string (SignupBody.name b),
        truthy_string (SignupBody.email b),
        truthy_string (SignupBody.password b) with
  | Some name, Some email, Some password =>
    let userRole :=
      match truthy_string (SignupBody.role b) with
      | Some r => if decide (r = "admin" ∨ r = "user") then r else "user"
      | None => "user"
      end in
    match findOne_email (users st) email with
    | Some _ => (reply 400 "User with this email already exists", st)
    | None =>
      let newUser :=
        {| User.name := name; User.email := email;
           User.password := bcrypt_hash password;
           User.role := userRole;
           User.phone := default "" (truthy_string (SignupBody.phone b));
           User.address := "";
           User.cart := [];
           User.createdAt := now; User.updatedAt := now |} in
      (reply_with 201
         ((if decide (userRole = "admin") then "Admin" else "User")
          +:+ " signup successful. Please login to receive a token.")
         (SignupPayload (new_id (users st)) name email userRole),
       with_users (insert_new (users st) newUser) st)
    end
  | _, _, _ => (reply 400 "Name, email and password are required", st)
  end.

(** [router.post("/login")] *)
Definition login (b : LoginBody.t) (st : Store) : Response * Store :=
  match findOne_email (users st) (LoginBody.email b) with
  | None => (reply 400 "Invalid credentials", st)
  | Some (uid, user) =>
    if negb (bcrypt_compare (LoginBody.password b) (User.password user))
    then (reply 400 "Invalid credentials", st)
    else
      (reply_with 200 "Login successful"
         (LoginPayload (jwt_sign uid (User.role user)) (User.role user)),
       st)
  end.
End Credentials.

(** The unique index on [email]: an update that gives a user the email of
    another user is refused by the store. *)
Definition email_taken (us : gmap N User.t) (self : N) (e : option string)
  : bool :=
  match e with
  | None => false
  | Some e =>
    match findOne_email (delete self us) e with
    | Some _ => true
    | None => false
    end
  end.

Definition update_profile (b : ProfileBody.t) (u : User.t) : User.t :=
  {| User.name := set_if_defined (ProfileBody.name b) (User.name u);
     User.email := set_if_defined (ProfileBody.email b) (User.email u);
     User.password := User.password u;
     User.role := User.role u;
     User.phone := set_if_defined (ProfileBody.phone b) (User.phone u);
     User.address := set_if_defined (ProfileBody.address b) (User.address u);
     User.cart := User.cart u;
     User.createdAt := User.createdAt u;
     User.updatedAt := User.updatedAt u |}.

(** [router.put("/profile/update")] *)
Definition updateProfile (user : option Identity) (b : ProfileBody.t)
  : Store → Response * Store :=
  auth user (λ u st,
    let userId := id u in
    if bool_decide (is_Some (users st !! userId))
       && email_taken (users st) userId (ProfileBody.email b)
    then (reply 500 "E11000 duplicate key error", st)
    else
      match findByIdAndUpdate (users st) userId (update_profile b) with
      | (us, Some doc) =>
        (reply_with 200 "Profile updated successfully"
           (ProfilePayload userId doc),
         with_users us st)
      | (us, None) => (reply 404 "User not found", with_users us st)
      end).

(** ** Catalog routes *)

Module AddBody.
Record t := {
  name : option string;
  price : option Number;
  description : option string;
  category : option string;
  stock : option Number
}.
End AddBody.

Module AssignBody.
Record t := {
  productId : option ObjectId;
  adminId : option ObjectId
}.
End AssignBody.

Module UpdateBody.
Record t := {
  name : option string;
  price : option Number;
  description : option string;
  category : option string;
  stock : option Number
}.
End UpdateBody.

(** [router.post("/add")] *)
Definition addProduct (now : Date) (user : option Identity) (b : AddBody.t)
  : Store → Response * Store :=
  auth user (λ u, admin u (λ _ st,
    match truthy_string (AddBody.name b), truthy_number (AddBody.price b) with
    | Some name, Some price =>
      let product :=
        {| Product.name := name; Product.price := price;
           Product.description := AddBody.description b;
           Product.category := AddBody.category b;
           Product.stock := default 0%Q (AddBody.stock b);
           Product.assignedAdmin := None;
           Product.reviews := [];
           Product.averageRating := 0%Q;
           Product.totalReviews := 0;
           Product.createdAt := now; Product.updatedAt := now |} in
      (reply_with 201 "Product added successfully"
         (ProductPayload (new_id (products st)) product),
       with_products (insert_new (products st) product) st)
    | _, _ => (reply 400 "Name and price are required", st)
    end)).

(** [router.post("/assign")] *)
Definition assignAdmin (user : option Identity) (b : AssignBody.t)
  : Store → Response * Store :=
  auth user (λ u, admin u (λ _ st,
    match AssignBody.productId b, AssignBody.adminId b with
    | Some productId, Some adminId =>
      match findByIdAndUpdate (products st) productId
              (Product.with_assignedAdmin (Some adminId)) with
      | (ps, Some product) =>
        (reply_with 200 "Product assigned successfully"
           (ProductPayload productId product),
         with_products ps st)
      | (ps, None) => (reply 404 "Product not found", with_products ps st)
      end
    | _, _ => (reply 400 "Product ID and Admin ID are required", st)
    end)).

(** The update document [{ name, price, description, category, stock }]
    applied to a product. *)
Definition update_product (b : UpdateBody.t) (p : Product.t) : Product.t :=
  {| Product.name := set_if_defined (UpdateBody.name b) (Product.name p);
     Product.price := set_if_defined (UpdateBody.price b) (Product.price p);
     Product.description :=
       set_opt_if_defined (UpdateBody.description b) (Product.description p);
     Product.category :=
       set_opt_if_defined (UpdateBody.category b) (Product.category p);
     Product.stock := set_if_defined (UpdateBody.stock b) (Product.stock p);
     Product.assignedAdmin := Product.assignedAdmin p;
     Product.reviews := Product.reviews p;
     Product.averageRating := Product.averageRating p;
     Product.totalReviews := Product.totalReviews p;
     Product.createdAt := Product.createdAt p;
     Product.updatedAt := Product.updatedAt p |}.

(** [router.put("/update/:id")] *)
Definition updateProduct (user : option Identity) (id : ObjectId)
    (b : UpdateBody.t) : Store → Response * Store :=
  auth user (λ u, admin u (λ _ st,
    match findByIdAndUpdate (products st) id (update_product b) with
    | (ps, Some product) =>
      (reply_with 200 "Product updated successfully"
         (ProductPayload id product),
       with_products ps st)
    | (ps, None) => (reply 404 "Product not found", with_products ps st)
    end)).

(** ** Delivery tracking *)

Module TrackingBody.
Record t := {
  orderId : option ObjectId;
  status : option string;
  location : option string;
  estimatedDelivery : option Date
}.
End TrackingBody.

(** The update document of [router.post("/delivery-tracking")]. *)
Definition update_tracking (now : Date) (status : string)
    (location : option string) (estimatedDelivery : option Date)
    (o : Order.t) : Order.t :=
  {| Order.userId := Order.userId o;
     Order.items := Order.items o;
     Order.totalAmount := Order.totalAmount o;
     Order.deliveryAddress := Order.deliveryAddress o;
     Order.paymentMethod := Order.paymentMethod o;
     Order.paymentStatus := Order.paymentStatus o;
     Order.orderStatus :=
       if decide (status = "delivered") then "delivered" else "shipped";
     Order.deliveryTracking :=
       {| Order.status := status;
          Order.location :=
            set_if_defined location
              (Order.location (Order.deliveryTracking o));
          Order.estimatedDelivery :=
            set_opt_if_defined estimatedDelivery
              (Order.estimatedDelivery (Order.deliveryTracking o));
          Order.trackingUpdatedAt := now |};
     Order.createdAt := Order.createdAt o;
     Order.updatedAt := Order.updatedAt o |}.

(** [router.post("/delivery-tracking")] *)
Definition updateDeliveryTracking (now : Date) (user : option Identity)
    (b : TrackingBody.t) : Store → Response * Store :=
  auth user (λ u, admin u (λ _ st,
    match TrackingBody.orderId b, truthy_string (TrackingBody.status b) with
    | Some orderId, Some status =>
      match findByIdAndUpdate (orders st) orderId
              (update_tracking now status (TrackingBody.location b)
                 (TrackingBody.estimatedDelivery b)) with
      | (os, Some order) =>
        (reply_with 200 "Delivery tracking updated successfully"
           (TrackedOrderPayload orderId order),
         with_orders os st)
      | (os, None) => (reply 404 "Order not found", with_orders os st)
      end
    | _, _ => (reply 400 "Order ID and status are required", st)
    end)).

(** ** Cart routes *)

Module CartAddBody.
Record t := {
  productId : option ObjectId;
  quantity : option Number;
  userId : option ObjectId
}.
End CartAddBody.

(** [populate("cart.productId", "name price category stock")] *)
Definition populate_cart (ps : gmap N Product.t) (c : list User.CartItem)
  : list (option (ObjectId * CartProduct)) :=
  map (λ line,
         match ps !! User.productId line with
         | Some p =>
           Some (User.productId line,
                 {| cp_name := Product.name p; cp_price := Product.price p;
                    cp_category := Product.category p;
                    cp_stock := Product.stock p |})
         | None => None
         end) c.

Definition populate_user (st : Store) (userId : ObjectId)
  : option PopulatedUser :=
  match findById (users st) userId with
  | Some u =>
    Some {| pu_id := userId; pu_user := u;
            pu_cart := populate_cart (products st) (User.cart u) |}
  | None => None
  end.

(** [{ $push: { cart: { productId, quantity } } }] *)
Definition push_cart (now : Date) (productId : ObjectId) (quantity : Number)
    (u : User.t) : User.t :=
  User.with_cart
    (User.cart u ++
     [{| User.productId := productId; User.quantity := quantity;
         User.addedAt := now |}]) u.

(** [{ $pull: { cart: { productId } } }] *)
Definition pull_cart (productId : ObjectId) (u : User.t) : User.t :=
  User.with_cart
    (filter (λ line, User.productId line ≠ productId) (User.cart u)) u.

(** [router.post("/cart/add")]; [queryUserId] is [req.query.userId]. *)
Definition addToCart (now : Date) (user : option Identity)
    (b : CartAddBody.t) (queryUserId : option ObjectId) (st : Store)
  : Response * Store :=
  let userId :=
    or_else (id <$> user) (or_else (CartAddBody.userId b) queryUserId) in
  match CartAddBody.productId b, truthy_number (CartAddBody.quantity b) with
  | Some productId, Some quantity =>
    match userId with
    | None => (reply 400 "userId is required (provide token or userId)", st)
    | Some userId =>
      match findById (products st) productId with
      | None => (reply 404 "Product not found", st)
      | Some _ =>
        let st' :=
          with_users
            (findByIdAndUpdate (users st) userId
               (push_cart now productId quantity)).1 st in
        (reply_with 200 "Product added to cart successfully"
           (UserPayload (populate_user st' userId)),
         st')
      end
    end
  | _, _ => (reply 400 "Product ID and quantity are required", st)
  end.

(** [router.delete("/cart/delete/:productId")] *)
Definition removeFromCart (user : option Identity) (productId : ObjectId)
    (bodyUserId queryUserId : option ObjectId) (st : Store)
  : Response * Store :=
  let userId := or_else (id <$> user) (or_else bodyUserId queryUserId) in
  match userId with
  | None => (reply 400 "userId is required (provide token or userId)", st)
  | Some userId =>
    let st' :=
      with_users
        (findByIdAndUpdate (users st) userId (pull_cart productId)).1 st in
    (reply_with 200 "Product removed from cart successfully"
       (UserPayload (populate_user st' userId)),
     st')
  end.

(** ** Order routes *)

Module PlaceBody.
Record Item := {
  productId : ObjectId;
  quantity : Number
}.

Record t := {
  items : option (list Item);
  deliveryAddress : option string;
  paymentMethod : option string
}.
End PlaceBody.

(** [{ $inc: { stock: delta } }] *)
Definition inc_stock (delta : Number) (p : Product.t) : Product.t :=
  Product.with_stock (Product.stock p + delta)%Q p.

(** The snapshot line pushed on [processedItems]. *)
Definition processed_item (productId : ObjectId) (product : Product.t)
    (quantity : Number) : Order.Item :=
  {| Order.productId := productId;
     Order.productName := Product.name product;
     Order.quantity := quantity;
     Order.price := Product.price product;
     Order.subtotal := js_mul (Product.price product) quantity |}.

(** The [for (const item of items)] loop of the placement: it returns the
    early response or the accumulated total and lines, together with the
    products as the iterations already performed have left them. *)
Fixpoint place_items (items : list PlaceBody.Item) (totalAmount : Number)
    (processedItems : list Order.Item) (ps : gmap N Product.t)
  : (Response + Number * list Order.Item) * gmap N Product.t :=
  match items with
  | [] => (inr (totalAmount, processedItems), ps)
  | item :: rest =>
    match findById ps (PlaceBody.productId item) with
    | None =>
      (inl (reply 404
              ("Product " +:+ ObjectId_toString (PlaceBody.productId item)
               +:+ " not found")), ps)
    | Some product =>
      if Qlt_bool (Product.stock product) (PlaceBody.quantity item)
      then
        (inl (reply 400
                ("Insufficient stock for " +:+ Product.name product)), ps)
      else
        let subtotal :=
          js_mul (Product.price product) (PlaceBody.quantity item) in
        place_items rest (js_add totalAmount subtotal)
          (processedItems ++
           [processed_item (PlaceBody.productId item) product
              (PlaceBody.quantity item)])
          (findByIdAndUpdate ps (PlaceBody.productId item)
             (inc_stock (- PlaceBody.quantity item)%Q)).1
    end
  end.

(** The two steps of one iteration, each behind its own [await]: the test
    on the product that [findById] reads (lines 868 to 875), and the [$inc]
    that takes the quantity off the stock (lines 889 to 892). *)
Definition item_in_stock (ps : gmap N Product.t) (item : PlaceBody.Item)
  : bool :=
  match findById ps (PlaceBody.productId item) with
  | Some product =>
    negb (Qlt_bool (Product.stock product) (PlaceBody.quantity item))
  | None => false
  end.

Definition take_item (ps : gmap N Product.t) (item : PlaceBody.Item)
  : gmap N Product.t :=
  (findByIdAndUpdate ps (PlaceBody.productId item)
     (inc_stock (- PlaceBody.quantity item)%Q)).1.

(** The validators of the order schema that [order.save()] runs: [min: 1]
    on every quantity, [required] on the address, and the four [enum]s. *)
Definition validate_order (o : Order.t) : bool :=
  forallb (λ it, Qle_bool 1 (Order.quantity it)) (Order.items o)
  && bool_decide (Order.deliveryAddress o ≠ "")
  && bool_decide (Order.paymentMethod o ∈ Order.paymentMethod_enum)
  && bool_decide (Order.paymentStatus o ∈ Order.paymentStatus_enum)
  && bool_decide (Order.orderStatus o ∈ Order.orderStatus_enum)
  && bool_decide (Order.status (Order.deliveryTracking o)
                  ∈ Order.trackingStatus_enum).

(** [new Order({ ... })] with the defaults of the schema. *)
Definition new_order (now : Date) (userId : ObjectId)
    (processedItems : list Order.Item) (totalAmount : Number)
    (deliveryAddress paymentMethod : string) : Order.t :=
  {| Order.userId := userId;
     Order.items := processedItems;
     Order.totalAmount := totalAmount;
     Order.deliveryAddress := deliveryAddress;
     Order.paymentMethod := paymentMethod;
     Order.paymentStatus := "pending";
     Order.orderStatus := "pending";
     Order.deliveryTracking :=
       {| Order.status := "not_shipped"; Order.location := "";
          Order.estimatedDelivery := None;
          Order.trackingUpdatedAt := now |};
     Order.createdAt := now;
     Order.updatedAt := now |}.

(** [order.populate("userId", "name email")] *)
Definition populate_buyer (us : gmap N User.t) (userId : ObjectId)
  : option (string * string) :=
  (λ u, (User.name u, User.email u)) <$> us !! userId.

(** [router.post("/orders/place")] *)
Definition placeOrder (now : Date) (user : option Identity)
    (b : PlaceBody.t) : Store → Response * Store :=
  auth user (λ u st,
    let userId := id u in
    match PlaceBody.items b with
    | None | Some [] => (reply 400 "Items are required", st)
    | Some items =>
      match truthy_string (PlaceBody.deliveryAddress b),
            truthy_string (PlaceBody.paymentMethod b) with
      | Some deliveryAddress, Some paymentMethod =>
        match place_items items 0%Q [] (products st) with
        | (inl early, ps) => (early, with_products ps st)
        | (inr (totalAmount, processedItems), ps) =>
          let order :=
            new_order now userId processedItems totalAmount
              deliveryAddress paymentMethod in
          if validate_order order then
            let orderId := new_id (orders st) in
            let st1 :=
              with_orders (<[orderId := order]> (orders st))
                (with_products ps st) in
            let st2 :=
              with_users
                (findByIdAndUpdate (users st1) userId
                   (User.with_cart [])).1 st1 in
            (reply_with 201 "Order placed successfully"
               (PlacedOrderPayload orderId order
                  (populate_buyer (users st2) userId)),
             st2)
          else (reply 500 "Order validation failed", with_products ps st)
        end
      | _, _ =>
        (reply 400 "Delivery address and payment method are required", st)
      end
    end).

(** [Order.find({ userId }).sort({ createdAt: -1 })] *)
Definition newer_first (a b : N * Order.t) : Prop :=
  (Order.createdAt b.2 ≤ Order.createdAt a.2)%Z.

#[local] Instance newer_first_dec a b : Decision (newer_first a b).
Proof. unfold newer_first. apply _. Defined.

Definition find_orders_of (os : gmap N Order.t) (userId : ObjectId)
  : list (N * Order.t) :=
  merge_sort newer_first
    (filter (λ io, Order.userId io.2 = userId) (map_to_list os)).

(** [router.get("/user/orders")] *)
Definition listUserOrders (user : option Identity) (st : Store)
  : Response * list (N * Order.t) :=
  match user with
  | None => (reply 401 "AuthError", [])
  | Some u =>
    (reply 200 "Orders retrieved successfully",
     find_orders_of (orders st) (id u))
  end.

(** The stock restoring loop of the cancellation. *)
Definition restore_stock (items : list Order.Item) (ps : gmap N Product.t)
  : gmap N Product.t :=
  foldl (λ ps item,
           (findByIdAndUpdate ps (Order.productId item)
              (inc_stock (Order.quantity item))).1) ps items.

(** [router.delete("/orders/:orderId")] *)
Definition cancelOrder (user : option Identity) (orderId : ObjectId)
  : Store → Response * Store :=
  auth user (λ u st,
    let userId := id u in
    match findById (orders st) orderId with
    | None => (reply 404 "Order not found", st)
    | Some order =>
      if decide (Order.userId order ≠ userId ∧ role u ≠ "admin")
      then (reply 403 "Unauthorized to delete this order", st)
      else if decide (Order.orderStatus order = "delivered")
      then (reply 400 "Cannot cancel a delivered order", st)
      else
        let ps := restore_stock (Order.items order) (products st) in
        match findByIdAndDelete (orders st) orderId with
        | (os, Some deletedOrder) =>
          (reply_with 200 "Order cancelled/deleted successfully"
             (DeletedOrderPayload orderId deletedOrder),
           with_orders os (with_products ps st))
        | (os, None) =>
          (reply 200 "Order cancelled/deleted successfully",
           with_orders os (with_products ps st))
        end
    end).

(** ** Reviews *)

Module ReviewBody.
Record t := {
  rating : option Number;
  comment : option string
}.
End ReviewBody.

(** [{ $push: { reviews: review } }] *)
Definition push_review (r : Product.Review) (p : Product.t) : Product.t :=
  Product.with_reviews (Product.reviews p ++ [r]) p.

(** [product.reviews.reduce((sum, review) => sum + review.rating, 0)] *)
Definition totalRating (rs : list Product.Review) : Number :=
  foldl (λ sum review, js_add sum (Product.rating review)) 0%Q rs.

(** [totalRating / product.reviews.length] *)
Definition averageRating (rs : list Product.Review) : Number :=
  js_div (totalRating rs) (inject_Z (Z.of_nat (length rs))).

(** The two assignments before [product.save()]. *)
Definition recompute_rating (product : Product.t) : Product.t :=
  Product.with_rating
    (parseFloat2 (toFixed2 (averageRating (Product.reviews product))))
    (length (Product.reviews product)) product.

(** The validators of the product schema that [product.save()] runs on the
    loaded product: [required] on the name, which an empty string fails,
    and [required], [min: 1] and [max: 5] on the rating of every review.
    The price is required as well; a product of the embedding always holds
    one. *)
Definition validate_product (p : Product.t) : bool :=
  bool_decide (Product.name p ≠ "")
  && forallb (λ review,
                Qle_bool 1 (Product.rating review)
                && Qle_bool (Product.rating review) 5)
       (Product.reviews p).

(** [populate("reviews.userId", "name email")] *)
Definition populate_reviewers (us : gmap N User.t) (rs : list Product.Review)
  : list (option (string * string)) :=
  map (λ r, (λ u, (User.name u, User.email u)) <$> us !! Product.userId r) rs.

(** [router.post("/:productId/reviews")]: the review is pushed by an update
    of its own, before the product with the new average is saved; a save
    that the validators refuse leaves the pushed review in the store. *)
Definition postReview (now : Date) (user : option Identity)
    (productId : ObjectId) (b : ReviewBody.t) : Store → Response * Store :=
  auth user (λ u st,
    let userId := id u in
    match truthy_number (ReviewBody.rating b) with
    | None => (reply 400 "Rating must be between 1 and 5", st)
    | Some rating =>
      if Qlt_bool rating 1 || Qlt_bool 5 rating
      then (reply 400 "Rating must be between 1 and 5", st)
      else
        match findById (users st) userId with
        | None =>
          (reply 500 "Cannot read properties of null (reading 'name')", st)
        | Some reviewer =>
          match findByIdAndUpdate (products st) productId
                  (push_review
                     {| Product.userId := userId;
                        Product.userName := User.name reviewer;
                        Product.rating := rating;
                        Product.comment := ReviewBody.comment b;
                        Product.reviewCreatedAt := now |}) with
          | (ps, None) => (reply 404 "Product not found", with_products ps st)
          | (ps, Some product) =>
            let saved := recompute_rating product in
            if validate_product saved then
              (reply_with 201 "Review posted successfully"
                 (ReviewedProductPayload productId saved
                    (populate_reviewers (users st) (Product.reviews saved))),
               with_products (<[productId := saved]> ps) st)
            else (reply 500 "Product validation failed", with_products ps st)
          end
        end
    end).

(** ** The error taxonomy *)

(** The class of a response in the taxonomy of the specification.  Bad
    credentials, a duplicate email, insufficient stock and a cancellation
    after delivery all answer 400, as a missing input does: the message
    tells them apart. *)
Definition error_class (r : Response) : option ErrorClass :=
  if decide (status r = 400) then
    if decide (message r = "Invalid credentials") then Some AuthError
    else if decide (message r = "User with this email already exists")
    then Some ConflictError
    else if decide (message r = "Cannot cancel a delivered order")
    then Some ConflictError
    else if String.prefix "Insufficient stock for " (message r)
    then Some ConflictError
    else Some ValidationError
  else if decide (status r = 401) then Some AuthError
  else if decide (status r = 403) then Some ForbiddenError
  else if decide (status r = 404) then Some NotFoundError
  else if decide (status r = 500) then Some InternalError
  else None.

(** ** The system: every route that writes to the store *)

Inductive Request :=
| Signup (b : SignupBody.t)
| Login (b : LoginBody.t)
| UpdateProfile (user : option Identity) (b : ProfileBody.t)
| AddProduct (user : option Identity) (b : AddBody.t)
| AssignAdmin (user : option Identity) (b : AssignBody.t)
| UpdateProduct (user : option Identity) (id : ObjectId) (b : UpdateBody.t)
| UpdateDeliveryTracking (user : option Identity) (b : TrackingBody.t)
| AddToCart (user : option Identity) (b : CartAddBody.t)
    (queryUserId : option ObjectId)
| RemoveFromCart (user : option Identity) (productId : ObjectId)
    (bodyUserId queryUserId : option ObjectId)
| PlaceOrder (user : option Identity) (b : PlaceBody.t)
| CancelOrder (user : option Identity) (orderId : ObjectId)
| PostReview (user : option Identity) (productId : ObjectId)
    (b : ReviewBody.t).

(** The rating that a request posts on a product: the request is a review
    of that product and the handler answers 201. *)
Definition posted_rating (productId : ObjectId) (st : Store)
    (r : Date * Request) : option Number :=
  match r.2 with
  | PostReview user pid b =>
    if decide (pid = productId) then
      if decide (status (postReview r.1 user pid b st).1 = 201)
      then ReviewBody.rating b else None
    else None
  | _ => None
  end.

Section System.
Variable bcrypt_hash : string → string.
Variable bcrypt_compare : string → string → bool.
Variable jwt_sign : ObjectId → string → string.

(** One request served at time [now].  The remaining routes are [GET]
    routes, which only read. *)
Definition handle (now : Date) (req : Request) (st : Store)
  : Response * Store :=
  match req with
  | Signup b => signup bcrypt_hash now b st
  | Login b => login bcrypt_compare jwt_sign b st
  | UpdateProfile user b => updateProfile user b st
  | AddProduct user b => addProduct now user b st
  | AssignAdmin user b => assignAdmin user b st
  | UpdateProduct user id b => updateProduct user id b st
  | UpdateDeliveryTracking user b => updateDeliveryTracking now user b st
  | AddToCart user b q => addToCart now user b q st
  | RemoveFromCart user productId bu qu =>
    removeFromCart user productId bu qu st
  | PlaceOrder user b => placeOrder now user b st
  | CancelOrder user orderId => cancelOrder user orderId st
  | PostReview user productId b => postReview now user productId b st
  end.

(** A run: the requests are served one after the other. *)
Definition run (trace : list (Date * Request)) (st : Store) : Store :=
  foldl (λ st r, (handle r.1 r.2 st).2) st trace.

(** The states the system reaches from the empty store. *)
Inductive reachable : Store → Prop :=
| reachable_empty : reachable empty_store
| reachable_handle st now req :
    reachable st → reachable (handle now req st).2.

(** The ratings of the review posts on one product that a run answers with
    201, in the order of the run. *)
Fixpoint posted_ratings (productId : ObjectId) (trace : list (Date * Request))
    (st : Store) : list Number :=
  match trace with
  | [] => []
  | r :: rest =>
    option_list (posted_rating productId st r)
    ++ posted_ratings productId rest (handle r.1 r.2 st).2
  end.
End System.

(** ** Routes that only read *)

(** ** The router and its [GET] routes *)

(** A segment of a route path: a literal, or a parameter such as [:id]. *)
Inductive Segment :=
| Literal (s : string)
| Param (name : string).

Inductive GetRoute :=
| GetAdminUsers | GetAdminUser | GetUsersStats | GetAdminReviews
| GetPayment | GetDeliveryTracking | GetProducts | GetProductById
| GetCart | GetUserOrders.

(** The [router.get] calls of the file, in the order of their
    registration. *)
Definition get_routes : list (list Segment * GetRoute) :=
  [([Literal "admin"; Literal "users"], GetAdminUsers);
   ([Literal "admin"; Literal "users"; Param "userId"], GetAdminUser);
   ([Literal "admin"; Literal "users-stats"], GetUsersStats);
   ([Literal "admin"; Literal "reviews"], GetAdminReviews);
   ([Literal "orders"; Literal "payment"], GetPayment);
   ([Literal "delivery-tracking"], GetDeliveryTracking);
   ([], GetProducts);
   ([Param "id"], GetProductById);
   ([Literal "cart"], GetCart);
   ([Literal "user"; Literal "orders"], GetUserOrders)].

(** Express compares a literal segment without regard to case, and a
    parameter takes any segment that is not empty. *)
Definition to_lower (c : Ascii.ascii) : Ascii.ascii :=
  let n := Ascii.N_of_ascii c in
  if ((65 <=? n) && (n <=? 90))%N then Ascii.ascii_of_N (n + 32) else c.

Fixpoint toLowerCase (s : string) : string :=
  match s with
  | EmptyString => EmptyString
  | String c rest => String (to_lower c) (toLowerCase rest)
  end.

Definition segment_matches (pattern : Segment) (s : string) : bool :=
  match pattern with
  | Literal l => bool_decide (toLowerCase s = toLowerCase l)
  | Param _ => bool_decide (s ≠ "")
  end.

(** A request path is the list of its segments: [/cart] is [["cart"]]. *)
Fixpoint route_matches (pattern : list Segment) (path : list string) : bool :=
  match pattern, path with
  | [], [] => true
  | p :: pattern', s :: path' =>
    segment_matches p s && route_matches pattern' path'
  | _, _ => false
  end.

(** The router runs the first registered route that matches the path; no
    handler of this router hands the request on to a later route. *)
Fixpoint first_match {A} (routes : list (list Segment * A))
    (path : list string) : option A :=
  match routes with
  | [] => None
  | (pattern, handler) :: rest =>
    if route_matches pattern path then Some handler
    else first_match rest path
  end.

Definition dispatch_get (path : list string) : option GetRoute :=
  first_match get_routes path.

Section Cast.
(** The cast of a string to an ObjectId that [findById] performs on
    [req.params.id]. *)
Variable castObjectId : string → option ObjectId.

(** [router.get("/:id")]: a parameter that is no ObjectId makes [findById]
    throw a CastError, which the handler answers with 500. *)
Definition getProduct (id : string) (st : Store)
  : Response * option (ObjectId * Product.t) :=
  match castObjectId id with
  | None => (reply 500 "Cast to ObjectId failed", None)
  | Some productId =>
    match findById (products st) productId with
    | None => (reply 404 "Product not found", None)
    | Some product =>
      (reply 200 "Product retrieved successfully", Some (productId, product))
    end
  end.
End Cast.

(** [Model.countDocuments(filter)] *)
Definition countDocuments {A} (P : A → Prop) `{!∀ x, Decision (P x)}
    (m : gmap N A) : nat :=
  length (filter (λ kv, P kv.2) (map_to_list m)).

Record UserStats := {
  totalUsers : nat;
  adminCount : nat;
  regularUsers : nat;
  usersWithActiveCart : nat
}.

(** The four counts of [router.get("/admin/users-stats")]. *)
Definition user_stats (us : gmap N User.t) : UserStats :=
  {| totalUsers := countDocuments (λ _, True) us;
     adminCount := countDocuments (λ u, User.role u = "admin") us;
     regularUsers := countDocuments (λ u, User.role u = "user") us;
     usersWithActiveCart := countDocuments (λ u, User.cart u ≠ []) us |}.

(** [router.get("/admin/users-stats")], behind the two gates. *)
Definition userStats (user : option Identity) (st : Store)
  : Response * option UserStats :=
  match user with
  | None => (reply 401 "AuthError", None)
  | Some u =>
    if decide (role u = "admin")
    then (reply 200 "User statistics retrieved", Some (user_stats (users st)))
    else (reply 403 "ForbiddenError", None)
  end.




(** ** Vocabulary of the statements *)

(** The quantity an order asks of one product: the sum of the quantities of
    the lines that name it. *)
Definition ordered_quantity (productId : ObjectId) (items : list Order.Item)
  : Number :=
  foldr (λ item acc,
           if decide (Order.productId item = productId)
           then (Order.quantity item + acc)%Q else acc) 0%Q items.

(** [p'] is [p] with its stock moved by [delta] and nothing else touched. *)
Definition stock_moved_by (delta : Number) (p p' : Product.t) : Prop :=
  (Product.stock p' == Product.stock p + delta)%Q ∧
  Product.with_stock (Product.stock p) p' = p.

(** The quantity a placement asks of one product. *)
Definition requested_quantity (productId : ObjectId)
    (items : list PlaceBody.Item) : Number :=
  foldr (λ item acc,
           if decide (PlaceBody.productId item = productId)
           then (PlaceBody.quantity item + acc)%Q else acc) 0%Q items.

(** The sum over the lines of an order of unit price times quantity, as
    doubles add up: every product and every partial sum, taken from the
    first line on, is rounded to the nearest double. *)
Definition add_line (total : Number) (line : Order.Item) : Number :=
  js_add total (js_mul (Order.price line) (Order.quantity line)).

Definition order_total (lines : list Order.Item) : Number :=
  foldl add_line 0%Q lines.






(** [line] is the snapshot of the request [item] taken from the products
    [ps]: the name and the unit price are those of the product, the
    subtotal is the unit price times the quantity, rounded to the nearest
    double. *)
Definition snapshot_of (ps : gmap N Product.t) (item : PlaceBody.Item)
    (line : Order.Item) : Prop :=
  ∃ p, ps !! PlaceBody.productId item = Some p ∧
       Order.productId line = PlaceBody.productId item ∧
       Order.productName line = Product.name p ∧
       Order.quantity line = PlaceBody.quantity item ∧
       Order.price line = Product.price p ∧
       Order.subtotal line
       = js_mul (Product.price p) (PlaceBody.quantity item).



(** The part of a product that the reviews own. *)
Definition review_state (p : Product.t)
  : list Product.Review * Number * nat :=
  (Product.reviews p, Product.averageRating p, Product.totalReviews p).


Definition rating_in_range (r : Number) : Prop := (1 <= r)%Q ∧ (r <= 5)%Q.

Definition sum_of (rs : list Number) : Number := foldr Qplus 0%Q rs.

Definition mean (rs : list Number) : Number :=
  (sum_of rs / inject_Z (Z.of_nat (length rs)))%Q.

(** Modelled from the spec: a number rounded to two decimal places, a tie
    going up, and a tie going to the even hundredth. *)
Definition round2_half_up (x : Q) : Q := Qfloor (x * 100 + (1 # 2)) # 100.
Definition round2_half_even (x : Q) : Q := round_half_even (x * 100) # 100.

(** The average that a save stores for the reviews [rs]. *)
Definition stored_average (rs : list Product.Review) : Number :=
  parseFloat2 (toFixed2 (averageRating rs)).


(** The cached rating of a product is the one of the first [totalReviews]
    of its stored reviews: the reviews stored when the product was last
    saved. *)
Definition rating_cached (s : list Product.Review * Number * nat) : Prop :=
  Forall (λ review, rating_in_range (Product.rating review)) s.1.1 ∧
  s.2 ≤ length s.1.1 ∧
  s.1.2 = match s.2 with
          | 0 => 0%Q
          | _ => stored_average (take s.2 s.1.1)
          end.

(** Two product collections hold the same products with the same reviews,
    average rating and review count. *)
Definition reviews_kept (ps ps' : gmap N Product.t) : Prop :=
  ∀ pid, review_state <$> ps' !! pid = review_state <$> ps !! pid.


(** Every stored product has the cached rating of its last save. *)
Definition cached_store (st : Store) : Prop :=
  ∀ pid p, products st !! pid = Some p → rating_cached (review_state p).



(** A request that does not set the name of a product to the empty
    string. *)
Definition keeps_names (req : Request) : Prop :=
  match req with
  | UpdateProduct _ _ b => UpdateBody.name b ≠ Some ""
  | _ => True
  end.

(** The number of reviews up to which the statements on the average are
    proved; a product of 16 megabytes, the largest the database stores,
    holds fewer. *)
Definition max_reviews : Z := 1048576.

(** The review a post stores. *)
Definition review_of (now : Date) (userId : ObjectId) (reviewer : User.t)
    (rating : Number) (b : ReviewBody.t) : Product.Review :=
  {| Product.userId := userId;
     Product.userName := User.name reviewer;
     Product.rating := rating;
     Product.comment := ReviewBody.comment b;
     Product.reviewCreatedAt := now |}.


(** The largest error that the running sum of at most [max_reviews]
    ratings gathers at each addition. *)
Definition sum_step_error : Q := 5 # 8589934592.

(** How far the stored average of at most [max_reviews] ratings may lie
    from their exact mean: half a hundredth for the two decimals, and the
    roundings of the doubles. *)
Definition average_tolerance : Q := (1 # 200) + (1 # 1073741824).

(** Every stored user has one of the two roles, and no two stored users
    share an email. *)
Definition users_ok (st : Store) : Prop :=
  (∀ i u, users st !! i = Some u →
          User.role u = "user" ∨ User.role u = "admin") ∧
  (∀ i j u v, users st !! i = Some u → users st !! j = Some v →
              User.email u = User.email v → i = j).

(** What every stored order satisfies. *)
Definition order_ok (o : Order.t) : Prop :=
  Order.paymentStatus o = "pending" ∧
  (Order.orderStatus o = "pending" ∨ Order.orderStatus o = "shipped" ∨
   Order.orderStatus o = "delivered") ∧
  Order.paymentMethod o ∈ Order.paymentMethod_enum ∧
  Order.deliveryAddress o ≠ "" ∧
  Order.items o ≠ [] ∧
  Forall (λ line,
            (1 <= Order.quantity line)%Q ∧
            Order.subtotal line
            = js_mul (Order.price line) (Order.quantity line))
    (Order.items o) ∧
  Order.totalAmount o = order_total (Order.items o).

Definition orders_ok (st : Store) : Prop :=
  ∀ i o, orders st !! i = Some o → order_ok o.

(** The stock of every product is non-negative. *)
Definition stocks_nonneg (ps : gmap N Product.t) : Prop :=
  ∀ pid p, ps !! pid = Some p → (0 <= Product.stock p)%Q.

(** The email and the role of a user, and two user collections that hold
    the same users with the same email and role. *)
Definition account (u : User.t) : string * string :=
  (User.email u, User.role u).

Definition accounts_kept (us us' : gmap N User.t) : Prop :=
  ∀ i, account <$> us' !! i = account <$> us !! i.

(** Every user of [us] is still stored in [us'], with the same role and
    the same password. *)
Definition credentials_kept (us us' : gmap N User.t) : Prop :=
  ∀ i u, us !! i = Some u →
         ∃ u', us' !! i = Some u' ∧
               User.role u' = User.role u ∧
               User.password u' = User.password u.

(** ** Sample documents and stores *)

Definition alice : User.t :=
  {| User.name := "Alice"; User.email := "alice@shop.test";
     User.password := "hash:correct horse"; User.role := "user";
     User.phone := ""; User.address := "";
     User.cart :=
       [{| User.productId := 10%N; User.quantity := 1%Q; User.addedAt := 5%Z |};
        {| User.productId := 11%N; User.quantity := 2%Q; User.addedAt := 6%Z |};
        {| User.productId := 10%N; User.quantity := 3%Q; User.addedAt := 7%Z |}];
     User.createdAt := 1%Z; User.updatedAt := 1%Z |}.

Definition widget : Product.t :=
  {| Product.name := "Widget"; Product.price := 10%Q;
     Product.description := Some "A widget"; Product.category := Some "tools";
     Product.stock := 5%Q; Product.assignedAdmin := None;
     Product.reviews := []; Product.averageRating := 0%Q;
     Product.totalReviews := 0; Product.createdAt := 2%Z;
     Product.updatedAt := 2%Z |}.

Definition gadget : Product.t :=
  {| Product.name := "Gadget"; Product.price := (5 # 2)%Q;
     Product.description := None; Product.category := None;
     Product.stock := 8%Q; Product.assignedAdmin := None;
     Product.reviews := []; Product.averageRating := 0%Q;
     Product.totalReviews := 0; Product.createdAt := 3%Z;
     Product.updatedAt := 3%Z |}.

Definition shop : Store :=
  {| users := {[ 1%N := alice ]};
     products := <[ 11%N := gadget ]> {[ 10%N := widget ]};
     orders := ∅ |}.

Definition alice_token : option Identity :=
  Some {| id := 1%N; role := "user" |}.
Definition admin_token : option Identity :=
  Some {| id := 2%N; role := "admin" |}.
Definition mallory_token : option Identity :=
  Some {| id := 3%N; role := "user" |}.

Definition alice_order : Order.t :=
  {| Order.userId := 1%N;
     Order.items :=
       [{| Order.productId := 10%N; Order.productName := "Widget";
           Order.quantity := 2%Q; Order.price := 10%Q;
           Order.subtotal := 20%Q |}];
     Order.totalAmount := 20%Q;
     Order.deliveryAddress := "1 Main Street";
     Order.paymentMethod := "upi";
     Order.paymentStatus := "pending";
     Order.orderStatus := "cancelled";
     Order.deliveryTracking :=
       {| Order.status := "not_shipped"; Order.location := "";
          Order.estimatedDelivery := None; Order.trackingUpdatedAt := 8%Z |};
     Order.createdAt := 8%Z; Order.updatedAt := 8%Z |}.

Definition shop_with_order : Store :=
  {| users := {[ 1%N := alice ]};
     products :=
       <[ 11%N := gadget ]> {[ 10%N := Product.with_stock 3%Q widget ]};
     orders := {[ 20%N := alice_order ]} |}.




(** Three placements by Alice. *)
Definition one_widget_line (quantity : Number) : PlaceBody.Item :=
  {| PlaceBody.productId := 10%N; PlaceBody.quantity := quantity |}.

Definition order_of (items : list PlaceBody.Item) (paymentMethod : string)
  : PlaceBody.t :=
  {| PlaceBody.items := Some items;
     PlaceBody.deliveryAddress := Some "1 Main Street";
     PlaceBody.paymentMethod := Some paymentMethod |}.

(** A run: Alice signs up, an admin adds a product, and four reviews are
    posted on it, one of them with a rating of 7. *)
Definition first_user : option Identity :=
  Some {| id := 0%N; role := "user" |}.

Definition review (now : Date) (rating : Number) : Date * Request :=
  (now, PostReview first_user 0%N
          {| ReviewBody.rating := Some rating;
             ReviewBody.comment := None |}).

Definition sample_run : list (Date * Request) :=
  [(1%Z, Signup {| SignupBody.name := Some "Alice";
                   SignupBody.email := Some "alice@shop.test";
                   SignupBody.password := Some "correct horse";
                   SignupBody.phone := None;
                   SignupBody.role := None |});
   (2%Z, AddProduct admin_token
           {| AddBody.name := Some "Widget"; AddBody.price := Some 10%Q;
              AddBody.description := None; AddBody.category := None;
              AddBody.stock := Some 5%Q |});
   review 3 4; review 4 5; review 5 7; review 6 4].

Definition bob_signup : SignupBody.t :=
  {| SignupBody.name := Some "Bob";
     SignupBody.email := Some "bob@shop.test";
     SignupBody.password := Some "hunter2";
     SignupBody.phone := None;
     SignupBody.role := Some "admin" |}.

(** The same run, followed by a placement of two of the product and a
    tracking update. *)
Definition sample_run_with_order : list (Date * Request) :=
  sample_run ++
  [(7%Z, PlaceOrder first_user
           {| PlaceBody.items :=
                Some [{| PlaceBody.productId := 0%N;
                         PlaceBody.quantity := 2%Q |}];
              PlaceBody.deliveryAddress := Some "1 Main Street";
              PlaceBody.paymentMethod := Some "wallet" |});
   (8%Z, UpdateDeliveryTracking admin_token
           {| TrackingBody.orderId := Some 0%N;
              TrackingBody.status := Some "in_transit";
              TrackingBody.location := None;
              TrackingBody.estimatedDelivery := None |})].

(** A run in which an admin empties the name of the product before the
    first review is posted. *)
Definition unnamed_run : list (Date * Request) :=
  [(1%Z, Signup {| SignupBody.name := Some "Alice";
                   SignupBody.email := Some "alice@shop.test";
                   SignupBody.password := Some "correct horse";
                   SignupBody.phone := None;
                   SignupBody.role := None |});
   (2%Z, AddProduct admin_token
           {| AddBody.name := Some "Widget"; AddBody.price := Some 10%Q;
              AddBody.description := None; AddBody.category := None;
              AddBody.stock := Some 5%Q |});
   (3%Z, UpdateProduct admin_token 0%N
           {| UpdateBody.name := Some ""; UpdateBody.price := None;
              UpdateBody.description := None; UpdateBody.category := None;
              UpdateBody.stock := None |})].

(** A run in which forty reviews are posted on the product: three with a
    rating of 2, then thirty-seven with a rating of 1. *)
Definition tie_run : list (Date * Request) :=
  [(1%Z, Signup {| SignupBody.name := Some "Alice";
                   SignupBody.email := Some "alice@shop.test";
                   SignupBody.password := Some "correct horse";
                   SignupBody.phone := None;
                   SignupBody.role := None |});
   (2%Z, AddProduct admin_token
           {| AddBody.name := Some "Widget"; AddBody.price := Some 10%Q;
              AddBody.description := None; AddBody.category := None;
              AddBody.stock := Some 5%Q |})] ++
  map (λ n, review (Z.of_nat n) 2) (seq 3 3) ++
  map (λ n, review (Z.of_nat n) 1) (seq 6 37).

(** A cast that reads the 24 hexadecimal digits of an ObjectId. *)
Definition hex_value (c : Ascii.ascii) : option N :=
  let n := Ascii.N_of_ascii c in
  if ((48 <=? n) && (n <=? 57))%N then Some (n - 48)%N
  else if ((97 <=? n) && (n <=? 102))%N then Some (n - 87)%N
  else if ((65 <=? n) && (n <=? 70))%N then Some (n - 55)%N
  else None.

Fixpoint parse_hex (s : string) (acc : N) : option N :=
  match s with
  | EmptyString => Some acc
  | String c rest =>
    match hex_value c with
    | Some d => parse_hex rest (16 * acc + d)%N
    | None => None
    end
  end.

Definition sample_cast (s : string) : option ObjectId :=
  if decide (String.length s = 24) then parse_hex s 0%N else None.

(** A stand-in for the credential service. *)
Definition sample_hash (pw : string) : string := "hash:" +:+ pw.
Definition sample_compare (pw h : string) : bool :=
  bool_decide (sample_hash pw = h).
Definition sample_sign (i : ObjectId) (r : string) : string :=
  ObjectId_toString i +:+ "." +:+ r.

(** * Properties *)

(** ** JavaScript numbers *)

(** Rounding to the nearest integer. *)

Lemma inject_Z_plus1 z : (inject_Z (z + 1) == inject_Z z + 1)%Q.
Proof. rewrite inject_Z_plus. reflexivity. Qed.

Lemma round_half_even_error t :
  (t - (1 # 2) <= inject_Z (round_half_even t))%Q ∧
  (inject_Z (round_half_even t) <= t + (1 # 2))%Q.
Proof.
  unfold round_half_even.
  pose proof (Qfloor_le t) as Hlo. pose proof (Qlt_floor t) as Hhi.
  rewrite inject_Z_plus1 in Hhi.
  destruct (Qcompare_spec (t - inject_Z (Qfloor t)) (1 # 2)) as [He|Hl|Hg].
  - destruct (Z.even (Qfloor t)); rewrite ?inject_Z_plus1; split; lra.
  - split; lra.
  - rewrite inject_Z_plus1. split; lra.
Qed.

Lemma round_half_even_Z z : round_half_even (inject_Z z) = z.
Proof.
  unfold round_half_even. rewrite Qfloor_Z.
  destruct (Qcompare_spec (inject_Z z - inject_Z z) (1 # 2)) as [He|Hl|Hg];
    [lra|done|lra].
Qed.

Lemma round_half_even_proper t u :
  (t == u)%Q → round_half_even t = round_half_even u.
Proof.
  intros Htu. unfold round_half_even.
  rewrite (Qfloor_comp _ _ Htu).
  assert ((t - inject_Z (Qfloor u) ?= 1 # 2)%Q
          = (u - inject_Z (Qfloor u) ?= 1 # 2)%Q) as ->; [|done].
  apply Qcompare_comp; [|reflexivity]. by rewrite Htu.
Qed.

Lemma round_half_even_mono t u :
  (t <= u)%Q → (round_half_even t ≤ round_half_even u)%Z.
Proof.
  intros Htu.
  pose proof (Qfloor_resp_le _ _ Htu) as Hf.
  destruct (Z.eq_dec (Qfloor t) (Qfloor u)) as [Heq|Hne].
  - unfold round_half_even. rewrite Heq.
    destruct (Qcompare_spec (t - inject_Z (Qfloor u)) (1 # 2)) as [He|Hl|Hg];
      destruct (Qcompare_spec (u - inject_Z (Qfloor u)) (1 # 2))
        as [He'|Hl'|Hg'];
      try destruct (Z.even (Qfloor u)); try lia; lra.
  - assert (round_half_even t ≤ Qfloor t + 1)%Z.
    { unfold round_half_even.
      destruct (_ ?= _)%Q; try destruct (Z.even _); lia. }
    assert (Qfloor u ≤ round_half_even u)%Z.
    { unfold round_half_even.
      destruct (_ ?= _)%Q; try destruct (Z.even _); lia. }
    lia.
Qed.

(** Powers of two. *)

Lemma two_pow_pos e : (0 < 2 ^ e)%Q.
Proof. by apply Qpower_0_lt. Qed.

Lemma two_pow_succ e : (2 ^ (e + 1) == 2 * 2 ^ e)%Q.
Proof. rewrite Qpower_plus by done. change (2 ^ 1)%Q with 2%Q. ring. Qed.

Lemma two_pow_pred e : (2 * 2 ^ (e - 1) == 2 ^ e)%Q.
Proof.
  rewrite <- two_pow_succ. by replace (e - 1 + 1)%Z with e by lia.
Qed.

Lemma two_pow_le a b : (a ≤ b)%Z → (2 ^ a <= 2 ^ b)%Q.
Proof. intros Hab. by apply Qpower_le_compat_l. Qed.

Lemma two_pow_lt_inv a b : (2 ^ a < 2 ^ b)%Q → (a < b)%Z.
Proof. intros Hab. by apply (Qpower_lt_compat_l_inv 2). Qed.

Lemma two_pow_Z a : (0 ≤ a)%Z → (2 ^ a == inject_Z (2 ^ a))%Q.
Proof. intros Ha. by rewrite Zpower_Qpower. Qed.

(** The binary logarithm. *)

Lemma ilog2_spec x :
  (0 < x)%Q → (2 ^ ilog2 x <= x)%Q ∧ (x < 2 ^ (ilog2 x + 1))%Q.
Proof.
  intros Hx. unfold ilog2.
  set (a := Z.log2 (Qnum x)). set (b := Z.log2 (Z.pos (Qden x))).
  assert (0 < Qnum x)%Z as Hn.
  { destruct x as [n d]. unfold Qlt in Hx. simpl in *. lia. }
  destruct (Z.log2_spec (Qnum x) Hn) as [Ha1 Ha2].
  destruct (Z.log2_spec (Z.pos (Qden x)) eq_refl) as [Hb1 Hb2].
  fold a in Ha1, Ha2. fold b in Hb1, Hb2.
  assert (0 ≤ a)%Z as Ha0 by apply Z.log2_nonneg.
  assert (0 ≤ b)%Z as Hb0 by apply Z.log2_nonneg.
  rewrite Z.pow_succ_r in Ha2, Hb2 by done.
  assert (2 ^ (a - b) * inject_Z (2 ^ b) == inject_Z (2 ^ a))%Q as Hk.
  { rewrite <- !two_pow_Z by done. rewrite <- Qpower_plus by done.
    by replace (a - b + b)%Z with a by lia. }
  assert (x * inject_Z (Z.pos (Qden x)) == inject_Z (Qnum x))%Q as Hxd.
  { destruct x as [n d]. unfold Qeq. simpl. lia. }
  pose proof (two_pow_pos (a - b)) as Hpos.
  rewrite Zle_Qle in Ha1, Hb1. rewrite Zlt_Qlt in Ha2, Hb2.
  rewrite inject_Z_mult in Ha2, Hb2.
  change (inject_Z 2) with 2%Q in Ha2, Hb2.
  set (A := inject_Z (2 ^ a)) in *. set (B := inject_Z (2 ^ b)) in *.
  set (N := inject_Z (Qnum x)) in *. set (D := inject_Z (Z.pos (Qden x))) in *.
  set (K := (2 ^ (a - b))%Q) in *.
  assert (0 < B)%Q as HB.
  { unfold B. change 0%Q with (inject_Z 0). rewrite <- Zlt_Qlt. lia. }
  assert (x < 2 * K)%Q as Hupper.
  { apply Qnot_le_lt. intros Hle.
    assert (2 * K * B <= x * D)%Q.
    { apply Qle_trans with (x * B)%Q.
      - apply Qmult_le_compat_r; lra.
      - apply Qmult_le_l; lra. }
    lra. }
  assert (K < 2 * x)%Q as Hlower.
  { apply Qnot_le_lt. intros Hle.
    assert (2 * x * D <= K * D)%Q by (apply Qmult_le_compat_r; lra).
    assert (K * D < K * (2 * B))%Q by (apply Qmult_lt_l; lra).
    lra. }
  destruct (Qle_bool K x) eqn:Hcmp.
  - apply Qle_bool_iff in Hcmp. split; [done|].
    fold K. rewrite two_pow_succ. done.
  - assert (x < K)%Q as Hlt.
    { apply Qnot_le_lt. intros Hle. apply Qle_bool_iff in Hle. congruence. }
    replace (a - b - 1 + 1)%Z with (a - b)%Z by lia. split; [|done].
    pose proof (two_pow_pred (a - b)) as Hp. fold K in Hp. lra.
Qed.

Lemma ilog2_unique x e :
  (2 ^ e <= x)%Q → (x < 2 ^ (e + 1))%Q → ilog2 x = e.
Proof.
  intros Hlo Hhi.
  assert (0 < x)%Q as Hx by (pose proof (two_pow_pos e); lra).
  destruct (ilog2_spec x Hx) as [Hlo' Hhi'].
  assert (ilog2 x < e + 1)%Z by (apply two_pow_lt_inv; lra).
  assert (e < ilog2 x + 1)%Z by (apply two_pow_lt_inv; lra).
  lia.
Qed.

Lemma ilog2_mono x y : (0 < x)%Q → (x <= y)%Q → (ilog2 x ≤ ilog2 y)%Z.
Proof.
  intros Hx Hxy.
  destruct (ilog2_spec x Hx) as [Hlo _].
  destruct (ilog2_spec y) as [_ Hhi]; [lra|].
  assert (ilog2 x < ilog2 y + 1)%Z by (apply two_pow_lt_inv; lra).
  lia.
Qed.

(** Rounding a positive number to a double. *)

Lemma binary64_exponent_mono x y :
  (0 < x)%Q → (x <= y)%Q → (binary64_exponent x ≤ binary64_exponent y)%Z.
Proof.
  intros Hx Hxy. unfold binary64_exponent.
  pose proof (ilog2_mono x y Hx Hxy). lia.
Qed.

Lemma scaled x e : (x / 2 ^ e * 2 ^ e == x)%Q.
Proof. field. pose proof (two_pow_pos e). lra. Qed.

Lemma scaled_mono x y e : (x <= y)%Q → (x / 2 ^ e <= y / 2 ^ e)%Q.
Proof.
  intros Hxy. apply Qmult_le_compat_r; [done|].
  apply Qlt_le_weak, Qinv_lt_0_compat, two_pow_pos.
Qed.

Lemma two_pow_shift k e : (0 ≤ k)%Z → (inject_Z (2 ^ k) * 2 ^ e == 2 ^ (e + k))%Q.
Proof.
  intros Hk. rewrite <- two_pow_Z by done. rewrite Qpower_plus by done. ring.
Qed.

Lemma binary64_pos_nonneg x : (0 < x)%Q → (0 <= binary64_pos x)%Q.
Proof.
  intros Hx. unfold binary64_pos.
  set (e := binary64_exponent x). pose proof (two_pow_pos e) as He.
  apply Qmult_le_0_compat; [|lra].
  change 0%Q with (inject_Z 0). rewrite <- Zle_Qle.
  rewrite <- (round_half_even_Z 0). apply round_half_even_mono.
  apply Qle_shift_div_l; [done|]. change (inject_Z 0) with 0%Q. lra.
Qed.

Lemma binary64_pos_mono x y :
  (0 < x)%Q → (x <= y)%Q → (binary64_pos x <= binary64_pos y)%Q.
Proof.
  intros Hx Hxy. assert (0 < y)%Q as Hy by lra.
  pose proof (binary64_exponent_mono x y Hx Hxy) as He.
  unfold binary64_pos.
  set (ex := binary64_exponent x) in *. set (ey := binary64_exponent y) in *.
  destruct (Z.eq_dec ex ey) as [Heq|Hne].
  - rewrite Heq. apply Qmult_le_compat_r; [|apply Qlt_le_weak, two_pow_pos].
    rewrite <- Zle_Qle. apply round_half_even_mono. by apply scaled_mono.
  - destruct (ilog2_spec x Hx) as [_ Hxhi].
    destruct (ilog2_spec y Hy) as [Hylo _].
    unfold binary64_exponent in ex, ey.
    assert (ilog2 x + 1 ≤ ex + 53)%Z as Hex by (subst ex; lia).
    assert (ey + 52 = ilog2 y)%Z as Hey by (subst ex ey; lia).
    assert (ex + 53 ≤ ey + 52)%Z as Hgap by lia.
    apply Qle_trans with (2 ^ (ex + 53))%Q;
      [|apply Qle_trans with (2 ^ (ey + 52))%Q; [by apply two_pow_le|]].
    + rewrite <- (two_pow_shift 53 ex) by done.
      apply Qmult_le_compat_r; [|apply Qlt_le_weak, two_pow_pos].
      rewrite <- Zle_Qle.
      rewrite <- (round_half_even_Z (2 ^ 53)).
      apply round_half_even_mono.
      apply Qle_shift_div_r; [apply two_pow_pos|].
      rewrite two_pow_shift by done.
      pose proof (two_pow_le (ilog2 x + 1) (ex + 53) Hex). lra.
    + rewrite <- (two_pow_shift 52 ey) by done.
      apply Qmult_le_compat_r; [|apply Qlt_le_weak, two_pow_pos].
      rewrite <- Zle_Qle.
      rewrite <- (round_half_even_Z (2 ^ 52)).
      apply round_half_even_mono.
      apply Qle_shift_div_l; [apply two_pow_pos|].
      rewrite two_pow_shift by done. by rewrite Hey.
Qed.

(** A whole number below 2^53 is a double. *)
Lemma binary64_pos_Z z :
  (0 < z < 2 ^ 53)%Z → (binary64_pos (inject_Z z) == inject_Z z)%Q.
Proof.
  intros [Hz0 Hz]. unfold binary64_pos.
  set (e := binary64_exponent (inject_Z z)).
  assert (0 < inject_Z z)%Q as Hpos.
  { change 0%Q with (inject_Z 0). by rewrite <- Zlt_Qlt. }
  assert (e ≤ 0)%Z as He.
  { destruct (ilog2_spec _ Hpos) as [Hlo _].
    assert (ilog2 (inject_Z z) < 53)%Z.
    { apply two_pow_lt_inv. rewrite (two_pow_Z 53) by done.
      rewrite Zlt_Qlt in Hz. lra. }
    unfold e, binary64_exponent. lia. }
  assert (inject_Z z / 2 ^ e == inject_Z (z * 2 ^ (- e)))%Q as Ht.
  { rewrite inject_Z_mult, <- two_pow_Z by lia.
    rewrite Qpower_opp. field. pose proof (two_pow_pos e). lra. }
  rewrite (round_half_even_proper _ _ Ht), round_half_even_Z.
  rewrite <- Ht. apply scaled.
Qed.

(** The relative error of the rounding, above the subnormal range. *)

Lemma binary64_pos_error x :
  (2 ^ (-1022) <= x)%Q →
  (x - x * unit_roundoff <= binary64_pos x)%Q ∧
  (binary64_pos x <= x + x * unit_roundoff)%Q.
Proof.
  intros Hx. pose proof (two_pow_pos (-1022)) as H0.
  assert (0 < x)%Q as Hpos by lra.
  destruct (ilog2_spec x Hpos) as [Hlo Hhi].
  assert (-1022 < ilog2 x + 1)%Z by (apply two_pow_lt_inv; lra).
  unfold binary64_pos.
  assert (binary64_exponent x = ilog2 x - 52)%Z as ->
    by (unfold binary64_exponent; lia).
  set (e := (ilog2 x - 52)%Z).
  destruct (round_half_even_error (x / 2 ^ e)) as [Hr1 Hr2].
  set (r := inject_Z (round_half_even (x / 2 ^ e))) in *.
  pose proof (two_pow_pos e) as He. pose proof (scaled x e) as Hs.
  assert (2 ^ e * (1 # 2) <= x * unit_roundoff)%Q as Hulp.
  { assert (2 ^ ilog2 x * unit_roundoff == 2 ^ e * (1 # 2))%Q as <-.
    { unfold e. replace (ilog2 x) with (ilog2 x - 52 + 52)%Z at 1 by lia.
      rewrite Qpower_plus by done. unfold unit_roundoff.
      assert (2 ^ 52 * (1 # 9007199254740992) == 1 # 2)%Q as Hc by reflexivity.
      rewrite <- Qmult_assoc, Hc. reflexivity. }
    apply Qmult_le_compat_r; [done|]. unfold unit_roundoff. lra. }
  assert ((x / 2 ^ e - (1 # 2)) * 2 ^ e <= r * 2 ^ e)%Q
    by (apply Qmult_le_compat_r; lra).
  assert (r * 2 ^ e <= (x / 2 ^ e + (1 # 2)) * 2 ^ e)%Q
    by (apply Qmult_le_compat_r; lra).
  split; lra.
Qed.

(** Rounding any number to a double. *)

Lemma binary64_eq x :
  (binary64 x == match (x ?= 0)%Q with
                 | Eq => 0
                 | Gt => binary64_pos x
                 | Lt => - binary64_pos (- x)
                 end)%Q.
Proof. unfold binary64. apply Qred_correct. Qed.

Lemma binary64_of_pos x : (0 < x)%Q → (binary64 x == binary64_pos x)%Q.
Proof.
  intros Hx. rewrite binary64_eq.
  destruct (Qcompare_spec x 0); [lra|lra|reflexivity].
Qed.

Lemma binary64_of_neg x : (x < 0)%Q → (binary64 x == - binary64_pos (- x))%Q.
Proof.
  intros Hx. rewrite binary64_eq.
  destruct (Qcompare_spec x 0); [lra|reflexivity|lra].
Qed.

Lemma binary64_of_zero x : (x == 0)%Q → (binary64 x == 0)%Q.
Proof.
  intros Hx. rewrite binary64_eq.
  destruct (Qcompare_spec x 0); [reflexivity|lra|lra].
Qed.

Lemma binary64_mono x y : (x <= y)%Q → (binary64 x <= binary64 y)%Q.
Proof.
  intros Hxy.
  destruct (Qlt_le_dec 0 x) as [Hx|Hx].
  - rewrite !binary64_of_pos by lra. by apply binary64_pos_mono.
  - assert (binary64 x <= 0)%Q as Hbx.
    { destruct (Qlt_le_dec x 0) as [Hx0|Hx0].
      - rewrite binary64_of_neg by done.
        pose proof (binary64_pos_nonneg (- x)). lra.
      - rewrite binary64_of_zero; lra. }
    destruct (Qlt_le_dec 0 y) as [Hy|Hy].
    + rewrite (binary64_of_pos y) by done.
      pose proof (binary64_pos_nonneg y Hy). lra.
    + destruct (Qlt_le_dec y 0) as [Hy0|Hy0].
      * rewrite !binary64_of_neg by lra.
        pose proof (binary64_pos_mono (- y) (- x)). lra.
      * rewrite (binary64_of_zero y) by lra. done.
Qed.

(** Equal numbers round to the same stored value. *)
Lemma binary64_proper x y : (x == y)%Q → binary64 x = binary64 y.
Proof.
  intros Hxy. unfold binary64. apply Qred_complete.
  rewrite <- !binary64_eq. apply Qle_antisym; apply binary64_mono; lra.
Qed.

Lemma binary64_Z z :
  (0 ≤ z < 2 ^ 53)%Z → (binary64 (inject_Z z) == inject_Z z)%Q.
Proof.
  intros [Hz0 Hz]. destruct (Z.eq_dec z 0%Z) as [->|Hne]; [reflexivity|].
  rewrite binary64_of_pos.
  - apply binary64_pos_Z. lia.
  - change 0%Q with (inject_Z 0). rewrite <- Zlt_Qlt. lia.
Qed.

Lemma binary64_error x :
  (2 ^ (-1022) <= x)%Q →
  (x - x * unit_roundoff <= binary64 x)%Q ∧
  (binary64 x <= x + x * unit_roundoff)%Q.
Proof.
  intros Hx. pose proof (two_pow_pos (-1022)).
  rewrite binary64_of_pos by lra. by apply binary64_pos_error.
Qed.

(** ** The driver operations *)

Lemma store_eta (st : Store) :
  {| users := users st; products := products st; orders := orders st |} = st.
Proof. by destruct st. Qed.

Lemma alter_absent {A} (f : A → A) (m : gmap N A) (i : N) :
  m !! i = None → alter f i m = m.
Proof.
  intros Hi. apply map_eq. intros j.
  destruct (decide (i = j)) as [<-|Hne].
  - by rewrite lookup_alter_eq, Hi.
  - by rewrite lookup_alter_ne.
Qed.

Lemma alter_present {A} (f : A → A) (m : gmap N A) (i : N) (x : A) :
  m !! i = Some x → alter f i m = <[i := f x]> m.
Proof.
  intros Hi. apply map_eq. intros j.
  destruct (decide (i = j)) as [<-|Hne].
  - by rewrite lookup_alter_eq, Hi, lookup_insert_eq.
  - by rewrite lookup_alter_ne, lookup_insert_ne.
Qed.

Lemma findByIdAndUpdate_absent {A} (f : A → A) (m : gmap N A) (i : N) :
  m !! i = None → findByIdAndUpdate m i f = (m, None).
Proof.
  intros Hi. unfold findByIdAndUpdate.
  by rewrite alter_absent, Hi.
Qed.

Lemma findByIdAndUpdate_present {A} (f : A → A) (m : gmap N A) i x :
  m !! i = Some x →
  findByIdAndUpdate m i f = (<[i := f x]> m, Some (f x)).
Proof.
  intros Hi. unfold findByIdAndUpdate.
  by rewrite (alter_present f m i x), Hi.
Qed.

(** [findOne] returns a stored user that carries the email, and returns
    [null] only when no stored user does. *)
Lemma findOne_email_Some (us : gmap N User.t) e i u :
  findOne_email us e = Some (i, u) → us !! i = Some u ∧ User.email u = e.
Proof.
  unfold findOne_email. intros Hh.
  apply head_Some_elem_of in Hh.
  apply list_elem_of_filter in Hh as [He Hin].
  by apply elem_of_map_to_list in Hin.
Qed.

Lemma findOne_email_None (us : gmap N User.t) e :
  findOne_email us e = None ↔ ∀ i u, us !! i = Some u → User.email u ≠ e.
Proof.
  unfold findOne_email. rewrite head_None. split.
  - intros Hnil i u Hi He.
    assert (Hin : (i, u) ∈ filter (λ iu, User.email iu.2 = e) (map_to_list us)).
    { apply list_elem_of_filter. split; [done|]. by apply elem_of_map_to_list. }
    rewrite Hnil in Hin. by apply elem_of_nil in Hin.
  - intros Hno.
    destruct (filter (λ iu, User.email iu.2 = e) (map_to_list us))
      as [|[i u] l] eqn:Hf; [done|].
    assert (Hin : (i, u) ∈ filter (λ iu, User.email iu.2 = e) (map_to_list us)).
    { rewrite Hf. apply list_elem_of_here. }
    apply list_elem_of_filter in Hin as [He Hin].
    apply elem_of_map_to_list in Hin. by destruct (Hno i u Hin).
Qed.

(** ** Login *)

(** The two failing branches of the login answer alike. *)
Lemma login_unknown_email compare sign b st :
  findOne_email (users st) (LoginBody.email b) = None →
  login compare sign b st = (reply 400 "Invalid credentials", st).
Proof. intros H. unfold login. by rewrite H. Qed.

Lemma login_wrong_password compare sign b st uid user :
  findOne_email (users st) (LoginBody.email b) = Some (uid, user) →
  compare (LoginBody.password b) (User.password user) = false →
  login compare sign b st = (reply 400 "Invalid credentials", st).
Proof. intros H Hc. unfold login. by rewrite H, Hc. Qed.

(** C8.  A login with an email that matches no user and a login with a
    stored email whose password fails the hash verification both fail with
    AuthError and carry the same message, "Invalid credentials": the two
    responses are equal, so a response does not tell whether the email
    exists.  Neither attempt changes the store. *)
Theorem login_failures_indistinguishable
    (compare : string → string → bool) (sign : ObjectId → string → string)
    (st1 st2 : Store) (b1 b2 : LoginBody.t) (uid : ObjectId) (user : User.t) :
  findOne_email (users st1) (LoginBody.email b1) = None →
  findOne_email (users st2) (LoginBody.email b2) = Some (uid, user) →
  compare (LoginBody.password b2) (User.password user) = false →
  let r1 := login compare sign b1 st1 in
  let r2 := login compare sign b2 st2 in
  error_class r1.1 = Some AuthError ∧
  error_class r2.1 = Some AuthError ∧
  message r1.1 = "Invalid credentials" ∧
  message r2.1 = message r1.1 ∧
  r1.1 = r2.1 ∧
  r1.2 = st1 ∧ r2.2 = st2.
Proof.
  intros H1 H2 Hc r1 r2. subst r1 r2.
  rewrite (login_unknown_email _ _ _ _ H1).
  rewrite (login_wrong_password _ _ _ _ _ _ H2 Hc).
  by repeat split.
Qed.

Lemma login_failures_indistinguishable_witness :
  let b1 := {| LoginBody.email := "nobody@shop.test";
               LoginBody.password := "correct horse" |} in
  let b2 := {| LoginBody.email := "alice@shop.test";
               LoginBody.password := "wrong" |} in
  (login sample_compare sample_sign b1 shop).1
  = (login sample_compare sample_sign b2 shop).1.
Proof.
  intros b1 b2.
  apply (login_failures_indistinguishable sample_compare sample_sign
           shop shop b1 b2 1%N alice); reflexivity.
Defined.

(** ** The cart *)

Lemma with_users_same (st : Store) : with_users (users st) st = st.
Proof. by destruct st. Qed.

Lemma with_products_same (st : Store) : with_products (products st) st = st.
Proof. by destruct st. Qed.

Lemma with_orders_same (st : Store) : with_orders (orders st) st = st.
Proof. by destruct st. Qed.

Lemma populate_user_absent st userId :
  users st !! userId = None → populate_user st userId = None.
Proof. intros H. unfold populate_user, findById. by rewrite H. Qed.

Lemma addToCart_unknown_user now user b q st userId productId quantity p :
  or_else (id <$> user) (or_else (CartAddBody.userId b) q) = Some userId →
  users st !! userId = None →
  CartAddBody.productId b = Some productId →
  products st !! productId = Some p →
  truthy_number (CartAddBody.quantity b) = Some quantity →
  addToCart now user b q st
  = (reply_with 200 "Product added to cart successfully" (UserPayload None),
     st).
Proof.
  intros Hu Hno Hp Hprod Hq. unfold addToCart, findById.
  rewrite Hu, Hp, Hq, Hprod. unfold findByIdAndUpdate. simpl.
  rewrite (alter_absent _ _ _ Hno), with_users_same.
  by rewrite (populate_user_absent _ _ Hno).
Qed.

Lemma removeFromCart_unknown_user user productId bu qu st userId :
  or_else (id <$> user) (or_else bu qu) = Some userId →
  users st !! userId = None →
  removeFromCart user productId bu qu st
  = (reply_with 200 "Product removed from cart successfully"
       (UserPayload None), st).
Proof.
  intros Hu Hno. unfold removeFromCart.
  rewrite Hu. unfold findByIdAndUpdate. simpl.
  rewrite (alter_absent _ _ _ Hno), with_users_same.
  by rewrite (populate_user_absent _ _ Hno).
Qed.

(** C9.  When the user id a cart request resolves to matches no stored
    user, adding to the cart (the product exists and the quantity passes
    the presence test) and removing from the cart do not fail with
    NotFoundError: both answer 200 with their success message and a [null]
    user, and the store, so every stored cart, stays as it was. *)
Theorem cart_routes_succeed_for_unknown_user
    (now : Date) (user : option Identity) (b : CartAddBody.t)
    (productId : ObjectId) (bodyUserId queryUserId : option ObjectId)
    (st : Store) (userId : ObjectId) :
  users st !! userId = None →
  (∀ pid quantity p,
     or_else (id <$> user) (or_else (CartAddBody.userId b) queryUserId)
     = Some userId →
     CartAddBody.productId b = Some pid →
     products st !! pid = Some p →
     truthy_number (CartAddBody.quantity b) = Some quantity →
     let r := addToCart now user b queryUserId st in
     r.1 = reply_with 200 "Product added to cart successfully"
             (UserPayload None) ∧
     error_class r.1 = None ∧
     r.2 = st) ∧
  (or_else (id <$> user) (or_else bodyUserId queryUserId) = Some userId →
   let r := removeFromCart user productId bodyUserId queryUserId st in
   r.1 = reply_with 200 "Product removed from cart successfully"
           (UserPayload None) ∧
   error_class r.1 = None ∧
   r.2 = st).
Proof.
  intros Hno. split.
  - intros pid quantity p Hu Hp Hprod Hq r. subst r.
    by rewrite (addToCart_unknown_user _ _ _ _ _ _ _ _ _ Hu Hno Hp Hprod Hq).
  - intros Hu r. subst r.
    by rewrite (removeFromCart_unknown_user _ _ _ _ _ _ Hu Hno).
Qed.

Lemma cart_routes_succeed_for_unknown_user_witness :
  let b := {| CartAddBody.productId := Some 10%N;
              CartAddBody.quantity := Some 2%Q;
              CartAddBody.userId := Some 99%N |} in
  (addToCart 20%Z None b None shop).2 = shop ∧
  (removeFromCart None 10%N None (Some 99%N) shop).2 = shop.
Proof.
  intros b.
  destruct (cart_routes_succeed_for_unknown_user 20%Z None b 10%N None
              (Some 99%N) shop 99%N eq_refl) as [Hadd Hdel].
  split.
  - apply (Hadd 10%N 2%Q widget); reflexivity.
  - apply Hdel; reflexivity.
Defined.

Lemma pull_cart_idem productId u :
  pull_cart productId (pull_cart productId u) = pull_cart productId u.
Proof.
  unfold pull_cart, User.with_cart. simpl. f_equal.
  apply list_filter_filter_l. auto.
Qed.

Lemma pull_cart_no_match productId u :
  (∀ line, line ∈ User.cart u → User.productId line ≠ productId) →
  pull_cart productId u = u.
Proof.
  intros Hno. unfold pull_cart, User.with_cart. destruct u as [? ? ? ? ? ? c ? ?].
  simpl in *. f_equal.
  induction c as [|x c IH]; [done|].
  rewrite filter_cons_True.
  - f_equal. apply IH. intros line Hl. apply Hno. by apply list_elem_of_further.
  - apply Hno. apply list_elem_of_here.
Qed.

Lemma alter_fixed {A} (f : A → A) (m : gmap N A) (i : N) :
  (∀ x, m !! i = Some x → f x = x) → alter f i m = m.
Proof.
  intros Hf. apply map_eq. intros j.
  destruct (decide (i = j)) as [<-|Hne].
  - rewrite lookup_alter_eq. destruct (m !! i) as [x|] eqn:Hi; [|done].
    simpl. by rewrite (Hf x).
  - by rewrite lookup_alter_ne.
Qed.

(** C7.  Removing a product from a cart drops every line of the cart whose
    [productId] matches and keeps the other lines in order; nothing else in
    the store changes.  When no line matches, the request succeeds and the
    store is unchanged.  Repeating the request gives the same response and
    the same store: the removal is idempotent. *)
Theorem removeFromCart_removes_all_matching_lines
    (user : option Identity) (productId : ObjectId)
    (bodyUserId queryUserId : option ObjectId) (st : Store)
    (userId : ObjectId) :
  or_else (id <$> user) (or_else bodyUserId queryUserId) = Some userId →
  let r := removeFromCart user productId bodyUserId queryUserId st in
  status r.1 = 200 ∧
  message r.1 = "Product removed from cart successfully" ∧
  (∀ u, users st !! userId = Some u →
     ∃ u', users r.2 !! userId = Some u' ∧
       User.cart u'
       = filter (λ line, User.productId line ≠ productId) (User.cart u) ∧
       (∀ line, line ∈ User.cart u' ↔
                line ∈ User.cart u ∧ User.productId line ≠ productId) ∧
       User.with_cart (User.cart u) u' = u) ∧
  (∀ j, j ≠ userId → users r.2 !! j = users st !! j) ∧
  products r.2 = products st ∧
  orders r.2 = orders st ∧
  ((∀ u line, users st !! userId = Some u → line ∈ User.cart u →
              User.productId line ≠ productId) →
   r.2 = st) ∧
  removeFromCart user productId bodyUserId queryUserId r.2 = r.
Proof.
  intros Hu r. subst r. unfold removeFromCart. rewrite Hu.
  unfold findByIdAndUpdate. simpl.
  split; [done|]. split; [done|]. split.
  { intros u Hsome. exists (pull_cart productId u). split.
    - by rewrite lookup_alter_eq, Hsome.
    - split; [done|]. split.
      + intros line. unfold pull_cart. simpl.
        rewrite list_elem_of_filter. tauto.
      + by destruct u. }
  split. { intros j Hj. by rewrite lookup_alter_ne. }
  split; [done|]. split; [done|]. split.
  { intros Hno. rewrite alter_fixed; [apply with_users_same|].
    intros x Hx. apply pull_cart_no_match. intros line Hl. by apply (Hno x). }
  assert (Halt : alter (pull_cart productId) userId
                   (alter (pull_cart productId) userId (users st))
                 = alter (pull_cart productId) userId (users st)).
  { apply alter_fixed. intros x Hx.
    rewrite lookup_alter_eq in Hx.
    destruct (users st !! userId) as [u|]; [|done].
    simpl in Hx. injection Hx as <-. apply pull_cart_idem. }
  f_equal.
  - f_equal. f_equal. unfold populate_user, findById. simpl. by rewrite Halt.
  - unfold with_users. simpl. by rewrite Halt.
Qed.

Lemma removeFromCart_removes_all_matching_lines_witness :
  let r := removeFromCart None 10%N (Some 1%N) None shop in
  (User.cart <$> users r.2 !! 1%N)
  = Some [{| User.productId := 11%N; User.quantity := 2%Q;
             User.addedAt := 6%Z |}] ∧
  removeFromCart None 10%N (Some 1%N) None r.2 = r.
Proof.
  intros r.
  destruct (removeFromCart_removes_all_matching_lines None 10%N (Some 1%N)
              None shop 1%N eq_refl)
    as (_ & _ & Hcart & _ & _ & _ & _ & Hidem).
  split; [|exact Hidem].
  destruct (Hcart alice eq_refl) as (u' & Hu' & Hc & _).
  fold r in Hu'. rewrite Hu'. simpl. by rewrite Hc.
Defined.

(** ** Product update *)

Lemma updateProduct_found u pid b st p :
  role u = "admin" →
  products st !! pid = Some p →
  updateProduct (Some u) pid b st
  = (reply_with 200 "Product updated successfully"
       (ProductPayload pid (update_product b p)),
     with_products (<[pid := update_product b p]> (products st)) st).
Proof.
  intros Hadmin Hp. unfold updateProduct, auth, admin.
  rewrite decide_True by done.
  by rewrite (findByIdAndUpdate_present _ _ _ _ Hp).
Qed.

Lemma updateProduct_not_found u pid b st :
  role u = "admin" →
  products st !! pid = None →
  updateProduct (Some u) pid b st = (reply 404 "Product not found", st).
Proof.
  intros Hadmin Hp. unfold updateProduct, auth, admin.
  rewrite decide_True by done.
  rewrite (findByIdAndUpdate_absent _ _ _ Hp).
  by rewrite with_products_same.
Qed.

(** C6.  An update of an existing product by an admin writes the supplied
    ones among name, price, description, category and stock, and leaves the
    unsupplied ones, as well as assignedAdmin, reviews, averageRating,
    totalReviews and the two dates, as they were; no other product, no user
    and no order changes.  An update of an absent id fails with
    NotFoundError and changes nothing. *)
Theorem updateProduct_changes_only_supplied_fields
    (u : Identity) (pid : ObjectId) (b : UpdateBody.t) (st : Store) :
  role u = "admin" →
  let r := updateProduct (Some u) pid b st in
  (∀ p, products st !! pid = Some p →
     ∃ p',
       r.1 = reply_with 200 "Product updated successfully"
               (ProductPayload pid p') ∧
       products r.2 !! pid = Some p' ∧
       (∀ v, UpdateBody.name b = Some v → Product.name p' = v) ∧
       (UpdateBody.name b = None → Product.name p' = Product.name p) ∧
       (∀ v, UpdateBody.price b = Some v → Product.price p' = v) ∧
       (UpdateBody.price b = None → Product.price p' = Product.price p) ∧
       (∀ v, UpdateBody.description b = Some v →
             Product.description p' = Some v) ∧
       (UpdateBody.description b = None →
        Product.description p' = Product.description p) ∧
       (∀ v, UpdateBody.category b = Some v → Product.category p' = Some v) ∧
       (UpdateBody.category b = None →
        Product.category p' = Product.category p) ∧
       (∀ v, UpdateBody.stock b = Some v → Product.stock p' = v) ∧
       (UpdateBody.stock b = None → Product.stock p' = Product.stock p) ∧
       Product.assignedAdmin p' = Product.assignedAdmin p ∧
       Product.reviews p' = Product.reviews p ∧
       Product.averageRating p' = Product.averageRating p ∧
       Product.totalReviews p' = Product.totalReviews p ∧
       Product.createdAt p' = Product.createdAt p ∧
       Product.updatedAt p' = Product.updatedAt p ∧
       (∀ j, j ≠ pid → products r.2 !! j = products st !! j) ∧
       users r.2 = users st ∧
       orders r.2 = orders st) ∧
  (products st !! pid = None →
   r.1 = reply 404 "Product not found" ∧
   error_class r.1 = Some NotFoundError ∧
   r.2 = st).
Proof.
  intros Hadmin r. subst r. split.
  - intros p Hp. rewrite (updateProduct_found _ _ _ _ _ Hadmin Hp).
    exists (update_product b p). simpl.
    split; [done|]. split; [apply lookup_insert_eq|].
    unfold update_product. simpl.
    repeat split; try done;
      try (intros v Hv; by rewrite Hv); try (intros Hv; by rewrite Hv).
    intros j Hj. by rewrite lookup_insert_ne.
  - intros Hp. by rewrite (updateProduct_not_found _ _ _ _ Hadmin Hp).
Qed.

Lemma updateProduct_changes_only_supplied_fields_witness :
  let b := {| UpdateBody.name := None; UpdateBody.price := Some 12%Q;
              UpdateBody.description := None; UpdateBody.category := None;
              UpdateBody.stock := None |} in
  ∃ p', products (updateProduct admin_token 10%N b shop).2 !! 10%N = Some p' ∧
        Product.price p' = 12%Q ∧
        Product.name p' = "Widget" ∧
        Product.stock p' = 5%Q.
Proof.
  intros b.
  destruct (updateProduct_changes_only_supplied_fields
              {| id := 2%N; role := "admin" |} 10%N b shop eq_refl)
    as [Hfound _].
  destruct (Hfound widget eq_refl)
    as (p' & _ & Hp' & _ & Hname & Hprice & _ & _ & _ & _ & _ & _ & Hstock & _).
  exists p'. split; [exact Hp'|].
  split; [by apply Hprice|].
  split; [by rewrite Hname|by rewrite Hstock].
Defined.

(** ** Delivery tracking *)

Lemma updateDeliveryTracking_found now u b st orderId status o :
  role u = "admin" →
  TrackingBody.orderId b = Some orderId →
  truthy_string (TrackingBody.status b) = Some status →
  orders st !! orderId = Some o →
  let o' := update_tracking now status (TrackingBody.location b)
              (TrackingBody.estimatedDelivery b) o in
  updateDeliveryTracking now (Some u) b st
  = (reply_with 200 "Delivery tracking updated successfully"
       (TrackedOrderPayload orderId o'),
     with_orders (<[orderId := o']> (orders st)) st).
Proof.
  intros Hadmin Hid Hs Ho o'. unfold updateDeliveryTracking, auth, admin.
  rewrite decide_True by done. rewrite Hid, Hs.
  by rewrite (findByIdAndUpdate_present _ _ _ _ Ho).
Qed.

(** C5.  A tracking update by an admin with a present status on an existing
    order stores the status, stores the location and the estimated delivery
    that the request supplies (one that the request leaves out stays as it
    was), stamps the tracking with the current time,
    and sets orderStatus to "delivered" when the status is exactly
    "delivered" and to "shipped" for any other status, whatever orderStatus
    was before; the rest of the order and of the store is unchanged.  A
    missing status fails with ValidationError, and an order id that matches
    no order fails with NotFoundError; both leave the store unchanged. *)
Theorem updateDeliveryTracking_overwrites_orderStatus
    (now : Date) (u : Identity) (b : TrackingBody.t) (st : Store) :
  role u = "admin" →
  let r := updateDeliveryTracking now (Some u) b st in
  (∀ orderId status o,
     TrackingBody.orderId b = Some orderId →
     truthy_string (TrackingBody.status b) = Some status →
     orders st !! orderId = Some o →
     ∃ o',
       r.1 = reply_with 200 "Delivery tracking updated successfully"
               (TrackedOrderPayload orderId o') ∧
       orders r.2 !! orderId = Some o' ∧
       Order.status (Order.deliveryTracking o') = status ∧
       (∀ l, TrackingBody.location b = Some l →
             Order.location (Order.deliveryTracking o') = l) ∧
       (TrackingBody.location b = None →
        Order.location (Order.deliveryTracking o')
        = Order.location (Order.deliveryTracking o)) ∧
       (∀ d, TrackingBody.estimatedDelivery b = Some d →
             Order.estimatedDelivery (Order.deliveryTracking o') = Some d) ∧
       (TrackingBody.estimatedDelivery b = None →
        Order.estimatedDelivery (Order.deliveryTracking o')
        = Order.estimatedDelivery (Order.deliveryTracking o)) ∧
       Order.trackingUpdatedAt (Order.deliveryTracking o') = now ∧
       (status = "delivered" → Order.orderStatus o' = "delivered") ∧
       (status ≠ "delivered" → Order.orderStatus o' = "shipped") ∧
       Order.userId o' = Order.userId o ∧
       Order.items o' = Order.items o ∧
       Order.totalAmount o' = Order.totalAmount o ∧
       Order.deliveryAddress o' = Order.deliveryAddress o ∧
       Order.paymentMethod o' = Order.paymentMethod o ∧
       Order.paymentStatus o' = Order.paymentStatus o ∧
       (∀ j, j ≠ orderId → orders r.2 !! j = orders st !! j) ∧
       users r.2 = users st ∧
       products r.2 = products st) ∧
  (truthy_string (TrackingBody.status b) = None →
   r.1 = reply 400 "Order ID and status are required" ∧
   error_class r.1 = Some ValidationError ∧
   r.2 = st) ∧
  (∀ orderId status,
     TrackingBody.orderId b = Some orderId →
     truthy_string (TrackingBody.status b) = Some status →
     orders st !! orderId = None →
     r.1 = reply 404 "Order not found" ∧
     error_class r.1 = Some NotFoundError ∧
     r.2 = st).
Proof.
  intros Hadmin r. subst r. split; [|split].
  - intros orderId status o Hid Hs Ho.
    rewrite (updateDeliveryTracking_found _ _ _ _ _ _ _ Hadmin Hid Hs Ho).
    eexists. split; [reflexivity|]. simpl.
    split; [apply lookup_insert_eq|].
    split; [done|].
    split; [by intros l ->|].
    split; [by intros ->|].
    split; [by intros d ->|].
    split; [by intros ->|].
    split; [done|].
    split; [intros ->; done|].
    split; [intros Hne; by rewrite decide_False|].
    repeat split; try done.
    intros j Hj. by rewrite lookup_insert_ne.
  - intros Hs. unfold updateDeliveryTracking, auth, admin.
    rewrite decide_True by done. rewrite Hs.
    by destruct (TrackingBody.orderId b).
  - intros orderId status Hid Hs Ho.
    unfold updateDeliveryTracking, auth, admin.
    rewrite decide_True by done. rewrite Hid, Hs.
    rewrite (findByIdAndUpdate_absent _ _ _ Ho).
    by rewrite with_orders_same.
Qed.

Lemma updateDeliveryTracking_overwrites_orderStatus_witness :
  let b := {| TrackingBody.orderId := Some 20%N;
              TrackingBody.status := Some "in_transit";
              TrackingBody.location := Some "Depot";
              TrackingBody.estimatedDelivery := None |} in
  ∃ o', orders (updateDeliveryTracking 30%Z admin_token b shop_with_order).2
          !! 20%N = Some o' ∧
        Order.orderStatus alice_order = "cancelled" ∧
        Order.orderStatus o' = "shipped" ∧
        Order.location (Order.deliveryTracking o') = "Depot".
Proof.
  intros b.
  destruct (updateDeliveryTracking_overwrites_orderStatus 30%Z
              {| id := 2%N; role := "admin" |} b shop_with_order eq_refl)
    as [Hfound _].
  destruct (Hfound 20%N "in_transit" alice_order eq_refl eq_refl eq_refl)
    as (o' & _ & Ho' & _ & Hloc & _ & _ & _ & _ & _ & Hshipped & _).
  exists o'. split; [exact Ho'|]. split; [reflexivity|].
  split; [by apply Hshipped|by apply Hloc].
Defined.

(** ** Cancellation *)

Lemma stock_moved_by_inc delta p : stock_moved_by delta p (inc_stock delta p).
Proof. split; [reflexivity|]. by destruct p. Qed.

Lemma stock_moved_by_zero p : stock_moved_by 0 p p.
Proof. split; [ring|]. by destruct p. Qed.

Lemma stock_moved_by_trans d1 d2 d p1 p2 p3 :
  (d == d1 + d2)%Q →
  stock_moved_by d1 p1 p2 → stock_moved_by d2 p2 p3 →
  stock_moved_by d p1 p3.
Proof.
  intros Hd [Hs1 He1] [Hs2 He2]. split.
  - rewrite Hs2, Hs1, Hd. ring.
  - rewrite <- He1. rewrite <- He2. by destruct p3.
Qed.

Lemma restore_stock_cons item items ps :
  restore_stock (item :: items) ps
  = restore_stock items
      (alter (inc_stock (Order.quantity item)) (Order.productId item) ps).
Proof. done. Qed.


Lemma restore_stock_present items ps pid p :
  ps !! pid = Some p →
  ∃ p', restore_stock items ps !! pid = Some p' ∧
        stock_moved_by (ordered_quantity pid items) p p'.
Proof.
  revert ps p. induction items as [|item items IH]; intros ps p Hp.
  - exists p. split; [done|]. apply stock_moved_by_zero.
  - rewrite restore_stock_cons. simpl.
    destruct (decide (Order.productId item = pid)) as [Heq|Hne].
    + destruct (IH (alter (inc_stock (Order.quantity item))
                      (Order.productId item) ps)
                   (inc_stock (Order.quantity item) p)) as (p' & Hp' & Hm).
      { by rewrite Heq, lookup_alter_eq, Hp. }
      exists p'. split; [done|].
      eapply stock_moved_by_trans; [|apply stock_moved_by_inc|exact Hm].
      reflexivity.
    + destruct (IH (alter (inc_stock (Order.quantity item))
                      (Order.productId item) ps) p) as (p' & Hp' & Hm).
      { by rewrite lookup_alter_ne. }
      by exists p'.
Qed.


Lemma cancelOrder_allowed u orderId st o :
  orders st !! orderId = Some o →
  Order.userId o = id u ∨ role u = "admin" →
  Order.orderStatus o ≠ "delivered" →
  cancelOrder (Some u) orderId st
  = (reply_with 200 "Order cancelled/deleted successfully"
       (DeletedOrderPayload orderId o),
     with_orders (delete orderId (orders st))
       (with_products (restore_stock (Order.items o) (products st)) st)).
Proof.
  intros Ho Hwho Hst. unfold cancelOrder, auth, findById, findByIdAndDelete.
  rewrite Ho. rewrite decide_False by tauto.
  by rewrite decide_False.
Qed.



(** ** Placement *)


Lemma Qlt_bool_false a b : Qlt_bool a b = false ↔ (b <= a)%Q.
Proof.
  unfold Qlt_bool. rewrite negb_false_iff. apply Qle_bool_iff.
Qed.


Lemma snapshot_of_alter_stock delta pid ps item line :
  snapshot_of (alter (inc_stock delta) pid ps) item line →
  snapshot_of ps item line.
Proof.
  intros (p & Hp & Hrest). unfold snapshot_of.
  destruct (decide (pid = PlaceBody.productId item)) as [Heq|Hne].
  - rewrite <- Heq, lookup_alter_eq in Hp. rewrite <- Heq.
    destruct (ps !! pid) as [p0|] eqn:Hp0; [|done].
    simpl in Hp. injection Hp as <-. exists p0. by rewrite Heq.
  - rewrite lookup_alter_ne in Hp by done. by exists p.
Qed.

(** What a completed run of the loop has done. *)
Lemma place_items_completed items total processed ps tot out ps' :
  place_items items total processed ps = (inr (tot, out), ps') →
  ∃ lines,
    out = processed ++ lines ∧
    tot = foldl add_line total lines ∧
    Forall2 (snapshot_of ps) items lines ∧
    (∀ pid p, ps !! pid = Some p →
       ∃ p', ps' !! pid = Some p' ∧
             stock_moved_by (- requested_quantity pid items) p p') ∧
    (∀ pid, ps !! pid = None → ps' !! pid = None).
Proof.
  revert total processed ps.
  induction items as [|item items IH]; intros total processed ps Hrun.
  - simpl in Hrun. injection Hrun as <- <- <-. exists [].
    split; [by rewrite app_nil_r|]. split; [done|].
    split; [constructor|]. split; [|done].
    intros pid p Hp. exists p. split; [done|]. simpl.
    split; [ring|by destruct p].
  - simpl in Hrun. unfold findById in Hrun.
    destruct (ps !! PlaceBody.productId item) as [product|] eqn:Hprod;
      [|done].
    destruct (Qlt_bool (Product.stock product) (PlaceBody.quantity item));
      [done|].
    apply IH in Hrun as (lines & -> & Htot & Hsnap & Hstock & Hnone).
    exists (processed_item (PlaceBody.productId item) product
              (PlaceBody.quantity item) :: lines).
    split; [by rewrite <- app_assoc|].
    split; [exact Htot|].
    split.
    { constructor.
      - by exists product.
      - eapply Forall2_impl; [exact Hsnap|].
        intros i l. apply snapshot_of_alter_stock. }
    split.
    + intros pid p Hp. simpl.
      destruct (decide (PlaceBody.productId item = pid)) as [Heq|Hne].
      * destruct (Hstock pid (inc_stock (- PlaceBody.quantity item) p))
          as (p' & Hp' & Hm).
        { by rewrite Heq, lookup_alter_eq, Hp. }
        exists p'. split; [done|].
        eapply stock_moved_by_trans; [|apply stock_moved_by_inc|exact Hm].
        ring.
      * destruct (Hstock pid p) as (p' & Hp' & Hm).
        { by rewrite lookup_alter_ne. }
        by exists p'.
    + intros pid Hp. apply Hnone. by rewrite lookup_alter_None.
Qed.






Lemma truthy_string_Some s v : truthy_string s = Some v → s = Some v ∧ v ≠ "".
Proof.
  unfold truthy_string. destruct s as [w|]; [|done].
  case_decide; [done|]. by intros [= <-].
Qed.




Lemma new_id_fresh {A} (m : gmap N A) : m !! new_id m = None.
Proof. apply not_elem_of_dom. unfold new_id. apply is_fresh. Qed.













(** ** Rating arithmetic *)

Lemma hundredths n : (n # 100 == inject_Z n * (1 # 100))%Q.
Proof. unfold Qeq, inject_Z. simpl. lia. Qed.

(** [toFixed(2)] lands within half a hundredth of its argument. *)
Lemma toFixed2_rounds x :
  (x - (1 # 200) <= toFixed2 x # 100)%Q ∧ (toFixed2 x # 100 <= x + (1 # 200))%Q.
Proof.
  unfold toFixed2.
  destruct (Qlt_bool x 0).
  - pose proof (Qfloor_le (- x * 100 + (1 # 2))) as Hlo.
    pose proof (Qlt_floor (- x * 100 + (1 # 2))) as Hhi.
    set (m := Qfloor (- x * 100 + (1 # 2))) in *.
    rewrite hundredths. rewrite inject_Z_opp.
    rewrite inject_Z_plus in Hhi. change (inject_Z 1) with 1%Q in Hhi.
    split; lra.
  - pose proof (Qfloor_le (x * 100 + (1 # 2))) as Hlo.
    pose proof (Qlt_floor (x * 100 + (1 # 2))) as Hhi.
    set (m := Qfloor (x * 100 + (1 # 2))) in *.
    rewrite hundredths.
    rewrite inject_Z_plus in Hhi. change (inject_Z 1) with 1%Q in Hhi.
    split; lra.
Qed.

(** A value between 1 and 5 prints as 100 to 500 hundredths, and rounds
    to a double between 1 and 5. *)
Lemma toFixed2_in_range x :
  rating_in_range x → (100 ≤ toFixed2 x ≤ 500)%Z.
Proof.
  intros [Hlo Hhi]. unfold toFixed2.
  assert (Qlt_bool x 0 = false) as -> by (apply Qlt_bool_false; lra).
  assert (Qfloor 100 ≤ Qfloor (x * 100 + (1 # 2)))%Z as Hn1
    by (apply Qfloor_resp_le; lra).
  assert (Qfloor (x * 100 + (1 # 2)) ≤ Qfloor (500 + (1 # 2)))%Z as Hn2
    by (apply Qfloor_resp_le; lra).
  change (Qfloor 100) with 100%Z in Hn1.
  change (Qfloor (500 + (1 # 2))) with 500%Z in Hn2.
  done.
Qed.

Lemma binary64_in_range x : rating_in_range x → rating_in_range (binary64 x).
Proof.
  intros [Hlo Hhi]. split.
  - apply Qle_trans with (binary64 1); [by vm_compute|by apply binary64_mono].
  - apply Qle_trans with (binary64 5); [by apply binary64_mono|by vm_compute].
Qed.

Lemma two_pow_normal x : (1 <= x)%Q → (2 ^ (-1022) <= x)%Q.
Proof.
  intros Hx. pose proof (two_pow_le (-1022) 0). change (2 ^ 0)%Q with 1%Q in *.
  assert (2 ^ (-1022) <= 1)%Q by (apply H; lia). lra.
Qed.

(** The length of a list as a Number. *)
Lemma inject_Z_succ (n : nat) :
  (inject_Z (Z.of_nat (S n)) == inject_Z (Z.of_nat n) + 1)%Q.
Proof.
  rewrite Nat2Z.inj_succ. unfold Z.succ. rewrite inject_Z_plus. reflexivity.
Qed.

Lemma inject_Z_nat_nonneg (n : nat) : (0 <= inject_Z (Z.of_nat n))%Q.
Proof. change 0%Q with (inject_Z 0). rewrite <- Zle_Qle. lia. Qed.

Lemma count_is_double (k : nat) :
  (Z.of_nat (S k) ≤ max_reviews)%Z →
  let n := inject_Z (Z.of_nat k) in
  (binary64 (n + 1) == n + 1)%Q ∧ (binary64 (5 * n + 5) == 5 * n + 5)%Q.
Proof.
  unfold max_reviews. intros Hk. cbv zeta. split.
  - assert (inject_Z (Z.of_nat k) + 1 == inject_Z (Z.of_nat k + 1))%Q as Hone
      by (by rewrite inject_Z_plus).
    rewrite (binary64_proper _ _ Hone), Hone. apply binary64_Z.
    change (2 ^ 53)%Z with 9007199254740992%Z. lia.
  - assert (5 * inject_Z (Z.of_nat k) + 5
            == inject_Z (5 * Z.of_nat k + 5))%Q as Hfive
      by (by rewrite inject_Z_plus, inject_Z_mult).
    rewrite (binary64_proper _ _ Hfive), Hfive. apply binary64_Z.
    change (2 ^ 53)%Z with 9007199254740992%Z. lia.
Qed.

(** The running sum of the ratings: with [k] ratings added it lies between
    [k] and [5 k] and is off the exact sum by [k] step errors at most. *)
Lemma totalRating_from (rs : list Product.Review) (k : nat) (sum exact : Q) :
  Forall (λ review, rating_in_range (Product.rating review)) rs →
  (Z.of_nat (k + length rs) ≤ max_reviews)%Z →
  (inject_Z (Z.of_nat k) <= sum)%Q → (sum <= 5 * inject_Z (Z.of_nat k))%Q →
  (exact - sum_step_error * inject_Z (Z.of_nat k) <= sum)%Q →
  (sum <= exact + sum_step_error * inject_Z (Z.of_nat k))%Q →
  let total := foldl (λ sum review, js_add sum (Product.rating review)) sum rs in
  let n := inject_Z (Z.of_nat (k + length rs)) in
  let exact' := (exact + sum_of (map Product.rating rs))%Q in
  (n <= total)%Q ∧ (total <= 5 * n)%Q ∧
  (exact' - sum_step_error * n <= total)%Q ∧
  (total <= exact' + sum_step_error * n)%Q.
Proof.
  intros Hall. revert k sum exact.
  induction Hall as [|review rs [Hr1 Hr5] Hall IH];
    intros k sum exact Hlen Hlo Hhi Helo Hehi; cbv zeta.
  - cbn [foldl map length]. unfold sum_of. cbn [foldr].
    rewrite Nat.add_0_r. repeat split; lra.
  - cbn [foldl map length]. unfold sum_of. cbn [foldr].
    fold (sum_of (map Product.rating rs)). cbn [length] in Hlen.
    replace (k + S (length rs)) with (S k + length rs) in * by lia.
    set (r := Product.rating review) in *.
    destruct (count_is_double k) as [Hone Hfive];
      [unfold max_reviews in *; lia|].
    pose proof (inject_Z_nat_nonneg k) as Hk0.
    assert (inject_Z (Z.of_nat k) <= 1048575)%Q as Hkmax.
    { change 1048575%Q with (inject_Z 1048575). rewrite <- Zle_Qle.
      unfold max_reviews in Hlen. lia. }
    pose proof (binary64_mono _ _ (Qplus_le_compat _ _ _ _ Hlo Hr1)) as Hm1.
    pose proof (binary64_mono _ _ (Qplus_le_compat _ _ _ _ Hhi Hr5)) as Hm5.
    destruct (binary64_error (sum + r)) as [He1 He2];
      [apply two_pow_normal; lra|].
    unfold unit_roundoff in He1, He2. unfold sum_step_error in *.
    specialize (IH (S k) (js_add sum r) (exact + r)%Q Hlen).
    rewrite inject_Z_succ in IH. unfold js_add in IH |- *.
    destruct IH as (H1 & H2 & H3 & H4); lra.
Qed.

(** The average that a save stores lies between 1 and 5 and within
    [average_tolerance] of the exact mean of the ratings. *)
Lemma stored_average_spec (rs : list Product.Review) :
  rs ≠ [] →
  Forall (λ review, rating_in_range (Product.rating review)) rs →
  (Z.of_nat (length rs) ≤ max_reviews)%Z →
  rating_in_range (stored_average rs) ∧
  (mean (map Product.rating rs) - average_tolerance <= stored_average rs)%Q ∧
  (stored_average rs <= mean (map Product.rating rs) + average_tolerance)%Q.
Proof.
  intros Hne Hall Hlen.
  destruct (totalRating_from rs 0 0 0 Hall) as (Hlo & Hhi & Helo & Hehi);
    [done|done|done|done|done|].
  cbv zeta in Hlo, Hhi, Helo, Hehi. rewrite Nat.add_0_l in *.
  fold (totalRating rs) in *.
  unfold stored_average, averageRating, js_div, mean.
  rewrite length_map.
  set (n := inject_Z (Z.of_nat (length rs))) in *.
  set (total := totalRating rs) in *.
  set (exact := sum_of (map Product.rating rs)) in *.
  assert (1 <= n)%Q as Hn.
  { destruct rs as [|r rs]; [done|]. unfold n.
    change (length (r :: rs)) with (S (length rs)).
    rewrite inject_Z_succ. pose proof (inject_Z_nat_nonneg (length rs)). lra. }
  assert (n * (total / n) == total)%Q as Ht by (apply Qmult_div_r; lra).
  assert (n * (exact / n) == exact)%Q as He by (apply Qmult_div_r; lra).
  set (a := (total / n)%Q) in *. set (m := (exact / n)%Q) in *.
  unfold sum_step_error in Helo, Hehi.
  assert (1 <= a)%Q as Ha1 by (apply Qle_shift_div_l; lra).
  assert (a <= 5)%Q as Ha5 by (apply Qle_shift_div_r; lra).
  assert (m - (5 # 8589934592) <= a)%Q as Ham1.
  { apply Qle_shift_div_l; [lra|]. lra. }
  assert (a <= m + (5 # 8589934592))%Q as Ham2.
  { apply Qle_shift_div_r; [lra|]. lra. }
  destruct (binary64_error a) as [Hb1 Hb2]; [apply two_pow_normal; lra|].
  pose proof (binary64_in_range a (conj Ha1 Ha5)) as Hb.
  set (b := binary64 a) in *.
  destruct (toFixed2_rounds b) as [Hf1 Hf2].
  pose proof (toFixed2_in_range b Hb) as Hf.
  set (t := toFixed2 b) in *.
  assert (rating_in_range (t # 100)) as [Ht1 Ht5].
  { split; unfold Qle; simpl; lia. }
  unfold parseFloat2.
  destruct (binary64_error (t # 100)) as [Hp1 Hp2];
    [apply two_pow_normal; lra|].
  split; [apply binary64_in_range; by split|].
  unfold unit_roundoff, average_tolerance in *. split; lra.
Qed.

(** ** Who writes the reviews *)

Lemma reviews_kept_refl ps : reviews_kept ps ps.
Proof. by intros pid. Qed.

Lemma reviews_kept_trans ps1 ps2 ps3 :
  reviews_kept ps1 ps2 → reviews_kept ps2 ps3 → reviews_kept ps1 ps3.
Proof. intros H12 H23 pid. by rewrite H23, H12. Qed.

Lemma reviews_kept_alter (f : Product.t → Product.t) pid ps :
  (∀ p, review_state (f p) = review_state p) →
  reviews_kept ps (alter f pid ps).
Proof.
  intros Hf j. destruct (decide (pid = j)) as [<-|Hne].
  - rewrite lookup_alter_eq. destruct (ps !! pid) as [p|]; [|done].
    simpl. by rewrite Hf.
  - by rewrite lookup_alter_ne.
Qed.

Lemma place_items_keeps_reviews items total processed ps :
  reviews_kept ps (place_items items total processed ps).2.
Proof.
  revert total processed ps.
  induction items as [|item items IH]; intros total processed ps;
    [apply reviews_kept_refl|].
  simpl. destruct (findById ps (PlaceBody.productId item));
    [|apply reviews_kept_refl].
  destruct (Qlt_bool _ _); [apply reviews_kept_refl|].
  eapply reviews_kept_trans; [|apply IH].
  by apply reviews_kept_alter.
Qed.

Lemma restore_stock_keeps_reviews items ps :
  reviews_kept ps (restore_stock items ps).
Proof.
  revert ps. induction items as [|item items IH]; intros ps;
    [apply reviews_kept_refl|].
  rewrite restore_stock_cons.
  eapply reviews_kept_trans; [|apply IH].
  by apply reviews_kept_alter.
Qed.

Create HintDb frame.
#[local] Hint Resolve reviews_kept_refl : frame.

Ltac frame_cases :=
  repeat case_match; simpl; auto with frame.

Lemma signup_keeps_reviews hash now b st :
  reviews_kept (products st) (products (signup hash now b st).2).
Proof. unfold signup. frame_cases. Qed.

Lemma login_keeps_reviews compare sign b st :
  reviews_kept (products st) (products (login compare sign b st).2).
Proof. unfold login. frame_cases. Qed.

Lemma updateProfile_keeps_reviews user b st :
  reviews_kept (products st) (products (updateProfile user b st).2).
Proof. unfold updateProfile, auth. frame_cases. Qed.

Lemma assignAdmin_keeps_reviews user b st :
  reviews_kept (products st) (products (assignAdmin user b st).2).
Proof.
  unfold assignAdmin, auth, admin, findByIdAndUpdate.
  frame_cases; simplify_eq; by apply reviews_kept_alter.
Qed.

Lemma updateProduct_keeps_reviews user pid b st :
  reviews_kept (products st) (products (updateProduct user pid b st).2).
Proof.
  unfold updateProduct, auth, admin, findByIdAndUpdate.
  frame_cases; simplify_eq; by apply reviews_kept_alter.
Qed.

Lemma updateDeliveryTracking_keeps_reviews now user b st :
  reviews_kept (products st)
    (products (updateDeliveryTracking now user b st).2).
Proof. unfold updateDeliveryTracking, auth, admin. frame_cases. Qed.

Lemma addToCart_keeps_reviews now user b q st :
  reviews_kept (products st) (products (addToCart now user b q st).2).
Proof. unfold addToCart. frame_cases. Qed.

Lemma removeFromCart_keeps_reviews user pid bu qu st :
  reviews_kept (products st) (products (removeFromCart user pid bu qu st).2).
Proof. unfold removeFromCart. frame_cases. Qed.

Lemma placeOrder_keeps_reviews now user b st :
  reviews_kept (products st) (products (placeOrder now user b st).2).
Proof.
  unfold placeOrder, auth.
  repeat case_match; simpl; auto with frame;
    match goal with
    | H : place_items ?items ?t ?l ?ps = (_, ?ps') |- _ =>
      replace ps' with (place_items items t l ps).2 by (by rewrite H);
      apply place_items_keeps_reviews
    end.
Qed.

Lemma cancelOrder_keeps_reviews user orderId st :
  reviews_kept (products st) (products (cancelOrder user orderId st).2).
Proof.
  unfold cancelOrder, auth, findByIdAndDelete.
  frame_cases; apply restore_stock_keeps_reviews.
Qed.

(** A new product starts without reviews. *)
Lemma addProduct_products now user b st :
  let st' := (addProduct now user b st).2 in
  products st' = products st ∨
  ∃ p, products st' = <[new_id (products st) := p]> (products st) ∧
       review_state p = ([], 0%Q, 0).
Proof.
  unfold addProduct, auth, admin, insert_new.
  repeat case_match; simpl; auto.
  right. by eexists.
Qed.

(** ** Review posts *)

Lemma truthy_number_Some n v : truthy_number n = Some v → n = Some v.
Proof.
  unfold truthy_number. destruct n as [w|]; [|done].
  destruct (Qeq_bool w 0); [done|]. by intros [= <-].
Qed.

Lemma truthy_number_None n :
  truthy_number n = None → match n with Some v => (v == 0)%Q | None => True end.
Proof.
  unfold truthy_number. destruct n as [w|]; [|done].
  destruct (Qeq_bool w 0) eqn:Hw; [|done]. intros _.
  by apply Qeq_bool_iff.
Qed.


(** What the validators of the product schema accept. *)
Lemma validate_product_spec p :
  validate_product p = true ↔
  Product.name p ≠ "" ∧
  Forall (λ review, rating_in_range (Product.rating review))
    (Product.reviews p).
Proof.
  unfold validate_product. rewrite andb_true_iff, bool_decide_eq_true.
  apply and_iff_compat_l.
  rewrite forallb_forall, Forall_forall. unfold rating_in_range.
  split; intros Hall review Hin.
  - apply list_elem_of_In, Hall in Hin.
    apply andb_true_iff in Hin as [H1 H5]. by rewrite <- !Qle_bool_iff.
  - apply list_elem_of_In, Hall in Hin. by rewrite andb_true_iff, !Qle_bool_iff.
Qed.

Lemma validate_product_recompute p :
  validate_product (recompute_rating p) = validate_product p.
Proof. done. Qed.

(** A review post has one of three outcomes.  It answers something else
    than 201 and writes nothing; or it appends one review with a rating in
    [1,5] to the product and the save stores the recomputed rating; or it
    appends the review, the save is refused, and the post answers 500 with
    the review stored and the cached rating as it was. *)
Lemma postReview_outcome now user pid b st :
  let r := postReview now user pid b st in
  (status r.1 ≠ 201 ∧ r.2 = st) ∨
  (∃ u reviewer rating p,
     user = Some u ∧
     users st !! id u = Some reviewer ∧
     ReviewBody.rating b = Some rating ∧
     rating_in_range rating ∧
     products st !! pid = Some p ∧
     let pushed := push_review (review_of now (id u) reviewer rating b) p in
     (validate_product pushed = true ∧
      status r.1 = 201 ∧
      r.2 = with_products
              (<[pid := recompute_rating pushed]> (products st)) st) ∨
     (validate_product pushed = false ∧
      r.1 = reply 500 "Product validation failed" ∧
      r.2 = with_products (<[pid := pushed]> (products st)) st)).
Proof.
  unfold postReview, auth. destruct user as [u|]; [|left; by split].
  destruct (truthy_number (ReviewBody.rating b)) as [rating|] eqn:Hr;
    [|left; by split].
  destruct (Qlt_bool rating 1 || Qlt_bool 5 rating) eqn:Hrange;
    [left; by split|].
  apply orb_false_iff in Hrange as [Hlo Hhi].
  apply Qlt_bool_false in Hlo, Hhi.
  unfold findById.
  destruct (users st !! id u) as [reviewer|] eqn:Hu; [|left; by split].
  destruct (products st !! pid) as [p|] eqn:Hp.
  - rewrite (findByIdAndUpdate_present _ _ _ _ Hp). right.
    exists u, reviewer, rating, p.
    split; [done|]. split; [done|].
    split; [by apply truthy_number_Some|].
    split; [by split|]. split; [done|]. cbv zeta.
    rewrite validate_product_recompute. fold (review_of now (id u) reviewer rating b).
    destruct (validate_product _); [left|right].
    + split; [done|]. split; [done|]. simpl. by rewrite insert_insert_eq.
    + by repeat split.
  - rewrite (findByIdAndUpdate_absent _ _ _ Hp). left.
    split; [done|]. simpl. apply with_products_same.
Qed.

Lemma review_state_recompute r p :
  review_state (recompute_rating (push_review r p))
  = (Product.reviews p ++ [r],
     stored_average (Product.reviews p ++ [r]),
     length (Product.reviews p ++ [r])).
Proof. done. Qed.

Lemma review_state_push r p :
  review_state (push_review r p)
  = (Product.reviews p ++ [r], Product.averageRating p,
     Product.totalReviews p).
Proof. done. Qed.


(** A save stores the rating of all the reviews; a refused save leaves the
    rating of the reviews that the last save saw. *)
Lemma rating_cached_saved r p :
  rating_in_range (Product.rating r) →
  rating_cached (review_state p) →
  rating_cached (review_state (recompute_rating (push_review r p))).
Proof.
  intros Hr (Hall & Hlen & Havg). rewrite review_state_recompute.
  unfold rating_cached. cbn [fst snd].
  split; [|split; [done|]].
  - apply Forall_app. split; [done|]. by constructor.
  - rewrite firstn_all. rewrite length_app, Nat.add_1_r. done.
Qed.

Lemma rating_cached_pushed r p :
  rating_in_range (Product.rating r) →
  rating_cached (review_state p) →
  rating_cached (review_state (push_review r p)).
Proof.
  intros Hr (Hall & Hlen & Havg). rewrite review_state_push.
  unfold rating_cached, review_state in *. cbn [fst snd] in *.
  split; [|split].
  - apply Forall_app. split; [done|]. by constructor.
  - rewrite length_app. lia.
  - rewrite Havg. destruct (Product.totalReviews p) as [|k]; [done|].
    by rewrite take_app_le.
Qed.

(** The cached rating of a product that holds at most [max_reviews]
    reviews is 0 with no review counted, and between 1 and 5 otherwise. *)
Lemma rating_cached_in_range p :
  rating_cached (review_state p) →
  1 ≤ Product.totalReviews p →
  (Z.of_nat (length (Product.reviews p)) ≤ max_reviews)%Z →
  rating_in_range (Product.averageRating p).
Proof.
  unfold rating_cached, review_state. cbn [fst snd].
  intros (Hall & Hlen & Havg) Hn Hmax. rewrite Havg.
  destruct (Product.totalReviews p) as [|k] eqn:Hk; [lia|].
  apply stored_average_spec.
  - destruct (Product.reviews p); [simpl in Hlen; lia|done].
  - by apply Forall_take.
  - rewrite length_take. lia.
Qed.



Lemma cached_kept st st' :
  reviews_kept (products st) (products st') →
  cached_store st → cached_store st'.
Proof.
  intros Hkept Hst pid p' Hp'. specialize (Hkept pid). rewrite Hp' in Hkept.
  destruct (products st !! pid) as [p|] eqn:Hp; [|done].
  simpl in Hkept.
  assert (review_state p' = review_state p) as -> by congruence.
  by apply (Hst pid).
Qed.

(** ** Who writes the names of the products *)





(** ** Runs of the system *)

Section SystemProperties.
Variable bcrypt_hash : string → string.
Variable bcrypt_compare : string → string → bool.
Variable jwt_sign : ObjectId → string → string.

Local Abbreviation serve := (handle bcrypt_hash bcrypt_compare jwt_sign).
Local Abbreviation serve_all := (run bcrypt_hash bcrypt_compare jwt_sign).
Local Abbreviation posted := (posted_ratings bcrypt_hash bcrypt_compare jwt_sign).
Local Abbreviation reached := (reachable bcrypt_hash bcrypt_compare jwt_sign).

(** Every route other than the review post and the product creation keeps
    the reviews, the average rating and the review count of every product. *)
Lemma handle_keeps_reviews now req st :
  (∀ user productId b, req ≠ PostReview user productId b) →
  (∀ user b, req ≠ AddProduct user b) →
  reviews_kept (products st) (products (serve now req st).2).
Proof.
  intros Hpost Hadd. destruct req; simpl.
  - apply signup_keeps_reviews.
  - apply login_keeps_reviews.
  - apply updateProfile_keeps_reviews.
  - by destruct (Hadd user b).
  - apply assignAdmin_keeps_reviews.
  - apply updateProduct_keeps_reviews.
  - apply updateDeliveryTracking_keeps_reviews.
  - apply addToCart_keeps_reviews.
  - apply removeFromCart_keeps_reviews.
  - apply placeOrder_keeps_reviews.
  - apply cancelOrder_keeps_reviews.
  - by destruct (Hpost user productId b).
Qed.



(** The cached rating of every product is the one of its last save. *)
Lemma handle_cached now req st :
  cached_store st → cached_store (serve now req st).2.
Proof.
  intros Hst.
  destruct req as [| | |user b| | | | | | | |user productId b];
    try (eapply cached_kept; [|exact Hst];
         by apply handle_keeps_reviews).
  - simpl.
    destruct (addProduct_products now user b st) as [Heq|(p & Hps & Hp)].
    + intros pid q. rewrite Heq. apply Hst.
    + intros pid q. rewrite Hps.
      destruct (decide (new_id (products st) = pid)) as [<-|Hne].
      * rewrite lookup_insert_eq. intros [= <-]. rewrite Hp.
        split; [constructor|]. by split.
      * rewrite lookup_insert_ne by done. apply Hst.
  - simpl.
    destruct (postReview_outcome now user productId b st)
      as [[_ Heq]|(u & reviewer & rating & p & _ & _ & _ & Hrange & Hp
                   & [(_ & _ & Heq)|(_ & _ & Heq)])];
      rewrite Heq; [done| |]; intros pid q; simpl;
      (destruct (decide (productId = pid)) as [<-|Hne];
       [rewrite lookup_insert_eq; intros [= <-]
       |rewrite lookup_insert_ne by done; apply Hst]).
    + apply rating_cached_saved; [done|]. by apply (Hst productId).
    + apply rating_cached_pushed; [done|]. by apply (Hst productId).
Qed.








Lemma reachable_cached st : reached st → cached_store st.
Proof.
  induction 1 as [|st now req _ IH].
  - intros pid p Hp. simpl in Hp. by rewrite lookup_empty in Hp.
  - by apply handle_cached.
Qed.

Lemma run_reachable trace st : reached st → reached (serve_all trace st).
Proof.
  revert st. induction trace as [|[now req] trace IH]; intros st Hst; [done|].
  apply IH. by constructor.
Qed.
End SystemProperties.




(** The claim C3 as it is stated fails on the code, in two ways.
    - In [unnamed_run] an admin has set the name of the product to the
      empty string, which the update stores without validation.  The next
      review post, with a rating of 4 by a stored user, appends its review,
      but the save of the recomputed rating is refused by the [required]
      validator of the name: the post answers 500, the review is stored,
      and totalReviews and averageRating stay 0.
    - In [tie_run] forty posts are accepted on a product with a name, three
      with a rating of 2 and thirty-seven with a rating of 1.  Their mean is
      1.075, which rounds to 1.08 whether a tie goes up or to the even
      hundredth.  The double nearest to 43 / 40 lies below 1.075, so
      [toFixed(2)] prints 1.07, and the stored averageRating is the double
      nearest to 1.07. *)
Lemma review_posts_as_stated_counterexample :
  (let st := run sample_hash sample_compare sample_sign unnamed_run
               empty_store in
   let r := handle sample_hash sample_compare sample_sign 4%Z
              (review 4 4).2 st in
   is_Some (products st !! 0%N) ∧
   is_Some (users st !! 0%N) ∧
   rating_in_range 4 ∧
   status r.1 = 500 ∧
   ∃ p, products r.2 !! 0%N = Some p ∧
        map Product.rating (Product.reviews p) = [4%Q] ∧
        Product.totalReviews p = 0 ∧
        Product.averageRating p = 0%Q) ∧
  (let st := run sample_hash sample_compare sample_sign tie_run
               empty_store in
   let rs := replicate 3 2%Q ++ replicate 37 1%Q in
   Forall (λ r, keeps_names r.2) tie_run ∧
   posted_ratings sample_hash sample_compare sample_sign 0%N tie_run
     empty_store = rs ∧
   Forall rating_in_range rs ∧
   (mean rs == 1075 # 1000)%Q ∧
   (round2_half_up (mean rs) == 108 # 100)%Q ∧
   (round2_half_even (mean rs) == 108 # 100)%Q ∧
   ∃ p, products st !! 0%N = Some p ∧
        map Product.rating (Product.reviews p) = rs ∧
        Product.totalReviews p = 40 ∧
        Product.averageRating p = parseFloat2 107 ∧
        (Product.averageRating p < 1071 # 1000)%Q).
Proof.
  split.
  - intros st r.
    split; [by eexists|]. split; [by eexists|].
    split; [by split; vm_compute|]. split; [reflexivity|].
    eexists. split; [vm_compute; reflexivity|]. by repeat split.
  - intros st rs.
    split; [repeat constructor|]. split; [by vm_compute|].
    split; [repeat constructor; by vm_compute|].
    do 3 (split; [by vm_compute|]).
    eexists. split; [vm_compute; reflexivity|].
    repeat split; by vm_compute.
Qed.

Lemma request_is_add req :
  (∃ user b, req = AddProduct user b) ∨ (∀ user b, req ≠ AddProduct user b).
Proof. destruct req; try (by right); left; by eexists _, _. Qed.

(** C10.  In every state the system reaches from the empty store, a product
    with totalReviews >= 1 that holds at most 2^20 reviews has
    1 <= averageRating <= 5.  The bound is an invariant because every
    request other than a review post leaves the reviews, averageRating and
    totalReviews of every existing product as they were, and a review post
    either leaves the product as it was, or appends one review with a
    rating in [1,5].  In the latter case either the save is refused and
    averageRating and totalReviews stay as they were, or the save stores
    the count of the reviews and their average, which the validators then
    guarantee to be the average of ratings in [1,5]: with at most 2^20
    reviews it lies in [1,5] and within 0.005 + 2^-30 of their mean. *)
Theorem averageRating_bound_is_invariant
    (hash : string → string) (compare : string → string → bool)
    (sign : ObjectId → string → string) :
  (∀ st pid p,
     reachable hash compare sign st →
     products st !! pid = Some p →
     1 ≤ Product.totalReviews p →
     (Z.of_nat (length (Product.reviews p)) ≤ max_reviews)%Z →
     (1 <= Product.averageRating p)%Q ∧ (Product.averageRating p <= 5)%Q) ∧
  (∀ now req st pid p,
     (∀ user productId b, req ≠ PostReview user productId b) →
     products st !! pid = Some p →
     ∃ p', products (handle hash compare sign now req st).2 !! pid = Some p' ∧
           Product.reviews p' = Product.reviews p ∧
           Product.averageRating p' = Product.averageRating p ∧
           Product.totalReviews p' = Product.totalReviews p) ∧
  (∀ now user productId b st pid p p',
     products st !! pid = Some p →
     products (postReview now user productId b st).2 !! pid = Some p' →
     p' = p ∨
     ∃ review,
       rating_in_range (Product.rating review) ∧
       Product.reviews p' = Product.reviews p ++ [review] ∧
       ((Product.totalReviews p' = Product.totalReviews p ∧
         Product.averageRating p' = Product.averageRating p) ∨
        (Product.totalReviews p' = length (Product.reviews p') ∧
         Forall (λ stored, rating_in_range (Product.rating stored))
           (Product.reviews p') ∧
         ((Z.of_nat (length (Product.reviews p')) ≤ max_reviews)%Z →
          let ratings := map Product.rating (Product.reviews p') in
          rating_in_range (Product.averageRating p') ∧
          (mean ratings - average_tolerance <= Product.averageRating p')%Q ∧
          (Product.averageRating p' <= mean ratings + average_tolerance)%Q)))).
Proof.
  split; [|split].
  - intros st pid p Hreach Hp Hn Hmax.
    apply rating_cached_in_range; [|done|done].
    by apply (reachable_cached hash compare sign st Hreach pid).
  - intros now req st pid p Hpost Hp.
    assert (Hkept : review_state
                      <$> products (handle hash compare sign now req st).2
                          !! pid
                    = Some (review_state p)).
    { destruct (request_is_add req) as [(user & b & ->)|Hadd].
      - simpl.
        destruct (addProduct_products now user b st) as [Heq|(q & Hps & _)].
        + by rewrite Heq, Hp.
        + rewrite Hps, lookup_insert_ne, Hp; [done|].
          intros <-. by rewrite new_id_fresh in Hp.
      - rewrite (handle_keeps_reviews hash compare sign now req st Hpost Hadd
                   pid).
        by rewrite Hp. }
    destruct (products (handle hash compare sign now req st).2 !! pid)
      as [p'|]; [|done].
    exists p'. split; [done|]. simpl in Hkept.
    unfold review_state in Hkept. injection Hkept; intros; by repeat split.
  - intros now user productId b st pid p p' Hp Hp'.
    destruct (postReview_outcome now user productId b st)
      as [[_ Heq]|(u & reviewer & rating & q & _ & _ & _ & Hrange & Hq
                   & [(Hvalid & _ & Heq)|(_ & _ & Heq)])];
      rewrite Heq in Hp'; [left; congruence| |];
      simpl in Hp'; (destruct (decide (productId = pid)) as [->|Hne];
        [|rewrite lookup_insert_ne in Hp' by done; left; congruence]);
      rewrite lookup_insert_eq in Hp'; injection Hp' as <-;
      assert (q = p) as -> by congruence;
      right; exists (review_of now (id u) reviewer rating b);
      (split; [done|]); (split; [reflexivity|]).
    + right. split; [reflexivity|].
      apply validate_product_spec in Hvalid as [_ Hall].
      split; [exact Hall|]. intros Hmax. cbv zeta.
      apply stored_average_spec; [|exact Hall|exact Hmax].
      simpl. by destruct (Product.reviews p).
    + left. by split.
Qed.

Lemma averageRating_bound_is_invariant_witness :
  ∃ p,
    products (run sample_hash sample_compare sample_sign sample_run
                empty_store) !! 0%N = Some p ∧
    Product.totalReviews p = 3 ∧
    (1 <= Product.averageRating p)%Q ∧ (Product.averageRating p <= 5)%Q.
Proof.
  destruct (averageRating_bound_is_invariant sample_hash sample_compare
              sample_sign) as [Hbound _].
  eexists. split; [vm_compute; reflexivity|].
  split; [reflexivity|].
  apply (Hbound (run sample_hash sample_compare sample_sign sample_run
                   empty_store) 0%N).
  - apply run_reachable. constructor.
  - vm_compute. reflexivity.
  - simpl. lia.
  - by vm_compute.
Defined.

(** * Further properties of the routes *)

(** ** Signup *)

(** The user that a signup stores. *)
Lemma signup_created hash now b st :
  status (signup hash now b st).1 = 201 →
  ∃ name email password newUser,
    truthy_string (SignupBody.name b) = Some name ∧
    truthy_string (SignupBody.email b) = Some email ∧
    truthy_string (SignupBody.password b) = Some password ∧
    findOne_email (users st) email = None ∧
    User.name newUser = name ∧
    User.email newUser = email ∧
    User.password newUser = hash password ∧
    (User.role newUser = "admin" ↔ SignupBody.role b = Some "admin") ∧
    (User.role newUser = "admin" ∨ User.role newUser = "user") ∧
    User.cart newUser = [] ∧
    (signup hash now b st).2
    = with_users (<[new_id (users st) := newUser]> (users st)) st.
Proof.
  unfold signup.
  destruct (truthy_string (SignupBody.name b)) as [name|]; [|done].
  destruct (truthy_string (SignupBody.email b)) as [email|]; [|done].
  destruct (truthy_string (SignupBody.password b)) as [password|]; [|done].
  destruct (findOne_email (users st) email) eqn:Hfind; [done|].
  intros _. exists name, email, password. simpl.
  match goal with |- context [insert_new _ ?u] => exists u end.
  do 4 (split; [done|]). simpl.
  do 3 (split; [done|]).
  destruct (truthy_string (SignupBody.role b)) as [r|] eqn:Hr.
  - apply truthy_string_Some in Hr as [Hr _]. rewrite Hr.
    case_decide as Hd.
    + split; [|split; [tauto|done]]. split; [by intros ->|by intros [= ->]].
    + split; [|split; [by right|done]].
      split; [done|]. intros [= ->]. tauto.
  - split; [|split; [by right|done]].
    split; [done|]. intros Hb. by rewrite Hb in Hr.
Qed.

Lemma findOne_email_inserted (us : gmap N User.t) i u :
  us !! i = None →
  findOne_email us (User.email u) = None →
  findOne_email (<[i := u]> us) (User.email u) = Some (i, u).
Proof.
  intros Hi Hnone.
  destruct (findOne_email (<[i := u]> us) (User.email u)) as [[j v]|] eqn:Hf.
  - apply findOne_email_Some in Hf as [Hj Hv].
    destruct (decide (i = j)) as [<-|Hne].
    + rewrite lookup_insert_eq in Hj. by injection Hj as <-.
    + rewrite lookup_insert_ne in Hj by done.
      destruct (proj1 (findOne_email_None us (User.email u)) Hnone j v Hj Hv).
  - destruct (proj1 (findOne_email_None _ _) Hf i u); [|done].
    apply lookup_insert_eq.
Qed.

(** X1.  A signup is refused while a stored account holds its email, and
    only then.  Whenever some stored user has the email of the request, the
    signup answers 400 and stores nothing, with the ConflictError "User
    with this email already exists" when it carries a name and a password;
    a signup that succeeds stores such a user, so the signup served right
    after it with the same email is refused.  The refusal does not outlast
    the account's hold on the email: once the new user has changed email
    with a profile update, a signup with the old email, a name and a
    password is accepted. *)
Theorem signup_refuses_an_email_while_it_is_held
    (hash : string → string) (now now' : Date) (b b' : SignupBody.t)
    (st : Store) :
  (∀ i v email,
     users st !! i = Some v →
     truthy_string (SignupBody.email b') = Some email →
     User.email v = email →
     let r := signup hash now' b' st in
     status r.1 = 400 ∧
     r.2 = st ∧
     (is_Some (truthy_string (SignupBody.name b')) →
      is_Some (truthy_string (SignupBody.password b')) →
      r.1 = reply 400 "User with this email already exists" ∧
      error_class r.1 = Some ConflictError)) ∧
  (status (signup hash now b st).1 = 201 →
   truthy_string (SignupBody.email b') = truthy_string (SignupBody.email b) →
   let st' := (signup hash now b st).2 in
   let uid := new_id (users st) in
   (∃ v, users st' !! uid = Some v ∧
         truthy_string (SignupBody.email b) = Some (User.email v)) ∧
   (let r := signup hash now' b' st' in status r.1 = 400 ∧ r.2 = st') ∧
   (∀ role pb email',
      ProfileBody.email pb = Some email' →
      truthy_string (SignupBody.email b) ≠ Some email' →
      (∀ i v, users st !! i = Some v → User.email v ≠ email') →
      is_Some (truthy_string (SignupBody.name b')) →
      is_Some (truthy_string (SignupBody.password b')) →
      let moved :=
        (updateProfile (Some {| id := uid; role := role |}) pb st').2 in
      status (signup hash now' b' moved).1 = 201)).
Proof.
  assert (Hheld : ∀ st0 i v email,
            users st0 !! i = Some v →
            truthy_string (SignupBody.email b') = Some email →
            User.email v = email →
            let r := signup hash now' b' st0 in
            status r.1 = 400 ∧
            r.2 = st0 ∧
            (is_Some (truthy_string (SignupBody.name b')) →
             is_Some (truthy_string (SignupBody.password b')) →
             r.1 = reply 400 "User with this email already exists" ∧
             error_class r.1 = Some ConflictError)).
  { intros st0 i v email Hv He Hmail r. subst r. unfold signup. rewrite He.
    destruct (findOne_email (users st0) email) as [found|] eqn:Hfind.
    - destruct (truthy_string (SignupBody.name b')) as [n'|];
        [|split; [done|split; [done|by intros [? ?]]]].
      destruct (truthy_string (SignupBody.password b')) as [p'|];
        [|split; [done|split; [done|by intros _ [? ?]]]].
      by repeat split.
    - destruct (proj1 (findOne_email_None _ _) Hfind i v Hv Hmail). }
  split; [apply Hheld|].
  intros Hok Hemail st' uid.
  destruct (signup_created hash now b st Hok)
    as (name & email & password & newUser & _ & He & _ & Hnone & _ & Hmail
        & _ & _ & _ & _ & Hst).
  assert (users st' !! uid = Some newUser) as Hnew.
  { subst st' uid. rewrite Hst. simpl. apply lookup_insert_eq. }
  split; [|split].
  - exists newUser. split; [done|]. by rewrite Hmail.
  - destruct (Hheld st' uid newUser email Hnew) as (H400 & Hsame & _);
      [by rewrite Hemail|done|]. by split.
  - intros role pb email' Hpb Hother Hfree [n' Hn'] [p' Hp'] moved.
    assert (users moved
            = <[uid := update_profile pb newUser]> (users st')) as Hmoved.
    { subst moved. unfold updateProfile, auth. cbn [id].
      assert (email_taken (users st') uid (ProfileBody.email pb) = false)
        as Htaken.
      { rewrite Hpb. unfold email_taken.
        destruct (findOne_email (delete uid (users st')) email')
          as [[j w]|] eqn:Hfind; [|done].
        apply findOne_email_Some in Hfind as [Hj Hw].
        apply lookup_delete_Some in Hj as [Hne Hj].
        subst st' uid. rewrite Hst in Hj. simpl in Hj.
        rewrite lookup_insert_ne in Hj by done.
        destruct (Hfree j w Hj Hw). }
      rewrite Htaken, andb_false_r.
      by rewrite (findByIdAndUpdate_present _ _ _ _ Hnew). }
    unfold signup. rewrite Hn', Hemail, He, Hp'.
    assert (findOne_email (users moved) email = None) as ->; [|done].
    apply findOne_email_None. intros j w Hj Hw. rewrite Hmoved in Hj.
    destruct (decide (uid = j)) as [<-|Hne].
    + rewrite lookup_insert_eq in Hj. injection Hj as <-.
      simpl in Hw. rewrite Hpb in Hw. simpl in Hw.
      apply Hother. rewrite He. by rewrite Hw.
    + rewrite lookup_insert_ne in Hj by done.
      subst st' uid. rewrite Hst in Hj. simpl in Hj.
      rewrite lookup_insert_ne in Hj by done.
      destruct (proj1 (findOne_email_None _ _) Hnone j w Hj Hw).
Qed.

Lemma signup_refuses_an_email_while_it_is_held_witness :
  let st' := (signup sample_hash 40%Z bob_signup shop).2 in
  let pb := {| ProfileBody.name := None;
               ProfileBody.email := Some "robert@shop.test";
               ProfileBody.phone := None; ProfileBody.address := None |} in
  let moved :=
    (updateProfile (Some {| id := new_id (users shop); role := "admin" |})
       pb st').2 in
  status (signup sample_hash 41%Z bob_signup st').1 = 400 ∧
  status (signup sample_hash 42%Z bob_signup moved).1 = 201.
Proof.
  intros st' pb moved.
  destruct (signup_refuses_an_email_while_it_is_held sample_hash 40%Z 41%Z
              bob_signup bob_signup shop) as [_ Hafter].
  destruct (Hafter eq_refl eq_refl) as (_ & [H400 _] & _).
  split; [exact H400|].
  destruct (signup_refuses_an_email_while_it_is_held sample_hash 40%Z 42%Z
              bob_signup bob_signup shop) as [_ Hafter'].
  destruct (Hafter' eq_refl eq_refl) as (_ & _ & Hfreed).
  apply (Hfreed "admin" pb "robert@shop.test");
    [reflexivity|discriminate| |by eexists|by eexists].
  intros i v Hv Hmail.
  unfold shop in Hv. simpl in Hv.
  apply lookup_singleton_Some in Hv as [_ <-]. discriminate Hmail.
Defined.

(** X2.  A signup followed by a login with the same email and password
    succeeds, provided the credential service verifies a password against
    its own hash: the login answers 200 with a token signed for the id of
    the new user and for the stored role, and the role is "admin" exactly
    when the signup asked for "admin". *)
Theorem signup_then_login_succeeds
    (hash : string → string) (compare : string → string → bool)
    (sign : ObjectId → string → string) (now : Date) (b : SignupBody.t)
    (st : Store) (email password : string) :
  status (signup hash now b st).1 = 201 →
  SignupBody.email b = Some email →
  SignupBody.password b = Some password →
  compare password (hash password) = true →
  let st' := (signup hash now b st).2 in
  let uid := new_id (users st) in
  ∃ role,
    login compare sign
      {| LoginBody.email := email; LoginBody.password := password |} st'
    = (reply_with 200 "Login successful"
         (LoginPayload (sign uid role) role), st') ∧
    (User.role <$> users st' !! uid) = Some role ∧
    (role = "admin" ↔ SignupBody.role b = Some "admin") ∧
    (role = "admin" ∨ role = "user").
Proof.
  intros Hok Hemail Hpw Hcmp st' uid.
  destruct (signup_created hash now b st Hok)
    as (name & email' & password' & newUser & _ & He & Hp & Hnone & _ & Hmail
        & Hpass & Hrole & Hroles & _ & Hst).
  apply truthy_string_Some in He as [He _], Hp as [Hp _].
  assert (email' = email) as -> by congruence.
  assert (password' = password) as -> by congruence.
  subst st' uid. rewrite Hst. exists (User.role newUser).
  split; [|split; [|by split]].
  - unfold login. simpl. rewrite <- Hmail in Hnone |- *.
    rewrite (findOne_email_inserted _ _ _ (new_id_fresh _) Hnone).
    by rewrite Hpass, Hcmp.
  - simpl. by rewrite lookup_insert_eq.
Qed.

Lemma signup_then_login_succeeds_witness :
  let st' := (signup sample_hash 40%Z bob_signup shop).2 in
  ∃ token,
    (login sample_compare sample_sign
       {| LoginBody.email := "bob@shop.test";
          LoginBody.password := "hunter2" |} st').1
    = reply_with 200 "Login successful" (LoginPayload token "admin").
Proof.
  intros st'.
  destruct (signup_then_login_succeeds sample_hash sample_compare sample_sign
              40%Z bob_signup shop "bob@shop.test" "hunter2"
              eq_refl eq_refl eq_refl eq_refl)
    as (role & Hlogin & _ & Hrole & _).
  assert (role = "admin") as -> by (by apply Hrole).
  eexists. fold st' in Hlogin. by rewrite Hlogin.
Defined.

(** ** Who writes the accounts *)

Lemma accounts_kept_refl us : accounts_kept us us.
Proof. by intros i. Qed.

Lemma accounts_kept_alter (f : User.t → User.t) i us :
  (∀ u, account (f u) = account u) →
  accounts_kept us (alter f i us).
Proof.
  intros Hf j. destruct (decide (i = j)) as [<-|Hne].
  - rewrite lookup_alter_eq. destruct (us !! i) as [u|]; [|done].
    simpl. by rewrite Hf.
  - by rewrite lookup_alter_ne.
Qed.

#[local] Hint Resolve accounts_kept_refl : frame.

Lemma login_keeps_accounts compare sign b st :
  accounts_kept (users st) (users (login compare sign b st).2).
Proof. unfold login. frame_cases. Qed.

Lemma addProduct_keeps_accounts now user b st :
  accounts_kept (users st) (users (addProduct now user b st).2).
Proof. unfold addProduct, auth, admin. frame_cases. Qed.

Lemma assignAdmin_keeps_accounts user b st :
  accounts_kept (users st) (users (assignAdmin user b st).2).
Proof. unfold assignAdmin, auth, admin. frame_cases. Qed.

Lemma updateProduct_keeps_accounts user pid b st :
  accounts_kept (users st) (users (updateProduct user pid b st).2).
Proof. unfold updateProduct, auth, admin. frame_cases. Qed.

Lemma updateDeliveryTracking_keeps_accounts now user b st :
  accounts_kept (users st) (users (updateDeliveryTracking now user b st).2).
Proof. unfold updateDeliveryTracking, auth, admin. frame_cases. Qed.

Lemma addToCart_keeps_accounts now user b q st :
  accounts_kept (users st) (users (addToCart now user b q st).2).
Proof.
  unfold addToCart, findByIdAndUpdate.
  frame_cases; by apply accounts_kept_alter.
Qed.

Lemma removeFromCart_keeps_accounts user pid bu qu st :
  accounts_kept (users st) (users (removeFromCart user pid bu qu st).2).
Proof.
  unfold removeFromCart, findByIdAndUpdate.
  frame_cases; by apply accounts_kept_alter.
Qed.

Lemma placeOrder_keeps_accounts now user b st :
  accounts_kept (users st) (users (placeOrder now user b st).2).
Proof.
  unfold placeOrder, auth, findByIdAndUpdate.
  frame_cases; by apply accounts_kept_alter.
Qed.

Lemma cancelOrder_keeps_accounts user orderId st :
  accounts_kept (users st) (users (cancelOrder user orderId st).2).
Proof. unfold cancelOrder, auth, findByIdAndDelete. frame_cases. Qed.

Lemma postReview_keeps_accounts now user pid b st :
  accounts_kept (users st) (users (postReview now user pid b st).2).
Proof. unfold postReview, auth, findByIdAndUpdate. frame_cases. Qed.

Lemma users_ok_kept st st' :
  accounts_kept (users st) (users st') → users_ok st → users_ok st'.
Proof.
  intros Hkept [Hroles Huniq].
  assert (Hback : ∀ i u', users st' !! i = Some u' →
            ∃ u, users st !! i = Some u ∧ account u = account u').
  { intros i u' Hu'. specialize (Hkept i). rewrite Hu' in Hkept.
    destruct (users st !! i) as [u|]; [|done]. exists u.
    split; [done|]. simpl in Hkept. congruence. }
  split.
  - intros i u' Hu'. destruct (Hback i u' Hu') as (u & Hu & Hacc).
    assert (User.role u' = User.role u) as ->
      by (unfold account in Hacc; congruence).
    by apply (Hroles i).
  - intros i j u' v' Hu' Hv' Heq.
    destruct (Hback i u' Hu') as (u & Hu & Hacc).
    destruct (Hback j v' Hv') as (v & Hv & Hacc').
    apply (Huniq i j u v Hu Hv). unfold account in *. congruence.
Qed.

Lemma signup_users_ok hash now b st :
  users_ok st → users_ok (signup hash now b st).2.
Proof.
  intros Hok.
  destruct (decide (status (signup hash now b st).1 = 201)) as [H201|Hne].
  - destruct (signup_created hash now b st H201)
      as (name & email & password & newUser & _ & _ & _ & Hnone & _ & Hmail
          & _ & _ & Hrole & _ & Hst).
    rewrite Hst. destruct Hok as [Hroles Huniq].
    pose proof (proj1 (findOne_email_None _ _) Hnone) as Hfree.
    split; simpl.
    + intros i u. destruct (decide (new_id (users st) = i)) as [<-|Hi].
      * rewrite lookup_insert_eq. intros [= <-]. tauto.
      * rewrite lookup_insert_ne by done. apply Hroles.
    + intros i j u v.
      destruct (decide (new_id (users st) = i)) as [<-|Hi];
        destruct (decide (new_id (users st) = j)) as [<-|Hj]; [done|..].
      * rewrite lookup_insert_eq, lookup_insert_ne by done.
        intros [= <-] Hv Heq. destruct (Hfree j v Hv). congruence.
      * rewrite lookup_insert_eq, lookup_insert_ne by done.
        intros Hu [= <-] Heq. destruct (Hfree i u Hu). congruence.
      * rewrite !lookup_insert_ne by done. apply Huniq.
  - assert ((signup hash now b st).2 = st) as ->; [|done].
    revert Hne. unfold signup. by repeat case_match.
Qed.

Lemma email_taken_false us self e :
  email_taken us self (Some e) = false →
  ∀ j v, j ≠ self → us !! j = Some v → User.email v ≠ e.
Proof.
  unfold email_taken.
  destruct (findOne_email (delete self us) e) eqn:Hf; [done|].
  intros _ j v Hj Hv.
  apply (proj1 (findOne_email_None _ _) Hf j).
  by rewrite lookup_delete_ne.
Qed.

Lemma updateProfile_users_ok user b st :
  users_ok st → users_ok (updateProfile user b st).2.
Proof.
  intros Hok. unfold updateProfile, auth.
  destruct user as [u|]; [|done].
  destruct (users st !! id u) as [self|] eqn:Hself.
  - rewrite bool_decide_eq_true_2 by eauto. simpl.
    destruct (email_taken (users st) (id u) (ProfileBody.email b)) eqn:Htaken;
      [done|].
    rewrite Hself. simpl. rewrite (alter_present _ _ _ _ Hself).
    destruct Hok as [Hroles Huniq]. split; simpl.
    + intros i v. destruct (decide (id u = i)) as [<-|Hi].
      * rewrite lookup_insert_eq. intros [= <-]. simpl. by apply (Hroles (id u)).
      * rewrite lookup_insert_ne by done. apply Hroles.
    + assert (Hother : ∀ j v, j ≠ id u → users st !! j = Some v →
                User.email v ≠ User.email (update_profile b self)).
      { intros j v Hj Hv. simpl.
        destruct (ProfileBody.email b) as [e|] eqn:He; simpl.
        - by apply (email_taken_false _ _ _ Htaken j).
        - intros Heq. apply Hj. by apply (Huniq j (id u) v self). }
      intros i j v w.
      destruct (decide (id u = i)) as [<-|Hi];
        destruct (decide (id u = j)) as [<-|Hj]; [done|..].
      * rewrite lookup_insert_eq, lookup_insert_ne by done.
        intros [= <-] Hw Heq. by destruct (Hother j w).
      * rewrite lookup_insert_eq, lookup_insert_ne by done.
        intros Hv [= <-] Heq. by destruct (Hother i v).
      * rewrite !lookup_insert_ne by done. apply Huniq.
  - rewrite bool_decide_eq_false_2 by (by intros [? ?]). simpl.
    rewrite Hself. simpl. rewrite (alter_absent _ _ _ Hself).
    by rewrite with_users_same.
Qed.

Lemma handle_users_ok hash compare sign now req st :
  users_ok st → users_ok (handle hash compare sign now req st).2.
Proof.
  intros Hok. destruct req; simpl;
    [by apply signup_users_ok| |by apply updateProfile_users_ok|..];
    (eapply users_ok_kept; [|exact Hok]).
  - apply login_keeps_accounts.
  - apply addProduct_keeps_accounts.
  - apply assignAdmin_keeps_accounts.
  - apply updateProduct_keeps_accounts.
  - apply updateDeliveryTracking_keeps_accounts.
  - apply addToCart_keeps_accounts.
  - apply removeFromCart_keeps_accounts.
  - apply placeOrder_keeps_accounts.
  - apply cancelOrder_keeps_accounts.
  - apply postReview_keeps_accounts.
Qed.

Lemma reachable_users_ok hash compare sign st :
  reachable hash compare sign st → users_ok st.
Proof.
  induction 1 as [|st now req _ IH].
  - split; intros i; intros; simpl in *; by rewrite lookup_empty in *.
  - by apply handle_users_ok.
Qed.

Lemma credentials_kept_refl us : credentials_kept us us.
Proof. intros i u Hu. by exists u. Qed.

Lemma credentials_kept_alter (f : User.t → User.t) i us :
  (∀ u, User.role (f u) = User.role u ∧
        User.password (f u) = User.password u) →
  credentials_kept us (alter f i us).
Proof.
  intros Hf j u Hu. destruct (decide (i = j)) as [<-|Hne].
  - exists (f u). rewrite lookup_alter_eq, Hu. split; [done|]. apply Hf.
  - exists u. by rewrite lookup_alter_ne.
Qed.

#[local] Hint Resolve credentials_kept_refl : frame.

Lemma handle_keeps_credentials hash compare sign now req st :
  credentials_kept (users st) (users (handle hash compare sign now req st).2).
Proof.
  destruct req; simpl.
  - destruct (decide (status (signup hash now b st).1 = 201)) as [H201|Hne].
    + destruct (signup_created hash now b st H201)
        as (? & ? & ? & newUser & _ & _ & _ & _ & _ & _ & _ & _ & _ & _ & ->).
      intros i u Hu. exists u. simpl. rewrite lookup_insert_ne; [done|].
      intros <-. by rewrite new_id_fresh in Hu.
    + assert ((signup hash now b st).2 = st) as ->;
        [|apply credentials_kept_refl].
      revert Hne. unfold signup. by repeat case_match.
  - unfold login. frame_cases.
  - unfold updateProfile, auth, findByIdAndUpdate.
    frame_cases; by apply credentials_kept_alter.
  - unfold addProduct, auth, admin. frame_cases.
  - unfold assignAdmin, auth, admin. frame_cases.
  - unfold updateProduct, auth, admin. frame_cases.
  - unfold updateDeliveryTracking, auth, admin. frame_cases.
  - unfold addToCart, findByIdAndUpdate.
    frame_cases; by apply credentials_kept_alter.
  - unfold removeFromCart, findByIdAndUpdate.
    frame_cases; by apply credentials_kept_alter.
  - unfold placeOrder, auth, findByIdAndUpdate.
    frame_cases; by apply credentials_kept_alter.
  - unfold cancelOrder, auth, findByIdAndDelete. frame_cases.
  - unfold postReview, auth, findByIdAndUpdate. frame_cases.
Qed.

(** X3.  In every state the system reaches from the empty store, every
    stored user has the role "user" or "admin" and no two stored users share
    an email.  No request deletes a stored user or changes the role or the
    password of one. *)
Theorem accounts_stay_unique_and_keep_their_role
    (hash : string → string) (compare : string → string → bool)
    (sign : ObjectId → string → string) :
  (∀ st, reachable hash compare sign st →
     (∀ i u, users st !! i = Some u →
             User.role u = "user" ∨ User.role u = "admin") ∧
     (∀ i j u v, users st !! i = Some u → users st !! j = Some v →
                 User.email u = User.email v → i = j)) ∧
  (∀ now req st i u,
     users st !! i = Some u →
     ∃ u', users (handle hash compare sign now req st).2 !! i = Some u' ∧
           User.role u' = User.role u ∧
           User.password u' = User.password u).
Proof.
  split.
  - intros st Hst. by apply (reachable_users_ok hash compare sign).
  - intros now req st. apply handle_keeps_credentials.
Qed.

Lemma accounts_stay_unique_and_keep_their_role_witness :
  let st := run sample_hash sample_compare sample_sign sample_run
              empty_store in
  ∃ u, users st !! 0%N = Some u ∧
       (User.role u = "user" ∨ User.role u = "admin").
Proof.
  intros st.
  destruct (accounts_stay_unique_and_keep_their_role sample_hash
              sample_compare sample_sign) as [Hinv _].
  destruct (Hinv st) as [Hroles _].
  { apply run_reachable. constructor. }
  eexists. split; [vm_compute; reflexivity|].
  eapply (Hroles 0%N). vm_compute. reflexivity.
Defined.

(** ** User statistics *)

Lemma filter_partition_length {A} (P Q : A → Prop)
    `{!∀ x, Decision (P x)} `{!∀ x, Decision (Q x)} (l : list A) :
  Forall (λ x, (P x ∨ Q x) ∧ ¬ (P x ∧ Q x)) l →
  length (filter P l) + length (filter Q l) = length l.
Proof.
  induction 1 as [|x l [Hor Hnot] _ IH]; [done|].
  rewrite !filter_cons.
  destruct (decide (P x)), (decide (Q x)); simpl; try lia; tauto.
Qed.

(** X4.  In every reachable state the statistics an admin reads are
    coherent: the admins and the regular users together are all the users,
    and the users with an active cart are at most all the users. *)
Theorem userStats_counts_partition_the_users
    (hash : string → string) (compare : string → string → bool)
    (sign : ObjectId → string → string) (st : Store) (u : Identity) :
  reachable hash compare sign st →
  role u = "admin" →
  ∃ stats,
    userStats (Some u) st
    = (reply 200 "User statistics retrieved", Some stats) ∧
    totalUsers stats = size (users st) ∧
    adminCount stats + regularUsers stats = totalUsers stats ∧
    usersWithActiveCart stats ≤ totalUsers stats.
Proof.
  intros Hreach Hadmin. exists (user_stats (users st)).
  unfold userStats. rewrite decide_True by done.
  split; [done|].
  destruct (reachable_users_ok _ _ _ _ Hreach) as [Hroles _].
  unfold user_stats, countDocuments. simpl.
  assert (Hall : filter (λ kv : N * User.t, True) (map_to_list (users st))
                 = map_to_list (users st)).
  { induction (map_to_list (users st)) as [|x l IH]; [done|].
    rewrite filter_cons_True by done. by rewrite IH. }
  rewrite Hall. split; [apply length_map_to_list|]. split.
  - apply filter_partition_length. apply Forall_forall.
    intros [i v] Hin%elem_of_map_to_list. simpl.
    destruct (Hroles i v Hin) as [Hr|Hr]; rewrite Hr; split;
      try (by left); try (by right); by intros [? ?].
  - apply length_filter.
Qed.

Lemma userStats_counts_partition_the_users_witness :
  let st := run sample_hash sample_compare sample_sign sample_run
              empty_store in
  ∃ stats,
    (userStats admin_token st).2 = Some stats ∧
    adminCount stats + regularUsers stats = totalUsers stats.
Proof.
  intros st.
  destruct (userStats_counts_partition_the_users sample_hash sample_compare
              sample_sign st {| id := 2%N; role := "admin" |})
    as (stats & Hstats & _ & Hsum & _).
  { apply run_reachable. constructor. }
  { reflexivity. }
  exists stats. split; [|exact Hsum].
  unfold admin_token. by rewrite Hstats.
Defined.

(** ** Product creation and assignment *)

(** X5.  A product created by an admin with a name and a non-zero price is
    stored under an id that no product used; it starts with the supplied
    description and category, the supplied stock or 0, no assigned admin, no
    review, averageRating 0 and totalReviews 0; every product stored before
    is unchanged, as are the users and the orders.  A creation without a
    name, with an empty name, without a price or with the price 0 fails
    with ValidationError and stores nothing. *)
Theorem addProduct_stores_a_fresh_product
    (now : Date) (u : Identity) (b : AddBody.t) (st : Store) :
  role u = "admin" →
  let r := addProduct now (Some u) b st in
  (∀ name price,
     truthy_string (AddBody.name b) = Some name →
     truthy_number (AddBody.price b) = Some price →
     ∃ pid p,
       r.1 = reply_with 201 "Product added successfully"
               (ProductPayload pid p) ∧
       products st !! pid = None ∧
       products r.2 !! pid = Some p ∧
       Product.name p = name ∧
       Product.price p = price ∧
       Product.description p = AddBody.description b ∧
       Product.category p = AddBody.category b ∧
       Product.stock p = default 0%Q (AddBody.stock b) ∧
       Product.assignedAdmin p = None ∧
       Product.reviews p = [] ∧
       Product.averageRating p = 0%Q ∧
       Product.totalReviews p = 0 ∧
       Product.createdAt p = now ∧
       (∀ j q, products st !! j = Some q → products r.2 !! j = Some q) ∧
       users r.2 = users st ∧
       orders r.2 = orders st) ∧
  (truthy_string (AddBody.name b) = None ∨
   truthy_number (AddBody.price b) = None →
   r.1 = reply 400 "Name and price are required" ∧
   error_class r.1 = Some ValidationError ∧
   r.2 = st).
Proof.
  intros Hadmin r. subst r. unfold addProduct, auth, admin.
  rewrite decide_True by done. split.
  - intros name price -> ->. eexists _, _. split; [reflexivity|]. simpl.
    split; [apply new_id_fresh|].
    split; [apply lookup_insert_eq|].
    do 10 (split; [done|]).
    split; [|done].
    intros j q Hq. unfold insert_new. rewrite lookup_insert_ne; [done|].
    intros <-. by rewrite new_id_fresh in Hq.
  - intros [->| ->]; [done|].
    by destruct (truthy_string (AddBody.name b)).
Qed.

Lemma addProduct_stores_a_fresh_product_witness :
  let b := {| AddBody.name := Some "Gizmo"; AddBody.price := Some 7%Q;
              AddBody.description := None; AddBody.category := None;
              AddBody.stock := None |} in
  let r := addProduct 50%Z admin_token b shop in
  ∃ pid p, products r.2 !! pid = Some p ∧
           products shop !! pid = None ∧
           Product.stock p = 0%Q ∧
           products r.2 !! 10%N = Some widget.
Proof.
  intros b r.
  destruct (addProduct_stores_a_fresh_product 50%Z
              {| id := 2%N; role := "admin" |} b shop eq_refl) as [Hok _].
  destruct (Hok "Gizmo" 7%Q eq_refl eq_refl)
    as (pid & p & _ & Hfresh & Hp & _ & _ & _ & _ & Hstock & _ & _ & _ & _
        & _ & Hkept & _).
  exists pid, p. split; [exact Hp|]. split; [exact Hfresh|].
  split; [exact Hstock|]. by apply Hkept.
Defined.

(** X6.  An assignment by an admin to an existing product sets
    assignedAdmin to the given id and changes nothing else of the product or
    of the store; the given id is not looked up, so the assignment succeeds
    whether or not it names a stored user or an admin.  A missing product
    id or admin id fails with ValidationError, an id that matches no product
    with NotFoundError, both without a write. *)
Theorem assignAdmin_sets_only_assignedAdmin
    (u : Identity) (b : AssignBody.t) (st : Store) :
  role u = "admin" →
  let r := assignAdmin (Some u) b st in
  (∀ pid adminId p,
     AssignBody.productId b = Some pid →
     AssignBody.adminId b = Some adminId →
     products st !! pid = Some p →
     r.1 = reply_with 200 "Product assigned successfully"
             (ProductPayload pid
                (Product.with_assignedAdmin (Some adminId) p)) ∧
     products r.2
     = <[pid := Product.with_assignedAdmin (Some adminId) p]> (products st) ∧
     Product.with_assignedAdmin (Product.assignedAdmin p)
       (Product.with_assignedAdmin (Some adminId) p) = p ∧
     users r.2 = users st ∧
     orders r.2 = orders st) ∧
  (AssignBody.productId b = None ∨ AssignBody.adminId b = None →
   r.1 = reply 400 "Product ID and Admin ID are required" ∧
   error_class r.1 = Some ValidationError ∧
   r.2 = st) ∧
  (∀ pid adminId,
     AssignBody.productId b = Some pid →
     AssignBody.adminId b = Some adminId →
     products st !! pid = None →
     r.1 = reply 404 "Product not found" ∧
     error_class r.1 = Some NotFoundError ∧
     r.2 = st).
Proof.
  intros Hadmin r. subst r. unfold assignAdmin, auth, admin.
  rewrite decide_True by done. split; [|split].
  - intros pid adminId p -> -> Hp.
    rewrite (findByIdAndUpdate_present _ _ _ _ Hp). simpl.
    repeat split; by destruct p.
  - intros [->| ->]; [done|]. by destruct (AssignBody.productId b).
  - intros pid adminId -> -> Hp.
    rewrite (findByIdAndUpdate_absent _ _ _ Hp). simpl.
    by rewrite with_products_same.
Qed.

Lemma assignAdmin_sets_only_assignedAdmin_witness :
  let b := {| AssignBody.productId := Some 10%N;
              AssignBody.adminId := Some 77%N |} in
  let r := assignAdmin admin_token b shop in
  users shop !! 77%N = None ∧
  status r.1 = 200 ∧
  (Product.assignedAdmin <$> products r.2 !! 10%N) = Some (Some 77%N).
Proof.
  intros b r. split; [reflexivity|].
  destruct (assignAdmin_sets_only_assignedAdmin
              {| id := 2%N; role := "admin" |} b shop eq_refl) as [Hok _].
  destruct (Hok 10%N 77%N widget eq_refl eq_refl eq_refl)
    as (Hr & Hps & _).
  unfold r, admin_token. rewrite Hr, Hps. split; [done|].
  by rewrite lookup_insert_eq.
Defined.

(** ** Profile update *)

(** X7.  A profile update of a stored user, with no email or with an email
    that no other stored user holds, writes the supplied ones among name,
    email, phone and address and keeps the others; it never changes
    the password, the role, the cart or the creation date, and it changes no
    other user, no product and no order.  For an identity that matches no
    stored user it fails with NotFoundError and writes nothing. *)
Theorem updateProfile_changes_only_supplied_fields
    (u : Identity) (b : ProfileBody.t) (st : Store) :
  let r := updateProfile (Some u) b st in
  (∀ self,
     users st !! id u = Some self →
     email_taken (users st) (id u) (ProfileBody.email b) = false →
     ∃ self',
       r.1 = reply_with 200 "Profile updated successfully"
               (ProfilePayload (id u) self') ∧
       users r.2 !! id u = Some self' ∧
       User.name self' = default (User.name self) (ProfileBody.name b) ∧
       User.email self' = default (User.email self) (ProfileBody.email b) ∧
       User.phone self' = default (User.phone self) (ProfileBody.phone b) ∧
       User.address self'
       = default (User.address self) (ProfileBody.address b) ∧
       User.password self' = User.password self ∧
       User.role self' = User.role self ∧
       User.cart self' = User.cart self ∧
       User.createdAt self' = User.createdAt self ∧
       (∀ j, j ≠ id u → users r.2 !! j = users st !! j) ∧
       products r.2 = products st ∧
       orders r.2 = orders st) ∧
  (users st !! id u = None →
   r.1 = reply 404 "User not found" ∧
   error_class r.1 = Some NotFoundError ∧
   r.2 = st).
Proof.
  intros r. subst r. unfold updateProfile, auth. cbv zeta. split.
  - intros self Hself Htaken. rewrite Htaken, andb_false_r.
    exists (update_profile b self).
    rewrite (findByIdAndUpdate_present _ _ _ _ Hself). simpl.
    split; [reflexivity|].
    split; [apply lookup_insert_eq|].
    unfold set_if_defined.
    split; [by destruct (ProfileBody.name b)|].
    split; [by destruct (ProfileBody.email b)|].
    split; [by destruct (ProfileBody.phone b)|].
    split; [by destruct (ProfileBody.address b)|].
    do 4 (split; [done|]).
    split; [|done]. intros j Hj. by rewrite lookup_insert_ne.
  - intros Hself.
    rewrite bool_decide_eq_false_2 by (rewrite Hself; by intros [? ?]).
    cbn [andb]. rewrite (findByIdAndUpdate_absent _ _ _ Hself). simpl.
    by rewrite with_users_same.
Qed.

Lemma updateProfile_changes_only_supplied_fields_witness :
  let b := {| ProfileBody.name := None; ProfileBody.email := None;
              ProfileBody.phone := Some "555-0100";
              ProfileBody.address := None |} in
  let r := updateProfile alice_token b shop in
  ∃ self', users r.2 !! 1%N = Some self' ∧
           User.phone self' = "555-0100" ∧
           User.name self' = "Alice" ∧
           User.role self' = "user" ∧
           User.cart self' = User.cart alice.
Proof.
  intros b r.
  destruct (updateProfile_changes_only_supplied_fields
              {| id := 1%N; role := "user" |} b shop) as [Hok _].
  destruct (Hok alice eq_refl eq_refl)
    as (self' & _ & Hself' & Hname & _ & Hphone & _ & _ & Hrole & Hcart & _).
  exists self'. split; [exact Hself'|].
  split; [exact Hphone|]. split; [exact Hname|].
  split; [exact Hrole|exact Hcart].
Defined.

(** ** Adding to the cart *)

Lemma addToCart_stored_user now user b q st userId productId quantity p owner :
  or_else (id <$> user) (or_else (CartAddBody.userId b) q) = Some userId →
  CartAddBody.productId b = Some productId →
  truthy_number (CartAddBody.quantity b) = Some quantity →
  products st !! productId = Some p →
  users st !! userId = Some owner →
  (addToCart now user b q st).2
  = with_users (<[userId := push_cart now productId quantity owner]>
                  (users st)) st ∧
  status (addToCart now user b q st).1 = 200.
Proof.
  intros Hu Hp Hq Hprod Howner. unfold addToCart, findById.
  rewrite Hu, Hp, Hq, Hprod. unfold findByIdAndUpdate. simpl.
  by rewrite (alter_present _ _ _ _ Howner).
Qed.

(** X8.  Adding an existing product to the cart of a stored user appends
    one line with the product, the quantity and the current time at the end
    of the cart and keeps every earlier line, also the lines of the same
    product: lines are not merged.  The quantity is not compared with the
    stock.  Nothing else of the user and nothing else in the store
    changes. *)
Theorem addToCart_appends_one_line
    (now : Date) (user : option Identity) (b : CartAddBody.t)
    (queryUserId : option ObjectId) (st : Store)
    (userId productId : ObjectId) (quantity : Number) (p : Product.t)
    (owner : User.t) :
  or_else (id <$> user) (or_else (CartAddBody.userId b) queryUserId)
  = Some userId →
  CartAddBody.productId b = Some productId →
  truthy_number (CartAddBody.quantity b) = Some quantity →
  products st !! productId = Some p →
  users st !! userId = Some owner →
  let r := addToCart now user b queryUserId st in
  status r.1 = 200 ∧
  message r.1 = "Product added to cart successfully" ∧
  (∃ owner',
     users r.2 !! userId = Some owner' ∧
     User.cart owner'
     = User.cart owner ++
       [{| User.productId := productId; User.quantity := quantity;
           User.addedAt := now |}] ∧
     User.with_cart (User.cart owner) owner' = owner) ∧
  (∀ j, j ≠ userId → users r.2 !! j = users st !! j) ∧
  products r.2 = products st ∧
  orders r.2 = orders st.
Proof.
  intros Hu Hp Hq Hprod Howner r. subst r.
  destruct (addToCart_stored_user now user b queryUserId st userId productId
              quantity p owner Hu Hp Hq Hprod Howner) as [Hst Hstatus].
  rewrite Hst. split; [done|]. split.
  { unfold addToCart, findById. by rewrite Hu, Hp, Hq, Hprod. }
  simpl. split.
  { exists (push_cart now productId quantity owner).
    split; [apply lookup_insert_eq|]. split; [done|]. by destruct owner. }
  split; [|done]. intros j Hj. by rewrite lookup_insert_ne.
Qed.

Lemma addToCart_appends_one_line_witness :
  let b := {| CartAddBody.productId := Some 10%N;
              CartAddBody.quantity := Some 99%Q;
              CartAddBody.userId := Some 1%N |} in
  let r := addToCart 60%Z None b None shop in
  (Product.stock widget < 99)%Q ∧
  (length ∘ User.cart <$> users r.2 !! 1%N) = Some 4.
Proof.
  intros b r. split; [by vm_compute|].
  destruct (addToCart_appends_one_line 60%Z None b None shop 1%N 10%N 99%Q
              widget alice eq_refl eq_refl eq_refl eq_refl eq_refl)
    as (_ & _ & (owner' & Ho & Hcart & _) & _).
  fold r in Ho. rewrite Ho. simpl. by rewrite Hcart.
Defined.

Lemma pull_cart_push_cart now productId quantity owner :
  (∀ line, line ∈ User.cart owner → User.productId line ≠ productId) →
  pull_cart productId (push_cart now productId quantity owner) = owner.
Proof.
  intros Hno. unfold pull_cart, push_cart, User.with_cart. simpl.
  rewrite filter_app, filter_cons_False, filter_nil, app_nil_r
    by (simpl; tauto).
  apply (pull_cart_no_match productId owner Hno).
Qed.

(** X9.  Adding a product that the cart of a stored user does not hold and
    then removing that product gives back the store as it was before the
    addition. *)
Theorem addToCart_then_removeFromCart_restores
    (now : Date) (user : option Identity) (b : CartAddBody.t)
    (queryUserId : option ObjectId) (st : Store)
    (userId productId : ObjectId) (quantity : Number) (p : Product.t)
    (owner : User.t) :
  or_else (id <$> user) (or_else (CartAddBody.userId b) queryUserId)
  = Some userId →
  CartAddBody.productId b = Some productId →
  truthy_number (CartAddBody.quantity b) = Some quantity →
  products st !! productId = Some p →
  users st !! userId = Some owner →
  (∀ line, line ∈ User.cart owner → User.productId line ≠ productId) →
  let st' := (addToCart now user b queryUserId st).2 in
  let r := removeFromCart user productId (CartAddBody.userId b) queryUserId
             st' in
  status r.1 = 200 ∧ r.2 = st.
Proof.
  intros Hu Hp Hq Hprod Howner Hno st' r. subst r st'.
  destruct (addToCart_stored_user now user b queryUserId st userId productId
              quantity p owner Hu Hp Hq Hprod Howner) as [Hst _].
  rewrite Hst. unfold removeFromCart. rewrite Hu.
  unfold findByIdAndUpdate. simpl. split; [done|].
  rewrite alter_insert_eq, (pull_cart_push_cart _ _ _ _ Hno).
  rewrite (insert_id _ _ _ Howner). by destruct st.
Qed.

Lemma addToCart_then_removeFromCart_restores_witness :
  let b := {| CartAddBody.productId := Some 11%N;
              CartAddBody.quantity := Some 2%Q;
              CartAddBody.userId := Some 1%N |} in
  let empty_handed := with_users {[ 1%N := User.with_cart [] alice ]} shop in
  (removeFromCart None 11%N (Some 1%N) None
     (addToCart 60%Z None b None empty_handed).2).2 = empty_handed.
Proof.
  intros b empty_handed.
  apply (addToCart_then_removeFromCart_restores 60%Z None b None empty_handed
           1%N 11%N 2%Q gadget (User.with_cart [] alice));
    try reflexivity.
  intros line Hin. by apply elem_of_nil in Hin.
Defined.

(** X10.  The answer to adding an existing product to the cart of a stored
    user shows the user with the cart as it is stored after the addition,
    every line joined with the name, price, category and stock of its
    product: the lines the cart held, in order, and at the end the added
    product with the values the store holds for it. *)
Theorem addToCart_answers_with_the_populated_cart
    (now : Date) (user : option Identity) (b : CartAddBody.t)
    (queryUserId : option ObjectId) (st : Store)
    (userId productId : ObjectId) (quantity : Number) (p : Product.t)
    (owner : User.t) :
  or_else (id <$> user) (or_else (CartAddBody.userId b) queryUserId)
  = Some userId →
  CartAddBody.productId b = Some productId →
  truthy_number (CartAddBody.quantity b) = Some quantity →
  products st !! productId = Some p →
  users st !! userId = Some owner →
  ∃ shown,
    (addToCart now user b queryUserId st).1
    = reply_with 200 "Product added to cart successfully"
        (UserPayload (Some shown)) ∧
    pu_id shown = userId ∧
    users (addToCart now user b queryUserId st).2 !! userId
    = Some (pu_user shown) ∧
    pu_cart shown
    = populate_cart (products st) (User.cart owner) ++
      [Some (productId,
             {| cp_name := Product.name p; cp_price := Product.price p;
                cp_category := Product.category p;
                cp_stock := Product.stock p |})].
Proof.
  intros Hu Hp Hq Hprod Howner. unfold addToCart, findById.
  rewrite Hu, Hp, Hq, Hprod. unfold findByIdAndUpdate. cbn [fst snd].
  rewrite (alter_present _ _ _ _ Howner).
  unfold populate_user, findById. cbn [users with_users products].
  rewrite lookup_insert_eq. eexists. split; [reflexivity|].
  cbn [pu_id pu_user pu_cart]. split; [done|]. split; [done|].
  unfold populate_cart, push_cart. simpl. rewrite map_app. simpl.
  by rewrite Hprod.
Qed.

Lemma addToCart_answers_with_the_populated_cart_witness :
  let b := {| CartAddBody.productId := Some 11%N;
              CartAddBody.quantity := Some 2%Q;
              CartAddBody.userId := Some 1%N |} in
  ∃ shown,
    payload (addToCart 60%Z None b None shop).1 = UserPayload (Some shown) ∧
    length (pu_cart shown) = 4 ∧
    (cp_name ∘ snd <$> default None (last (pu_cart shown))) = Some "Gadget".
Proof.
  intros b.
  destruct (addToCart_answers_with_the_populated_cart 60%Z None b None shop
              1%N 11%N 2%Q gadget alice eq_refl eq_refl eq_refl eq_refl
              eq_refl) as (shown & Hr & _ & _ & Hcart).
  exists shown. rewrite Hr, Hcart. by repeat split.
Defined.

(** X11.  Adding to the cart never writes a product or an order, and a
    request that is not answered 200 writes nothing at all: a missing
    product id, a missing quantity or the quantity 0 fail with
    ValidationError, as does a request that carries no user id, and an id
    that matches no product fails with NotFoundError. *)
Theorem addToCart_failures_write_nothing
    (now : Date) (user : option Identity) (b : CartAddBody.t)
    (queryUserId : option ObjectId) (st : Store) :
  let r := addToCart now user b queryUserId st in
  products r.2 = products st ∧
  orders r.2 = orders st ∧
  (status r.1 ≠ 200 → r.2 = st) ∧
  (CartAddBody.productId b = None ∨
   truthy_number (CartAddBody.quantity b) = None →
   r = (reply 400 "Product ID and quantity are required", st)) ∧
  (is_Some (CartAddBody.productId b) →
   is_Some (truthy_number (CartAddBody.quantity b)) →
   or_else (id <$> user) (or_else (CartAddBody.userId b) queryUserId) = None →
   r = (reply 400 "userId is required (provide token or userId)", st)) ∧
  (∀ productId userId,
     CartAddBody.productId b = Some productId →
     is_Some (truthy_number (CartAddBody.quantity b)) →
     or_else (id <$> user) (or_else (CartAddBody.userId b) queryUserId)
     = Some userId →
     products st !! productId = None →
     r = (reply 404 "Product not found", st)).
Proof.
  intros r. subst r. unfold addToCart, findById.
  split; [by repeat case_match|].
  split; [by repeat case_match|].
  split; [repeat case_match; simpl; done|].
  split; [|split].
  - intros [->| ->]; [done|]. by destruct (CartAddBody.productId b).
  - intros [pid ->] [q ->] Hu. by rewrite Hu.
  - intros productId userId -> [q ->] Hu Hp. by rewrite Hu, Hp.
Qed.

Lemma addToCart_failures_write_nothing_witness :
  let b := {| CartAddBody.productId := Some 10%N;
              CartAddBody.quantity := Some 0%Q;
              CartAddBody.userId := Some 1%N |} in
  addToCart 60%Z None b None shop
  = (reply 400 "Product ID and quantity are required", shop).
Proof.
  intros b.
  destruct (addToCart_failures_write_nothing 60%Z None b None shop)
    as (_ & _ & _ & Hmissing & _).
  apply Hmissing. by right.
Defined.

(** ** The orders of a user *)

#[local] Instance newer_first_total : Total newer_first.
Proof. intros a b. unfold newer_first. lia. Qed.

#[local] Instance newer_first_trans : Transitive newer_first.
Proof. intros a b c. unfold newer_first. lia. Qed.

Lemma NoDup_fst_filter {A B} (P : A * B → Prop) `{!∀ x, Decision (P x)}
    (l : list (A * B)) :
  NoDup l.*1 → NoDup (filter P l).*1.
Proof.
  induction l as [|x l IH]; [done|].
  rewrite fmap_cons, NoDup_cons. intros [Hx Hl].
  rewrite filter_cons. destruct (decide (P x)); [|by apply IH].
  rewrite fmap_cons, NoDup_cons. split; [|by apply IH].
  intros (y & Hy & Hin)%list_elem_of_fmap.
  apply list_elem_of_filter in Hin as [_ Hin].
  apply Hx. apply list_elem_of_fmap. by exists y.
Qed.

(** X12.  The listing of a user's orders holds every stored order of that
    user exactly once and no other order, and it is sorted by creation time,
    newest first. *)
Theorem listUserOrders_lists_own_orders_newest_first
    (u : Identity) (st : Store) :
  let r := listUserOrders (Some u) st in
  status r.1 = 200 ∧
  (∀ i o, (i, o) ∈ r.2 ↔
          orders st !! i = Some o ∧ Order.userId o = id u) ∧
  NoDup r.2.*1 ∧
  StronglySorted newer_first r.2.
Proof.
  intros r. subst r. simpl. unfold find_orders_of.
  split; [done|]. split; [|split].
  - intros i o. rewrite merge_sort_Permutation, list_elem_of_filter.
    rewrite elem_of_map_to_list. simpl. tauto.
  - rewrite merge_sort_Permutation.
    apply NoDup_fst_filter, NoDup_fst_map_to_list.
  - apply StronglySorted_merge_sort; apply _.
Qed.

Lemma listUserOrders_lists_own_orders_newest_first_witness :
  (20%N, alice_order) ∈ (listUserOrders alice_token shop_with_order).2 ∧
  (listUserOrders mallory_token shop_with_order).2 = [].
Proof.
  destruct (listUserOrders_lists_own_orders_newest_first
              {| id := 1%N; role := "user" |} shop_with_order)
    as (_ & Hown & _).
  split; [by apply Hown|reflexivity].
Defined.

(** ** Placement: the other outcomes *)







(** X15.  A placement without items, with an empty list of items, or
    without a delivery address or a payment method (an empty string counts
    as missing) fails with ValidationError before the loop starts: nothing
    is written. *)
Theorem placeOrder_rejects_incomplete_requests
    (now : Date) (u : Identity) (b : PlaceBody.t) (st : Store) :
  let r := placeOrder now (Some u) b st in
  (PlaceBody.items b = None ∨ PlaceBody.items b = Some [] →
   r = (reply 400 "Items are required", st)) ∧
  (∀ item items,
     PlaceBody.items b = Some (item :: items) →
     truthy_string (PlaceBody.deliveryAddress b) = None ∨
     truthy_string (PlaceBody.paymentMethod b) = None →
     r = (reply 400 "Delivery address and payment method are required",
          st)) ∧
  (status r.1 = 400 →
   ¬ String.prefix "Insufficient stock for " (message r.1) →
   error_class r.1 = Some ValidationError ∧ r.2 = st).
Proof.
  intros r. subst r. unfold placeOrder, auth. split; [|split].
  - by intros [->| ->].
  - intros item items -> [->| ->]; [done|].
    by destruct (truthy_string (PlaceBody.deliveryAddress b)).
  - destruct (PlaceBody.items b) as [[|item items]|];
      [intros _ _; by split| |intros _ _; by split].
    destruct (truthy_string (PlaceBody.deliveryAddress b));
      [|intros _ _; by split].
    destruct (truthy_string (PlaceBody.paymentMethod b));
      [|intros _ _; by split].
    destruct (place_items (item :: items) 0 [] (products st))
      as [[early|[tot lines]] ps] eqn:Hrun.
    + simpl. intros H400 Hprefix.
      assert (Hshape : ∀ its total processed qs e qs',
                place_items its total processed qs = (inl e, qs') →
                status e = 404 ∨
                ∃ name, e = reply 400 ("Insufficient stock for " +:+ name)).
      { clear. induction its as [|it its IH]; intros total processed qs e qs';
          [done|].
        simpl. destruct (findById qs (PlaceBody.productId it)) as [p|].
        - destruct (Qlt_bool _ _).
          + intros [= <- _]. right. by eexists.
          + apply IH.
        - intros [= <- _]. by left. }
      destruct (Hshape _ _ _ _ _ _ Hrun) as [H404|[name ->]].
      * rewrite H404 in H400. discriminate.
      * destruct Hprefix. simpl. by destruct name.
    + destruct (validate_order _); simpl; discriminate.
Qed.

Lemma placeOrder_rejects_incomplete_requests_witness :
  placeOrder 9%Z alice_token
    {| PlaceBody.items := Some [one_widget_line 1];
       PlaceBody.deliveryAddress := Some "";
       PlaceBody.paymentMethod := Some "upi" |} shop
  = (reply 400 "Delivery address and payment method are required", shop).
Proof.
  destruct (placeOrder_rejects_incomplete_requests 9%Z
              {| id := 1%N; role := "user" |}
              {| PlaceBody.items := Some [one_widget_line 1];
                 PlaceBody.deliveryAddress := Some "";
                 PlaceBody.paymentMethod := Some "upi" |} shop)
    as (_ & Hmissing & _).
  apply (Hmissing (one_widget_line 1) []); [reflexivity|by left].
Defined.




(** ** Stock never goes below zero *)

Lemma place_items_keeps_stocks_nonneg items total processed ps :
  stocks_nonneg ps → stocks_nonneg (place_items items total processed ps).2.
Proof.
  revert total processed ps.
  induction items as [|item items IH]; intros total processed ps Hps; [done|].
  simpl. unfold findById.
  destruct (ps !! PlaceBody.productId item) as [product|] eqn:Hprod; [|done].
  destruct (Qlt_bool (Product.stock product) (PlaceBody.quantity item))
    eqn:Hlt; [done|].
  apply Qlt_bool_false in Hlt. apply IH.
  intros pid p. unfold findByIdAndUpdate. simpl.
  destruct (decide (PlaceBody.productId item = pid)) as [<-|Hne].
  - rewrite lookup_alter_eq, Hprod. intros [= <-]. simpl. lra.
  - rewrite lookup_alter_ne by done. apply Hps.
Qed.

(** X17.  A placement that is served without another request between
    its awaits never drives a stock below zero: whatever the request and
    whatever the outcome, if no stored product had a negative stock before
    the request, none has one after it.  The test and the decrement of an
    iteration are two separate steps, though, and the guarantee is lost
    when two placements interleave: if both tests read the stock before
    either decrement, both pass as soon as each quantity alone is covered,
    and the two decrements leave a negative stock when the quantities
    together exceed it. *)
Theorem placeOrder_alone_never_oversells
    (now : Date) (user : option Identity) (b : PlaceBody.t) (st : Store) :
  (stocks_nonneg (products st) →
   stocks_nonneg (products (placeOrder now user b st).2)) ∧
  (∀ item rest total processed ps,
     item_in_stock ps item = true →
     ∃ product,
       ps !! PlaceBody.productId item = Some product ∧
       place_items (item :: rest) total processed ps
       = place_items rest
           (js_add total
              (js_mul (Product.price product) (PlaceBody.quantity item)))
           (processed ++
            [processed_item (PlaceBody.productId item) product
               (PlaceBody.quantity item)])
           (take_item ps item)) ∧
  (∀ ps first second p,
     PlaceBody.productId first = PlaceBody.productId second →
     ps !! PlaceBody.productId first = Some p →
     (PlaceBody.quantity first <= Product.stock p)%Q →
     (PlaceBody.quantity second <= Product.stock p)%Q →
     (Product.stock p
      < PlaceBody.quantity first + PlaceBody.quantity second)%Q →
     item_in_stock ps first = true ∧
     item_in_stock ps second = true ∧
     ∃ p', take_item (take_item ps first) second
             !! PlaceBody.productId first = Some p' ∧
           (Product.stock p' < 0)%Q).
Proof.
  split; [|split].
  - intros Hst. unfold placeOrder, auth.
    repeat case_match; simpl; try done;
      match goal with
      | H : place_items ?items ?t ?l ?ps = (_, ?ps') |- _ =>
        replace ps' with (place_items items t l ps).2 by (by rewrite H);
        by apply place_items_keeps_stocks_nonneg
      end.
  - intros item rest total processed ps. unfold item_in_stock, findById.
    destruct (ps !! PlaceBody.productId item) as [product|] eqn:Hp; [|done].
    intros Hok%negb_true_iff. exists product. split; [done|].
    simpl. unfold findById. by rewrite Hp, Hok.
  - intros ps first second p Hsame Hp Hfirst Hsecond Hboth.
    unfold item_in_stock, findById. rewrite <- Hsame, Hp.
    split; [by apply negb_true_iff, Qlt_bool_false|].
    split; [by apply negb_true_iff, Qlt_bool_false|].
    unfold take_item, findByIdAndUpdate. cbn [fst].
    rewrite <- Hsame, !lookup_alter_eq, Hp. eexists. split; [reflexivity|].
    simpl. lra.
Qed.

Lemma placeOrder_alone_never_oversells_witness :
  stocks_nonneg
    (products
       (placeOrder 9%Z alice_token
          (order_of [one_widget_line 3; one_widget_line 3] "upi") shop).2) ∧
  ∃ p', take_item (take_item (products shop) (one_widget_line 3))
          (one_widget_line 3) !! 10%N = Some p' ∧
        (Product.stock p' < 0)%Q.
Proof.
  destruct (placeOrder_alone_never_oversells 9%Z alice_token
              (order_of [one_widget_line 3; one_widget_line 3] "upi") shop)
    as (Halone & _ & Hboth).
  split.
  - apply Halone.
    intros pid p. unfold shop. simpl.
    rewrite lookup_insert. case_decide.
    + intros [= <-]. by vm_compute.
    + rewrite lookup_singleton. case_decide; [|done].
      intros [= <-]. by vm_compute.
  - destruct (Hboth (products shop) (one_widget_line 3) (one_widget_line 3)
                widget eq_refl eq_refl) as (_ & _ & Hneg);
      [by vm_compute|by vm_compute|by vm_compute|exact Hneg].
Defined.

(** ** Cancellation: what follows *)

(** X18.  Once an order has been cancelled, a second cancellation of the
    same order, by anyone, fails with NotFoundError and writes nothing: the
    stock is given back once. *)
Theorem cancelOrder_twice_restores_once
    (u u' : Identity) (orderId : ObjectId) (st : Store) (o : Order.t) :
  orders st !! orderId = Some o →
  Order.userId o = id u ∨ role u = "admin" →
  Order.orderStatus o ≠ "delivered" →
  let st' := (cancelOrder (Some u) orderId st).2 in
  let r := cancelOrder (Some u') orderId st' in
  r.1 = reply 404 "Order not found" ∧
  error_class r.1 = Some NotFoundError ∧
  r.2 = st'.
Proof.
  intros Ho Hwho Hst st' r. subst r st'.
  rewrite (cancelOrder_allowed _ _ _ _ Ho Hwho Hst). cbn [fst snd].
  unfold cancelOrder, auth, findById. simpl.
  by rewrite lookup_delete_eq.
Qed.

Lemma cancelOrder_twice_restores_once_witness :
  let st' := (cancelOrder alice_token 20%N shop_with_order).2 in
  cancelOrder admin_token 20%N st' = (reply 404 "Order not found", st').
Proof.
  intros st'.
  destruct (cancelOrder_twice_restores_once {| id := 1%N; role := "user" |}
              {| id := 2%N; role := "admin" |} 20%N shop_with_order
              alice_order eq_refl (or_introl eq_refl))
    as (Hr & _ & Hst).
  { discriminate. }
  apply injective_projections; [exact Hr|exact Hst].
Defined.

(** X19.  A tracking update with the status "delivered" sets orderStatus
    to "delivered", and the cancellation served next is refused: the owner
    and every admin get a ConflictError, anyone else a ForbiddenError, and
    nothing is written.  The order is not blocked for good: a later
    tracking update with any other status sets orderStatus back to
    "shipped", after which the owner or an admin cancels the order. *)
Theorem delivered_order_is_blocked_until_tracked_again
    (now : Date) (a u : Identity) (b : TrackingBody.t) (st : Store)
    (orderId : ObjectId) (o : Order.t) :
  role a = "admin" →
  TrackingBody.orderId b = Some orderId →
  TrackingBody.status b = Some "delivered" →
  orders st !! orderId = Some o →
  let st' := (updateDeliveryTracking now (Some a) b st).2 in
  (Order.orderStatus <$> orders st' !! orderId) = Some "delivered" ∧
  (let r := cancelOrder (Some u) orderId st' in
   (Order.userId o = id u ∨ role u = "admin" →
    r.1 = reply 400 "Cannot cancel a delivered order" ∧
    error_class r.1 = Some ConflictError) ∧
   (Order.userId o ≠ id u → role u ≠ "admin" →
    r.1 = reply 403 "Unauthorized to delete this order" ∧
    error_class r.1 = Some ForbiddenError) ∧
   r.2 = st') ∧
  (∀ now' b' other,
     TrackingBody.orderId b' = Some orderId →
     truthy_string (TrackingBody.status b') = Some other →
     other ≠ "delivered" →
     Order.userId o = id u ∨ role u = "admin" →
     let st'' := (updateDeliveryTracking now' (Some a) b' st').2 in
     let r := cancelOrder (Some u) orderId st'' in
     (Order.orderStatus <$> orders st'' !! orderId) = Some "shipped" ∧
     status r.1 = 200 ∧
     orders r.2 !! orderId = None).
Proof.
  intros Hadmin Hid Hstatus Ho st'. subst st'.
  rewrite (updateDeliveryTracking_found now a b st orderId "delivered" o
             Hadmin Hid (eq_trans (f_equal truthy_string Hstatus) eq_refl)
             Ho).
  cbn [fst snd].
  set (o' := update_tracking now "delivered" (TrackingBody.location b)
               (TrackingBody.estimatedDelivery b) o).
  set (st' := with_orders (<[orderId := o']> (orders st)) st).
  assert (orders st' !! orderId = Some o') as Ho' by apply lookup_insert_eq.
  split; [by rewrite Ho'|]. split.
  - unfold cancelOrder, auth, findById. rewrite Ho'. simpl.
    destruct (decide (Order.userId o ≠ id u ∧ role u ≠ "admin"))
      as [[Hown Hrole]|Hallowed].
    + split; [intros [?|?]; done|]. by split.
    + split; [by intros _|]. split; [|done].
      intros Hown Hrole. destruct Hallowed. by split.
  - intros now' b' other Hid' Hstatus' Hother Hwho.
    rewrite (updateDeliveryTracking_found now' a b' st' orderId other o'
               Hadmin Hid' Hstatus' Ho').
    cbn [fst snd].
    set (o'' := update_tracking now' other (TrackingBody.location b')
                  (TrackingBody.estimatedDelivery b') o').
    assert (Order.orderStatus o'' = "shipped") as Hshipped.
    { unfold o''. simpl. by rewrite decide_False. }
    split.
    { unfold with_orders. cbn [orders]. rewrite lookup_insert_eq.
      cbn [fmap option_fmap option_map]. by rewrite Hshipped. }
    rewrite (cancelOrder_allowed u orderId _ o'').
    + split; [done|]. simpl. apply lookup_delete_eq.
    + apply lookup_insert_eq.
    + exact Hwho.
    + rewrite Hshipped. discriminate.
Qed.

Lemma delivered_order_is_blocked_until_tracked_again_witness :
  let delivered := {| TrackingBody.orderId := Some 20%N;
                      TrackingBody.status := Some "delivered";
                      TrackingBody.location := None;
                      TrackingBody.estimatedDelivery := None |} in
  let returned := {| TrackingBody.orderId := Some 20%N;
                     TrackingBody.status := Some "in_transit";
                     TrackingBody.location := None;
                     TrackingBody.estimatedDelivery := None |} in
  let st' :=
    (updateDeliveryTracking 30%Z admin_token delivered shop_with_order).2 in
  let st'' := (updateDeliveryTracking 31%Z admin_token returned st').2 in
  (cancelOrder alice_token 20%N st').1
  = reply 400 "Cannot cancel a delivered order" ∧
  status (cancelOrder alice_token 20%N st'').1 = 200.
Proof.
  intros delivered returned st' st''.
  destruct (delivered_order_is_blocked_until_tracked_again 30%Z
              {| id := 2%N; role := "admin" |} {| id := 1%N; role := "user" |}
              delivered shop_with_order 20%N alice_order eq_refl eq_refl
              eq_refl eq_refl) as (_ & (Hconflict & _) & Hagain).
  split.
  - by destruct (Hconflict (or_introl eq_refl)) as [Hr _].
  - destruct (Hagain 31%Z returned "in_transit" eq_refl eq_refl)
      as (_ & H200 & _); [discriminate|by left|exact H200].
Defined.

(** ** What every stored order satisfies *)

Lemma validate_order_accepts o :
  validate_order o = true →
  Forall (λ line, (1 <= Order.quantity line)%Q) (Order.items o) ∧
  Order.deliveryAddress o ≠ "" ∧
  Order.paymentMethod o ∈ Order.paymentMethod_enum.
Proof.
  unfold validate_order. rewrite !andb_true_iff.
  intros [[[[[Hq Haddr] Hpm] _] _] _].
  split; [|split].
  - apply Forall_forall. intros line Hin. apply Qle_bool_iff.
    rewrite forallb_forall in Hq. apply Hq. by apply list_elem_of_In.
  - by apply bool_decide_eq_true_1 in Haddr.
  - by apply bool_decide_eq_true_1 in Hpm.
Qed.

Lemma new_order_ok now userId items ps tot lines deliveryAddress
    paymentMethod :
  items ≠ [] →
  Forall2 (snapshot_of ps) items lines →
  tot = order_total lines →
  validate_order
    (new_order now userId lines tot deliveryAddress paymentMethod) = true →
  order_ok (new_order now userId lines tot deliveryAddress paymentMethod).
Proof.
  intros Hne Hsnap Htot Hvalid.
  apply validate_order_accepts in Hvalid as (Hq & Haddr & Hpm).
  simpl in Hq, Haddr, Hpm. unfold order_ok. simpl.
  split; [done|]. split; [by left|]. split; [done|]. split; [done|].
  split.
  { intros ->. apply Forall2_nil_inv_r in Hsnap. done. }
  split.
  - clear -Hsnap Hq. induction Hsnap as [|item line items lines Hs _ IH].
    + constructor.
    + apply Forall_cons in Hq as [Hq1 Hq]. constructor; [|by apply IH].
      split; [done|].
      destruct Hs as (p & _ & _ & _ & -> & -> & ->). done.
  - exact Htot.
Qed.

Lemma placeOrder_orders now user b st :
  let r := placeOrder now user b st in
  orders r.2 = orders st ∨
  ∃ order, orders r.2 = <[new_id (orders st) := order]> (orders st) ∧
           order_ok order.
Proof.
  unfold placeOrder, auth.
  destruct user as [u|]; [|by left].
  destruct (PlaceBody.items b) as [[|item items]|]; [by left| |by left].
  destruct (truthy_string (PlaceBody.deliveryAddress b)) as [addr|];
    [|by left].
  destruct (truthy_string (PlaceBody.paymentMethod b)) as [pm|]; [|by left].
  destruct (place_items (item :: items) 0 [] (products st))
    as [[early|[tot lines]] ps'] eqn:Hrun; [by left|].
  destruct (validate_order (new_order now (id u) lines tot addr pm))
    eqn:Hvalid; [|by left].
  right. eexists. split; [reflexivity|].
  destruct (place_items_completed _ _ _ _ _ _ _ Hrun)
    as (lines' & Hout & Htot & Hsnap & _).
  simpl in Hout. subst lines'.
  by apply (new_order_ok now (id u) (item :: items) (products st)).
Qed.

Lemma update_tracking_ok now status location estimatedDelivery o :
  order_ok o →
  order_ok (update_tracking now status location estimatedDelivery o).
Proof.
  intros (Hpay & _ & Hrest). unfold order_ok. simpl.
  split; [done|]. split; [|done].
  case_decide; [by right; right|by right; left].
Qed.

Lemma updateDeliveryTracking_orders now user b st :
  let r := updateDeliveryTracking now user b st in
  orders r.2 = orders st ∨
  ∃ orderId status,
    orders r.2
    = alter (update_tracking now status (TrackingBody.location b)
               (TrackingBody.estimatedDelivery b)) orderId (orders st).
Proof.
  unfold updateDeliveryTracking, auth, admin, findByIdAndUpdate.
  destruct user as [u|]; [|by left].
  case_decide; [|by left].
  destruct (TrackingBody.orderId b) as [orderId|]; [|by left].
  destruct (truthy_string (TrackingBody.status b)) as [status|]; [|by left].
  right. exists orderId, status. by destruct (_ <$> _).
Qed.

Lemma cancelOrder_orders user orderId st :
  let r := cancelOrder user orderId st in
  orders r.2 = orders st ∨ orders r.2 = delete orderId (orders st).
Proof.
  unfold cancelOrder, auth, findById, findByIdAndDelete.
  destruct user as [u|]; [|by left].
  destruct (orders st !! orderId) as [o|]; [|by left].
  repeat case_decide; auto.
Qed.

Lemma handle_orders_ok hash compare sign now req st :
  orders_ok st → orders_ok (handle hash compare sign now req st).2.
Proof.
  intros Hok.
  assert (Hsame : ∀ st', orders st' = orders st → orders_ok st').
  { intros st' Heq j o. rewrite Heq. apply Hok. }
  destruct req; simpl.
  - apply Hsame. unfold signup. by repeat case_match.
  - apply Hsame. unfold login. by repeat case_match.
  - apply Hsame. unfold updateProfile, auth. by repeat case_match.
  - apply Hsame. unfold addProduct, auth, admin. by repeat case_match.
  - apply Hsame. unfold assignAdmin, auth, admin. by repeat case_match.
  - apply Hsame. unfold updateProduct, auth, admin. by repeat case_match.
  - destruct (updateDeliveryTracking_orders now user b st)
      as [Heq|(oid & status & Heq)]; [by apply Hsame|].
    intros j o. rewrite Heq.
    destruct (decide (oid = j)) as [<-|Hne].
    + rewrite lookup_alter_eq.
      destruct (orders st !! oid) as [old|] eqn:Hold; [|done].
      intros [= <-]. apply update_tracking_ok. by apply (Hok oid).
    + rewrite lookup_alter_ne by done. apply Hok.
  - apply Hsame. unfold addToCart. by repeat case_match.
  - apply Hsame. unfold removeFromCart. by repeat case_match.
  - destruct (placeOrder_orders now user b st) as [Heq|(order & Heq & Horder)].
    + by apply Hsame.
    + intros j o. rewrite Heq.
      destruct (decide (new_id (orders st) = j)) as [<-|Hne].
      * rewrite lookup_insert_eq. by intros [= <-].
      * rewrite lookup_insert_ne by done. apply Hok.
  - destruct (cancelOrder_orders user orderId st) as [Heq|Heq];
      [by apply Hsame|].
    intros j o. rewrite Heq.
    destruct (decide (orderId = j)) as [<-|Hne].
    + by rewrite lookup_delete_eq.
    + rewrite lookup_delete_ne by done. apply Hok.
  - apply Hsame. unfold postReview, auth. by repeat case_match.
Qed.

Lemma reachable_orders_ok hash compare sign st :
  reachable hash compare sign st → orders_ok st.
Proof.
  induction 1 as [|st now req _ IH].
  - intros i o Ho. simpl in Ho. by rewrite lookup_empty in Ho.
  - by apply handle_orders_ok.
Qed.



(** ** Review posts that fail, and the listing of the reviews *)

(** X21.  A review post writes neither a user nor an order, and a post
    answered 400 or 404 writes nothing.  The rating is checked first; then
    a post with a valid rating by an identity that matches no stored user
    fails with InternalError and writes nothing, whether or not the product
    exists, and a post by a stored user on an id that matches no product
    fails with NotFoundError.  A post by a stored user on a product whose
    name is empty fails with InternalError as well, but only after the
    review has been pushed: the review is stored, and averageRating and
    totalReviews are left as they were. *)
Theorem postReview_refused_on_save_keeps_the_review
    (now : Date) (u : Identity) (pid : ObjectId) (b : ReviewBody.t)
    (st : Store) :
  let r := postReview now (Some u) pid b st in
  users r.2 = users st ∧
  orders r.2 = orders st ∧
  (status r.1 = 400 ∨ status r.1 = 404 → r.2 = st) ∧
  (∀ rating,
     ReviewBody.rating b = Some rating →
     rating_in_range rating →
     users st !! id u = None →
     status r.1 = 500 ∧
     error_class r.1 = Some InternalError ∧
     r.2 = st) ∧
  (∀ rating reviewer,
     ReviewBody.rating b = Some rating →
     rating_in_range rating →
     users st !! id u = Some reviewer →
     products st !! pid = None →
     r.1 = reply 404 "Product not found" ∧
     error_class r.1 = Some NotFoundError) ∧
  (∀ rating reviewer p,
     ReviewBody.rating b = Some rating →
     rating_in_range rating →
     users st !! id u = Some reviewer →
     products st !! pid = Some p →
     Product.name p = "" →
     status r.1 = 500 ∧
     error_class r.1 = Some InternalError ∧
     products r.2
     = <[pid := Product.with_reviews
                  (Product.reviews p
                   ++ [review_of now (id u) reviewer rating b]) p]>
         (products st)).
Proof.
  intros r. subst r.
  assert (Htruthy : ∀ rating, ReviewBody.rating b = Some rating →
            rating_in_range rating →
            truthy_number (ReviewBody.rating b) = Some rating ∧
            Qlt_bool rating 1 || Qlt_bool 5 rating = false).
  { intros rating -> [Hlo Hhi]. unfold truthy_number.
    destruct (Qeq_bool rating 0) eqn:Hz.
    { apply Qeq_bool_iff in Hz. lra. }
    split; [done|].
    by rewrite (proj2 (Qlt_bool_false _ _) Hlo),
               (proj2 (Qlt_bool_false _ _) Hhi). }
  split; [|split; [|split; [|split; [|split]]]].
  - unfold postReview, auth, findByIdAndUpdate. by repeat case_match.
  - unfold postReview, auth, findByIdAndUpdate. by repeat case_match.
  - destruct (postReview_outcome now (Some u) pid b st)
      as [[_ Heq]|(? & ? & ? & ? & _ & _ & _ & _ & _
                   & [(_ & H201 & _)|(_ & H500 & _)])];
      [done| |].
    + intros [H|H]; rewrite H201 in H; discriminate.
    + rewrite H500. intros [H|H]; discriminate.
  - intros rating Hr Hrange Hu.
    destruct (Htruthy rating Hr Hrange) as [Ht Hchk].
    unfold postReview, auth, findById. by rewrite Ht, Hchk, Hu.
  - intros rating reviewer Hr Hrange Hu Hp.
    destruct (Htruthy rating Hr Hrange) as [Ht Hchk].
    unfold postReview, auth, findById. rewrite Ht, Hchk, Hu.
    by rewrite (findByIdAndUpdate_absent _ _ _ Hp).
  - intros rating reviewer p Hr Hrange Hu Hp Hname.
    destruct (Htruthy rating Hr Hrange) as [Ht Hchk].
    unfold postReview, auth, findById. rewrite Ht, Hchk, Hu.
    rewrite (findByIdAndUpdate_present _ _ _ _ Hp).
    unfold validate_product. simpl. rewrite Hname. simpl.
    by repeat split.
Qed.

Lemma postReview_refused_on_save_keeps_the_review_witness :
  let st := run sample_hash sample_compare sample_sign unnamed_run
              empty_store in
  let r := postReview 4%Z first_user 0%N
             {| ReviewBody.rating := Some 4%Q;
                ReviewBody.comment := None |} st in
  status r.1 = 500 ∧
  ∃ p, products r.2 !! 0%N = Some p ∧
       map Product.rating (Product.reviews p) = [4%Q] ∧
       Product.totalReviews p = 0.
Proof.
  intros st r.
  destruct (products st !! 0%N) as [p|] eqn:Hp;
    [|vm_compute in Hp; discriminate].
  destruct (users st !! 0%N) as [reviewer|] eqn:Hu;
    [|vm_compute in Hu; discriminate].
  destruct (postReview_refused_on_save_keeps_the_review 4%Z
              {| id := 0%N; role := "user" |} 0%N
              {| ReviewBody.rating := Some 4%Q;
                 ReviewBody.comment := None |} st)
    as (_ & _ & _ & _ & _ & Hrefused).
  destruct (Hrefused 4%Q reviewer p eq_refl) as (Hstatus & _ & Hps).
  { split; by vm_compute. }
  { exact Hu. }
  { exact Hp. }
  { vm_compute in Hp. by injection Hp as <-. }
  split; [exact Hstatus|].
  eexists. unfold r, first_user. rewrite Hps, lookup_insert_eq.
  split; [reflexivity|].
  vm_compute in Hp. injection Hp as <-. by split.
Defined.






(** ** Reading the cart *)

Lemma toLowerCase_length s : String.length (toLowerCase s) = String.length s.
Proof. induction s as [|c s IH]; simpl; [done|]. by rewrite IH. Qed.

(** X23.  No request reaches the handler of [GET /cart].  The route
    [/:id] is registered before it and takes every path of one segment that
    is not [delivery-tracking], so a path that the route [/cart] would
    match is served by the handler of [/:id] with the parameter [cart]
    (in any case of the letters), and whatever the router dispatches, it is
    never the cart route.  The cast of that parameter to an ObjectId fails,
    the parameter being shorter than the 12 bytes of an ObjectId, and the
    handler of [/:id] answers 500 whatever the store holds. *)
Theorem get_cart_is_served_by_the_product_route
    (castObjectId : string → option ObjectId) (st : Store) :
  (∀ s, String.length s < 12 → castObjectId s = None) →
  (∀ path,
     route_matches [Literal "cart"] path = true →
     dispatch_get path = Some GetProductById ∧
     ∃ s, path = [s] ∧
          status (getProduct castObjectId s st).1 = 500 ∧
          error_class (getProduct castObjectId s st).1 = Some InternalError) ∧
  (∀ path, dispatch_get path ≠ Some GetCart).
Proof.
  intros Hcast.
  assert (Hone : ∀ path, route_matches [Literal "cart"] path = true →
            ∃ s, path = [s] ∧ toLowerCase s = "cart").
  { intros [|s [|t rest]]; simpl; [done| |by rewrite andb_false_r].
    rewrite andb_true_r. intros Hs%bool_decide_eq_true. by exists s. }
  assert (Hdispatch : ∀ s, toLowerCase s = "cart" →
            dispatch_get [s] = Some GetProductById).
  { intros s Hs. unfold dispatch_get. simpl. rewrite Hs. simpl.
    rewrite bool_decide_eq_true_2; [done|]. by intros ->. }
  split.
  - intros path Hpath. destruct (Hone path Hpath) as (s & -> & Hs).
    split; [by apply Hdispatch|]. exists s. split; [done|].
    unfold getProduct. rewrite Hcast; [done|].
    rewrite <- toLowerCase_length, Hs. simpl. lia.
  - intros path. unfold dispatch_get, get_routes, first_match.
    repeat case_match; try done.
    match goal with
    | H : route_matches [Literal "cart"] path = true |- _ =>
      destruct (Hone path H) as (s & -> & Hs)
    end.
    match goal with
    | H : route_matches [Param "id"] [s] = false |- _ =>
      simpl in H; rewrite andb_true_r in H;
      apply bool_decide_eq_false in H; apply dec_stable in H; subst s
    end.
    discriminate Hs.
Qed.

Lemma get_cart_is_served_by_the_product_route_witness :
  dispatch_get ["cart"] = Some GetProductById ∧
  status (getProduct sample_cast "cart" shop).1 = 500 ∧
  dispatch_get ["0000000000000000000000ff"] = Some GetProductById ∧
  status (getProduct sample_cast "00000000000000000000000a" shop).1 = 200.
Proof.
  destruct (get_cart_is_served_by_the_product_route sample_cast shop)
    as [Hcart _].
  { intros s Hs. unfold sample_cast. rewrite decide_False; [done|lia]. }
  destruct (Hcart ["cart"] eq_refl) as (Hroute & s & Hpath & H500 & _).
  injection Hpath as <-.
  split; [exact Hroute|]. split; [exact H500|]. split; reflexivity.
Defined.



(** ** Cancellation never lowers a stock *)

Lemma ordered_quantity_nonneg pid lines :
  Forall (λ line, (1 <= Order.quantity line)%Q) lines →
  (0 <= ordered_quantity pid lines)%Q.
Proof.
  induction 1 as [|line lines Hq _ IH]; simpl; [lra|].
  case_decide; lra.
Qed.

(** X25.  In every state the system reaches from the empty store, a
    cancellation, whoever asks for it and whatever its outcome, keeps every
    product and lowers no stock. *)
Theorem cancelOrder_never_lowers_a_stock
    (hash : string → string) (compare : string → string → bool)
    (sign : ObjectId → string → string)
    (user : option Identity) (orderId : ObjectId) (st : Store)
    (pid : ObjectId) (p : Product.t) :
  reachable hash compare sign st →
  products st !! pid = Some p →
  ∃ p', products (cancelOrder user orderId st).2 !! pid = Some p' ∧
        (Product.stock p <= Product.stock p')%Q ∧
        Product.with_stock (Product.stock p) p' = p.
Proof.
  intros Hreach Hp.
  assert (Hsame : ∃ p', products st !! pid = Some p' ∧
                        (Product.stock p <= Product.stock p')%Q ∧
                        Product.with_stock (Product.stock p) p' = p).
  { exists p. split; [done|]. split; [lra|by destruct p]. }
  unfold cancelOrder, auth, findById, findByIdAndDelete.
  destruct user as [u|]; [|done].
  destruct (orders st !! orderId) as [o|] eqn:Ho; [|done].
  repeat case_decide; try done. simpl.
  destruct (restore_stock_present (Order.items o) (products st) pid p Hp)
    as (p' & Hp' & Hstock & Hrest).
  exists p'. split; [done|]. split; [|done].
  destruct (reachable_orders_ok hash compare sign st Hreach orderId o Ho)
    as (_ & _ & _ & _ & _ & Hlines & _).
  assert (0 <= ordered_quantity pid (Order.items o))%Q.
  { apply ordered_quantity_nonneg.
    eapply Forall_impl; [exact Hlines|]. by intros line [? _]. }
  rewrite Hstock. lra.
Qed.

Lemma cancelOrder_never_lowers_a_stock_witness :
  let st := run sample_hash sample_compare sample_sign sample_run_with_order
              empty_store in
  ∃ p p', products st !! 0%N = Some p ∧
          products (cancelOrder first_user 0%N st).2 !! 0%N = Some p' ∧
          (Product.stock p <= Product.stock p')%Q.
Proof.
  intros st.
  assert (Hreach : reachable sample_hash sample_compare sample_sign st).
  { apply run_reachable. constructor. }
  destruct (products st !! 0%N) as [p|] eqn:Hp;
    [|vm_compute in Hp; discriminate].
  destruct (cancelOrder_never_lowers_a_stock sample_hash sample_compare
              sample_sign first_user 0%N st 0%N p Hreach Hp)
    as (p' & Hp' & Hle & _).
  exists p, p'. split; [reflexivity|]. split; [exact Hp'|exact Hle].
Defined.
